(** * Market-Watcher: the ingestion-to-publish pipelines

    A shallow embedding of [gnews-service/src/main.py] and
    [scraping-worker/src/main.py].  Both services are sequential Python
    programs that talk to the outside world (the RabbitMQ broker through
    pika, the GNews client, an HTTP session, the clock, [time.sleep]).

    The embedding is a state-and-exception monad over a [State] that holds
    the fields of the service object, the locals of [run] that survive an
    exception, and the log of every library call made so far together with
    its outcome.  The outside world is an [Env]: for each library call it
    answers from the history of calls, so the same program can be run against
    any deterministic environment.  The [while True] loop of [run] takes
    fuel: one unit per iteration of the loop.

    What the model fixes: an exception is an [Exception] (of class
    [requests.RequestException] or not) or a [KeyboardInterrupt], and it
    arises in a library call; the logger never raises; [json.dumps] belongs
    to the environment; building the GNews client and setting the session
    headers leave no trace. *)

From Stdlib Require Import ZArith.
From stdpp Require Import base gmap strings list pretty.

Open Scope Z_scope.

(** ** Python values and exceptions *)

(** The exceptions the services tell apart: [except Exception] catches the
    first kind and lets [KeyboardInterrupt] through; the scraper has a clause
    of its own for [requests.RequestException]. *)
Inductive exn_class := RequestException | OtherException.

Inductive exn :=
| PyException (cls : exn_class) (msg : string)
| KeyboardInterrupt.

(** What a library call answers. *)
Inductive reply (A : Type) :=
| Returns (a : A)
| Raises (e : exn).
Arguments Returns {A} a.
Arguments Raises {A} e.

(** Values stored in the dictionaries that get published.  A number is kept
    as its [repr] (the mock indicators are source literals). *)
Inductive pyval :=
| PyStr (s : string)
| PyNum (repr : string)
| PyNone.

Definition pydict := list (string * pyval).

Fixpoint dict_get (key : string) (default : pyval) (d : pydict) : pyval :=
  match d with
  | [] => default
  | (k, v) :: rest => if String.eqb k key then v else dict_get key default rest
  end.

Definition py_str (v : pyval) : string :=
  match v with
  | PyStr s => s
  | PyNum r => r
  | PyNone => "None"
  end.

Definition lower_ascii (c : Ascii.ascii) : Ascii.ascii :=
  let n := Ascii.nat_of_ascii c in
  if (Nat.leb 65 n && Nat.leb n 90)%bool then Ascii.ascii_of_nat (n + 32) else c.

(** [str.lower] on the ASCII letters. *)
Fixpoint py_lower (s : string) : string :=
  match s with
  | EmptyString => EmptyString
  | String c rest => String (lower_ascii c) (py_lower rest)
  end.

(** [l[-k:]] for [k > 0]. *)
Definition slice_last {A} (k : Z) (l : list A) : list A :=
  drop (length l - Z.to_nat k)%nat l.

(** A raw article as the GNews client returns it: a dictionary whose keys may
    be missing.  [a_publisher] is the nested dictionary, [Some None] when it
    has no title. *)
Record Article := {
  a_title : option string;
  a_description : option string;
  a_url : option string;
  a_publisher : option (option string);
  a_published_date : option string
}.

(** ** The log of library calls *)

Inductive broker_call :=
| BlockingConnection (host user pass : string) (heartbeat blocked_connection_timeout : Z)
| ConnChannel (conn : nat)
| ExchangeDeclare (ch : nat) (exchange exchange_type : string) (durable : bool)
| QueueDeclare (ch : nat) (queue : string) (durable : bool)
| QueueBind (ch : nat) (exchange queue : string)
| BasicPublish (ch : nat) (exchange routing_key body : string)
    (delivery_mode : Z) (content_type : string)
| ConnClose (conn : nat).

Inductive level := INFO | WARNING | ERROR.

Inductive event :=
| EvBroker (c : broker_call) (r : reply unit)
| EvIsClosed (conn : nat) (b : bool)
| EvGetNews (topic : string) (r : reply (list Article))
| EvSessionNew
| EvHttpGet (url : string) (timeout : Z) (r : reply unit)
| EvSessionClose
| EvSleep (secs : Z) (r : reply unit)
| EvUtcNow (iso : string)
| EvJsonDumps (d : pydict) (r : reply string)
| EvListOfSet (s : gset string) (l : list string)
| EvLog (lvl : level) (msg : string).

(** ** The environment *)

(** Module-level configuration read from the process environment. *)
Record Config := {
  RABBITMQ_HOST : string;
  RABBITMQ_USER : string;
  RABBITMQ_PASS : string;
  CHECK_INTERVAL : Z
}.

(** Every answer may depend on the history of calls.  [env_http] stands for
    [session.get], [raise_for_status] and the HTML parse together: the first
    exception among them, if any.  [env_sleep] tells whether the sleep is cut
    short by an interrupt from outside, the one way [time.sleep] of a
    non-negative length ends other than by returning.  [env_list_of_set]
    is the iteration order of a Python set, which the language leaves open. *)
Record Env := {
  env_config : Config;
  env_pika : list event → broker_call → reply unit;
  env_is_closed : list event → nat → bool;
  env_get_news : list event → string → reply (list Article);
  env_http : list event → string → reply unit;
  env_sleep : list event → Z → bool;
  env_utcnow : list event → string;
  env_json_dumps : pydict → reply string;
  env_list_of_set : list event → gset string → list string;
  env_list_of_set_perm : ∀ h s, env_list_of_set h s ≡ₚ elements s
}.

(** ** Program state *)

(** [connection], [channel] and [session] are the attributes of the service
    object ([session] only of the scraper); a handle is the position in the
    log of the call that made it.  [processed_urls] is the local of
    [GNewsService.run]. *)
Record State := {
  connection : option nat;
  channel : option nat;
  session : option nat;
  processed_urls : gset string;
  trace : list event
}.

Definition initial : State :=
  {| connection := None; channel := None; session := None;
     processed_urls := ∅; trace := [] |}.

Definition set_connection (c : option nat) (s : State) : State :=
  {| connection := c; channel := channel s; session := session s;
     processed_urls := processed_urls s; trace := trace s |}.
Definition set_channel (c : option nat) (s : State) : State :=
  {| connection := connection s; channel := c; session := session s;
     processed_urls := processed_urls s; trace := trace s |}.
Definition set_session (c : option nat) (s : State) : State :=
  {| connection := connection s; channel := channel s; session := c;
     processed_urls := processed_urls s; trace := trace s |}.
Definition set_processed_urls (u : gset string) (s : State) : State :=
  {| connection := connection s; channel := channel s; session := session s;
     processed_urls := u; trace := trace s |}.
Definition emit (e : event) (s : State) : State :=
  {| connection := connection s; channel := channel s; session := session s;
     processed_urls := processed_urls s; trace := trace s ++ [e] |}.

(** ** The monad *)

Inductive outcome (A : Type) :=
| Ok (a : A)
| Raise (e : exn)
| OutOfFuel.
Arguments Ok {A} a.
Arguments Raise {A} e.
Arguments OutOfFuel {A}.

Definition M (A : Type) : Type := State → outcome A * State.

Definition ret {A} (a : A) : M A := λ s, (Ok a, s).

Definition bind {A B} (m : M A) (k : A → M B) : M B :=
  λ s, match m s with
       | (Ok a, s') => k a s'
       | (Raise e, s') => (Raise e, s')
       | (OutOfFuel, s') => (OutOfFuel, s')
       end.

Declare Scope py_scope.
Delimit Scope py_scope with py.
Notation "'let!' x ':=' m 'in' k" := (bind m (λ x, k))
  (at level 10, x name, m at level 100, k at level 200) : py_scope.
Notation "m '>>' k" := (bind m (λ _, k))
  (at level 100, k at level 200, right associativity) : py_scope.
Open Scope py_scope.

Definition raise {A} (e : exn) : M A := λ s, (Raise e, s).
Definition get : M State := λ s, (Ok s, s).
Definition modify (f : State → State) : M unit := λ s, (Ok tt, f s).

(** [try: m  except ...: h]; the handler list is a partial function. *)
Definition try_except {A} (m : M A) (h : exn → option (M A)) : M A :=
  λ s, match m s with
       | (Raise e, s') => match h e with
                          | Some k => k s'
                          | None => (Raise e, s')
                          end
       | r => r
       end.

(** [except Exception as e: k e (str e)]. *)
Definition except_Exception {A} (k : exn → string → M A) : exn → option (M A) :=
  λ e, match e with
       | PyException _ msg => Some (k e msg)
       | KeyboardInterrupt => None
       end.

(** [try: m  finally: f]: [f] runs however [m] ends, and what [f] raises
    replaces what [m] raised. *)
Definition try_finally {A} (m : M A) (f : M unit) : M A :=
  λ s, match m s with
       | (OutOfFuel, s') => (OutOfFuel, s')
       | (r, s') => match f s' with
                    | (Ok _, s'') => (r, s'')
                    | (Raise e, s'') => (Raise e, s'')
                    | (OutOfFuel, s'') => (OutOfFuel, s'')
                    end
       end.

(** A [for] loop whose body may [return]: [Some r] leaves the loop. *)
Fixpoint for_in {A R} (l : list A) (body : A → M (option R)) : M (option R) :=
  match l with
  | [] => ret None
  | x :: rest => let! r := body x in
                 match r with
                 | Some v => ret (Some v)
                 | None => for_in rest body
                 end
  end.

(** A plain [for] loop. *)
Fixpoint for_each {A} (l : list A) (body : A → M unit) : M unit :=
  match l with
  | [] => ret tt
  | x :: rest => body x >> for_each rest body
  end.

Inductive loop_ctl := Continue | Break.

(** [while True: body], one unit of fuel per iteration. *)
Fixpoint while_true (fuel : nat) (body : M loop_ctl) : M unit :=
  match fuel with
  | O => λ s, (OutOfFuel, s)
  | S n => let! c := body in
           match c with
           | Continue => while_true n body
           | Break => ret tt
           end
  end.

(** [range(n)]. *)
Definition range (n : Z) : list Z := Z.of_nat <$> seq 0 (Z.to_nat n).

(** ** Library calls *)

Section Calls.
Context (env : Env).

Definition of_reply {A} (r : reply A) : outcome A :=
  match r with
  | Returns a => Ok a
  | Raises e => Raise e
  end.

Definition log (lvl : level) (msg : string) : M unit :=
  modify (emit (EvLog lvl msg)).

(** The handle the next call will make. *)
Definition fresh : M nat := λ s, (Ok (length (trace s)), s).

Definition pika_call (c : broker_call) : M unit :=
  λ s, let r := env_pika env (trace s) c in
       (of_reply r, emit (EvBroker c r) s).

Definition is_closed (conn : nat) : M bool :=
  λ s, let b := env_is_closed env (trace s) conn in
       (Ok b, emit (EvIsClosed conn b) s).

Definition get_news (topic : string) : M (list Article) :=
  λ s, let r := env_get_news env (trace s) topic in
       (of_reply r, emit (EvGetNews topic r) s).

Definition http_get (url : string) (timeout : Z) : M unit :=
  λ s, let r := env_http env (trace s) url in
       (of_reply r, emit (EvHttpGet url timeout r) s).

(** [time.sleep]: a negative length is a [ValueError]. *)
Definition sleep (secs : Z) : M unit :=
  λ s, let r := if secs <? 0
                then Raises (PyException OtherException "sleep length must be non-negative")
                else if env_sleep env (trace s) secs
                     then Raises KeyboardInterrupt else Returns tt in
       (of_reply r, emit (EvSleep secs r) s).

Definition utcnow_isoformat : M string :=
  λ s, let t := env_utcnow env (trace s) in
       (Ok t, emit (EvUtcNow t) s).

Definition json_dumps (d : pydict) : M string :=
  λ s, let r := env_json_dumps env d in
       (of_reply r, emit (EvJsonDumps d r) s).

Definition list_of_set (u : gset string) : M (list string) :=
  λ s, let l := env_list_of_set env (trace s) u in
       (Ok l, emit (EvListOfSet u l) s).

(** *** What the two services share

    [connect_rabbitmq] and the publish method are the same text in both
    files up to the exchange, the queue and one log line. *)

Definition max_retries : Z := 5.
Definition retry_delay : Z := 5.

(** [pika.BlockingConnection(parameters)]. *)
Definition parameters : broker_call :=
  let cfg := env_config env in
  BlockingConnection (RABBITMQ_HOST cfg) (RABBITMQ_USER cfg) (RABBITMQ_PASS cfg) 600 300.

(** The [try] block of one connection attempt. *)
Definition connect_attempt (exchange queue : string) : M unit :=
  let! conn := fresh in
  pika_call parameters >>
  modify (set_connection (Some conn)) >>
  let! ch := fresh in
  pika_call (ConnChannel conn) >>
  modify (set_channel (Some ch)) >>
  pika_call (ExchangeDeclare ch exchange "fanout" true) >>
  pika_call (QueueDeclare ch queue true) >>
  pika_call (QueueBind ch exchange queue) >>
  log INFO "Successfully connected to RabbitMQ".

Definition connect_failed (attempt : Z) (e : exn) (msg : string) : M (option unit) :=
  log ERROR ("Failed to connect to RabbitMQ (attempt " +:+ pretty (attempt + 1)
             +:+ "/" +:+ pretty max_retries +:+ "): " +:+ msg) >>
  if attempt <? max_retries - 1
  then sleep retry_delay >> ret None
  else raise e.

Definition connect_rabbitmq_on (exchange queue : string) : M unit :=
  for_in (range max_retries)
    (λ attempt,
       try_except (connect_attempt exchange queue >> ret (Some tt))
         (except_Exception (connect_failed attempt))) >>
  ret tt.

(** The publish method; [self.channel] is [None] until a connection attempt
    has got its channel, and a method call on [None] is an [AttributeError]. *)
Definition publish_on (exchange queue : string) (published : pydict → string)
    (failed : string) (d : pydict) : M unit :=
  try_except
    (let! message := json_dumps d in
     let! s := get in
     match channel s with
     | Some ch => pika_call (BasicPublish ch exchange "" message 2 "application/json")
     | None => raise (PyException OtherException
                        "'NoneType' object has no attribute 'basic_publish'")
     end >>
     log INFO (published d))
    (except_Exception
       (λ _ msg, log ERROR (failed +:+ msg) >>
                 connect_rabbitmq_on exchange queue)).
End Calls.

(** ** gnews-service/src/main.py *)

Module GNewsService.

Definition MARKET_TOPICS : list string :=
  [ "stock market"; "nasdaq"; "dow jones"; "S&P 500"; "cryptocurrency";
    "bitcoin"; "ethereum"; "federal reserve"; "interest rates"; "inflation";
    "market crash"; "market rally" ].

(** The dictionary [process_article] returns, given the two clock readings. *)
Definition news_data_of (article : Article) (topic now1 now2 : string) : pydict :=
  [ ("title", PyStr (default "" (a_title article)));
    ("description", PyStr (default "" (a_description article)));
    ("url", PyStr (default "" (a_url article)));
    ("source", PyStr (default "Unknown" (default None (a_publisher article))));
    ("published_at", PyStr (default now1 (a_published_date article)));
    ("topic", PyStr topic);
    ("fetched_at", PyStr now2) ].

Section Service.
Context (env : Env).

Definition connect_rabbitmq : M unit :=
  connect_rabbitmq_on env "market_news" "news_queue".

Definition __init__ : M unit :=
  modify (set_connection None) >>
  modify (set_channel None) >>
  connect_rabbitmq.

Definition fetch_news (topic : string) : M (list Article) :=
  try_except
    (log INFO ("Fetching news for topic: " +:+ topic) >>
     get_news env topic)
    (except_Exception
       (λ _ msg, log ERROR ("Error fetching news for " +:+ topic +:+ ": " +:+ msg) >>
                 ret [])).

Definition publish_news (news_data : pydict) : M unit :=
  publish_on env "market_news" "news_queue"
    (λ d, "Published news: " +:+ py_str (dict_get "title" (PyStr "N/A") d))
    "Error publishing news: " news_data.

(** The dictionary literal is evaluated in source order, so the clock is
    read once for the default of ['published date'] (whether or not the
    key is there) and once for ['fetched_at']. *)
Definition process_article (article : Article) (topic : string) : M pydict :=
  let! t1 := utcnow_isoformat env in
  let! t2 := utcnow_isoformat env in
  ret (news_data_of article topic t1 t2).

(** [processed_urls = set(list(processed_urls)[-5000:])]. *)
Definition prune : M unit :=
  let! s := get in
  let! l := list_of_set env (processed_urls s) in
  modify (set_processed_urls (list_to_set (slice_last 5000 l))).

(** [processed_urls.add(url)] and the size check that follows it. *)
Definition mark (url : string) : M unit :=
  modify (λ s, set_processed_urls ({[url]} ∪ processed_urls s) s) >>
  let! s := get in
  if Z.of_nat (size (processed_urls s)) >? 10000 then prune else ret tt.

(** The body of [for article in articles]. *)
Definition handle_article (topic : string) (article : Article) : M unit :=
  let url := default "" (a_url article) in
  let! s := get in
  if bool_decide (url ≠ "") && bool_decide (url ∉ processed_urls s) then
    let! news_data := process_article article topic in
    publish_news news_data >>
    mark url
  else ret tt.

(** The body of [for topic in MARKET_TOPICS]. *)
Definition handle_topic (topic : string) : M unit :=
  let! articles := fetch_news topic in
  for_each articles (handle_article topic) >>
  sleep env 2.

(** The [try] block of the main loop: one cycle. *)
Definition cycle : M unit :=
  for_each MARKET_TOPICS handle_topic >>
  log INFO ("Completed news check cycle. Sleeping for "
            +:+ pretty (CHECK_INTERVAL (env_config env)) +:+ " seconds...") >>
  sleep env (CHECK_INTERVAL (env_config env)).

(** One iteration of [while True], with its two [except] clauses. *)
Definition iteration : M loop_ctl :=
  try_except (cycle >> ret Continue)
    (λ e, match e with
          | KeyboardInterrupt =>
              Some (log INFO "Shutting down GNews Service..." >> ret Break)
          | PyException _ msg =>
              Some (log ERROR ("Error in main loop: " +:+ msg) >>
                    sleep env 30 >> ret Continue)
          end).

Definition run (fuel : nat) : M unit :=
  log INFO "GNews Service started" >>
  log INFO ("Monitoring topics: " +:+ String.concat ", " MARKET_TOPICS) >>
  log INFO ("Check interval: " +:+ pretty (CHECK_INTERVAL (env_config env))
            +:+ " seconds") >>
  modify (set_processed_urls ∅) >>
  while_true fuel iteration.

Definition close : M unit :=
  let! s := get in
  match connection s with
  | Some conn =>
      let! closed := is_closed env conn in
      if negb closed
      then pika_call env (ConnClose conn) >> log INFO "RabbitMQ connection closed"
      else ret tt
  | None => ret tt
  end.

(** The [__main__] block. *)
Definition main (fuel : nat) : M unit :=
  __init__ >>
  try_finally (run fuel) close.
End Service.
End GNewsService.

(** ** scraping-worker/src/main.py *)

Module StatusInvestScraper.

Definition BRAZILIAN_STOCKS : list string :=
  [ "PETR4"; "VALE3"; "ITUB4"; "BBDC4"; "ABEV3";
    "B3SA3"; "WEGE3"; "RENT3"; "MGLU3"; "SUZB3" ].

Definition BASE_URL : string := "https://statusinvest.com.br/acoes".

Definition mock_data : pydict :=
  [ ("dividend-yield", PyNum "5.5"); ("p-vp", PyNum "2.3"); ("p-l", PyNum "15.2");
    ("roe", PyNum "18.5"); ("liquidity", PyNum "1000000") ].

Section Service.
Context (env : Env).

Definition connect_rabbitmq : M unit :=
  connect_rabbitmq_on env "fundamental_data" "fundamentals_queue".

Definition __init__ : M unit :=
  let! h := fresh in
  modify (emit EvSessionNew) >>
  modify (set_session (Some h)) >>
  modify (set_connection None) >>
  modify (set_channel None) >>
  connect_rabbitmq.

Definition _extract_indicator (indicator_name : string) : M pyval :=
  try_except
    (log WARNING ("Using mock data for " +:+ indicator_name
                  +:+ " - implement actual HTML parsing for production") >>
     ret (dict_get indicator_name (PyNum "0.0") mock_data))
    (except_Exception
       (λ _ msg, log ERROR ("Error extracting " +:+ indicator_name +:+ ": " +:+ msg) >>
                 ret PyNone)).

Definition scrape_stock (symbol : string) : M (option pydict) :=
  try_except
    (let url := BASE_URL +:+ "/" +:+ py_lower symbol in
     log INFO ("Scraping data for " +:+ symbol +:+ " from " +:+ url) >>
     http_get env url 10 >>
     let! dividend_yield := _extract_indicator "dividend-yield" in
     let! p_vp := _extract_indicator "p-vp" in
     let! p_l := _extract_indicator "p-l" in
     let! roe := _extract_indicator "roe" in
     let! liquidity := _extract_indicator "liquidity" in
     let! now := utcnow_isoformat env in
     let data := [ ("symbol", PyStr symbol);
                   ("dividend_yield", dividend_yield);
                   ("p_vp", p_vp);
                   ("p_l", p_l);
                   ("roe", roe);
                   ("liquidity", liquidity);
                   ("scraped_at", PyStr now) ] in
     log INFO ("Successfully scraped data for " +:+ symbol) >>
     ret (Some data))
    (λ e, match e with
          | PyException RequestException msg =>
              Some (log ERROR ("Error scraping " +:+ symbol +:+ ": " +:+ msg) >>
                    ret None)
          | PyException OtherException msg =>
              Some (log ERROR ("Unexpected error scraping " +:+ symbol +:+ ": " +:+ msg) >>
                    ret None)
          | KeyboardInterrupt => None
          end).

Definition publish_data (data : pydict) : M unit :=
  publish_on env "fundamental_data" "fundamentals_queue"
    (λ d, "Published fundamental data for " +:+ py_str (dict_get "symbol" (PyStr "N/A") d))
    "Error publishing data: " data.

(** The body of [for symbol in BRAZILIAN_STOCKS]; [if data:] holds for a
    dictionary that is not empty. *)
Definition handle_symbol (symbol : string) : M unit :=
  let! data := scrape_stock symbol in
  match data with
  | Some (item :: items) => publish_data (item :: items)
  | _ => ret tt
  end >>
  sleep env 3.

Definition cycle : M unit :=
  for_each BRAZILIAN_STOCKS handle_symbol >>
  log INFO ("Completed scraping cycle. Sleeping for "
            +:+ pretty (CHECK_INTERVAL (env_config env)) +:+ " seconds...") >>
  sleep env (CHECK_INTERVAL (env_config env)).

Definition iteration : M loop_ctl :=
  try_except (cycle >> ret Continue)
    (λ e, match e with
          | KeyboardInterrupt =>
              Some (log INFO "Shutting down Scraping Worker..." >> ret Break)
          | PyException _ msg =>
              Some (log ERROR ("Error in main loop: " +:+ msg) >>
                    sleep env 30 >> ret Continue)
          end).

Definition run (fuel : nat) : M unit :=
  log INFO "Scraping Worker started" >>
  log INFO ("Monitoring " +:+ pretty (Z.of_nat (length BRAZILIAN_STOCKS))
            +:+ " Brazilian stocks") >>
  log INFO ("Check interval: " +:+ pretty (CHECK_INTERVAL (env_config env))
            +:+ " seconds") >>
  while_true fuel iteration.

Definition close : M unit :=
  let! s := get in
  match connection s with
  | Some conn =>
      let! closed := is_closed env conn in
      if negb closed
      then pika_call env (ConnClose conn) >> log INFO "RabbitMQ connection closed"
      else ret tt
  | None => ret tt
  end >>
  modify (emit EvSessionClose) >>
  log INFO "HTTP session closed".

Definition main (fuel : nat) : M unit :=
  __init__ >>
  try_finally (run fuel) close.
End Service.
End StatusInvestScraper.

(** The exit status of the process once [main] has ended: an uncaught
    exception prints a traceback and exits non-zero. *)
Definition exit_status {A} (o : outcome A) : option Z :=
  match o with
  | Ok _ => Some 0
  | Raise (PyException _ _) => Some 1
  | Raise KeyboardInterrupt => Some 130
  | OutOfFuel => None
  end.


(** ** Reading the log *)

(** What a run added to the log. *)
Definition events_since (s s' : State) : list event :=
  drop (length (trace s)) (trace s').

(** A library call that ended in [KeyboardInterrupt]. *)
Definition is_interrupt (ev : event) : bool :=
  match ev with
  | EvBroker _ (Raises KeyboardInterrupt)
  | EvGetNews _ (Raises KeyboardInterrupt)
  | EvHttpGet _ _ (Raises KeyboardInterrupt)
  | EvSleep _ (Raises KeyboardInterrupt)
  | EvJsonDumps _ (Raises KeyboardInterrupt) => true
  | _ => false
  end.

(** [traced P m]: whatever the state, [m] only appends to the log, every
    event it appends satisfies [P], and when it ends in [KeyboardInterrupt]
    one of the calls it made was interrupted. *)
Definition traced {A} (P : event → Prop) (m : M A) : Prop :=
  ∀ s, ∃ evs, trace (m s).2 = trace s ++ evs ∧ Forall P evs ∧
              ((m s).1 = Raise KeyboardInterrupt → existsb is_interrupt evs = true).

Definition is_connection_attempt (ev : event) : bool :=
  match ev with
  | EvBroker (BlockingConnection _ _ _ _ _) _ => true
  | _ => false
  end.

Definition is_basic_publish (ev : event) : bool :=
  match ev with
  | EvBroker (BasicPublish _ _ _ _ _ _) _ => true
  | _ => false
  end.

(** The lengths of the sleeps, in order. *)
Definition sleeps (evs : list event) : list Z :=
  omap (λ ev, match ev with EvSleep secs _ => Some secs | _ => None end) evs.

(** The number of events that satisfy [f]. *)
Definition count (f : event → bool) (evs : list event) : nat :=
  length (filter (λ ev, f ev = true) evs).

(** [publishes env exchange Q ev]: if [ev] is a [basic_publish], it goes to
    [exchange] with the empty routing key, as persistent JSON, and its body
    is what [json.dumps] returns for a dictionary that satisfies [Q]. *)
Definition publishes (env : Env) (exchange : string) (Q : pydict → Prop)
    (ev : event) : Prop :=
  match ev with
  | EvBroker (BasicPublish _ ex routing_key body delivery_mode content_type) _ =>
      ex = exchange ∧ routing_key = "" ∧ delivery_mode = 2 ∧
      content_type = "application/json" ∧
      ∃ d, Q d ∧ env_json_dumps env d = Returns body
  | _ => True
  end.

(** The broker refuses every connection with an [Exception]. *)
Definition broker_unreachable (env : Env) : Prop :=
  ∀ h host user pass heartbeat timeout, ∃ cls msg,
    env_pika env h (BlockingConnection host user pass heartbeat timeout)
    = Raises (PyException cls msg).

(** No sleep is cut short. *)
Definition sleeps_undisturbed (env : Env) : Prop :=
  ∀ h secs, env_sleep env h secs = false.

(** An event of a connection attempt that failed at once: the attempt, the
    error line, the pause before the next attempt. *)
Definition is_refused_attempt (ev : event) : bool :=
  match ev with
  | EvBroker (BlockingConnection _ _ _ _ _) (Raises (PyException _ _)) => true
  | EvLog ERROR _ => true
  | EvSleep 5 (Returns _) => true
  | _ => false
  end.

(** What a connection attempt that succeeds adds to the log. *)
Definition topology_events (env : Env) (conn ch : nat) (exchange queue : string)
    : list event :=
  [ EvBroker (parameters env) (Returns tt);
    EvBroker (ConnChannel conn) (Returns tt);
    EvBroker (ExchangeDeclare ch exchange "fanout" true) (Returns tt);
    EvBroker (QueueDeclare ch queue true) (Returns tt);
    EvBroker (QueueBind ch exchange queue) (Returns tt);
    EvLog INFO "Successfully connected to RabbitMQ" ].

(** The loop body both services share: a cycle, and the two [except]
    clauses around it. *)
Definition guarded (env : Env) (cyc : M unit) (bye : string) : M loop_ctl :=
  try_except (cyc >> ret Continue)
    (λ e, match e with
          | KeyboardInterrupt => Some (log INFO bye >> ret Break)
          | PyException _ msg =>
              Some (log ERROR ("Error in main loop: " +:+ msg) >>
                    sleep env 30 >> ret Continue)
          end).


(** The state right after the broker call of the publish method, when the
    service has its channel and the dictionary serializes. *)
Definition after_write (env : Env) (exchange : string) (d : pydict) (s : State)
    : State :=
  match channel s, env_json_dumps env d with
  | Some ch, Returns body =>
      let s1 := emit (EvJsonDumps d (Returns body)) s in
      let call := BasicPublish ch exchange "" body 2 "application/json" in
      emit (EvBroker call (env_pika env (trace s1) call)) s1
  | _, _ => s
  end.

(** The broker write of [d] from state [s] fails with [e]. *)
Definition write_fails (env : Env) (exchange : string) (d : pydict) (s : State)
    (e : exn) : Prop :=
  ∃ ch body,
    channel s = Some ch ∧ env_json_dumps env d = Returns body ∧
    env_pika env (trace s ++ [EvJsonDumps d (Returns body)])
      (BasicPublish ch exchange "" body 2 "application/json") = Raises e.

(** The records a scrape yields: none or one. *)
Definition records_of (data : option pydict) : list pydict :=
  match data with
  | Some d => [d]
  | None => []
  end.

(** [kept I m]: [m] keeps the property [I] of the state, however it ends. *)
Definition kept {A} (I : State → Prop) (m : M A) : Prop :=
  ∀ s, I s → I (m s).2.

Definition within_ceiling (s : State) : Prop :=
  Z.of_nat (size (processed_urls s)) ≤ 10000.

Definition has_connection (s : State) : Prop := is_Some (connection s).

(** The connection [conn] was found closed, or [close] was called on it. *)
Definition releases_connection (conn : nat) (evs : list event) : Prop :=
  EvIsClosed conn true ∈ evs ∨ ∃ r, EvBroker (ConnClose conn) r ∈ evs.

Definition is_failed_close (ev : event) : bool :=
  match ev with
  | EvBroker (ConnClose _) (Raises _) => true
  | _ => false
  end.

(** No [connection.close()] raised. *)
Definition close_went_through (evs : list event) : Prop :=
  existsb is_failed_close evs = false.

Definition exits_nonzero {A} (o : outcome A) : Prop :=
  ∃ code, exit_status o = Some code ∧ code ≠ 0.

Definition is_session_new (ev : event) : bool :=
  match ev with EvSessionNew => true | _ => false end.

Definition is_session_close (ev : event) : bool :=
  match ev with EvSessionClose => true | _ => false end.

(** A [BlockingConnection] that returned a connection. *)
Definition is_connection_opened (ev : event) : bool :=
  match ev with
  | EvBroker (BlockingConnection _ _ _ _ _) (Returns _) => true
  | _ => false
  end.

Definition is_connection_close (ev : event) : bool :=
  match ev with
  | EvBroker (ConnClose _) _ => true
  | _ => false
  end.

(** The events a connection attempt can add: a pika call other than a
    publish or a close, a log line, a sleep. *)
Definition is_connect_event (ev : event) : bool :=
  match ev with
  | EvBroker (BasicPublish _ _ _ _ _ _) _ | EvBroker (ConnClose _) _ => false
  | EvBroker _ _ | EvLog _ _ | EvSleep _ _ => true
  | _ => false
  end.

Definition is_json_dumps (ev : event) : bool :=
  match ev with EvJsonDumps _ _ => true | _ => false end.

(** A prune: the one place where the cache is listed. *)
Definition is_prune (ev : event) : bool :=
  match ev with EvListOfSet _ _ => true | _ => false end.

Definition is_get_news (ev : event) : bool :=
  match ev with EvGetNews _ _ => true | _ => false end.

Definition is_failed_publish (ev : event) : bool :=
  match ev with
  | EvBroker (BasicPublish _ _ _ _ _ _) (Raises _) => true
  | _ => false
  end.

(** A [basic_publish] that the broker took. *)
Definition is_delivered (ev : event) : bool :=
  match ev with
  | EvBroker (BasicPublish _ _ _ _ _ _) (Returns _) => true
  | _ => false
  end.

(** An event that is neither a publish, nor a serialization, nor a prune,
    nor a fetch. *)
Definition quiet (ev : event) : bool :=
  negb (is_basic_publish ev || is_json_dumps ev || is_prune ev || is_get_news ev).

(** The publish method was entered for a record with this URL: [json.dumps]
    is the first thing it does, and nothing else calls it. *)
Definition is_publish_call_for (url : string) (ev : event) : bool :=
  match ev with
  | EvJsonDumps d _ =>
      match dict_get "url" PyNone d with
      | PyStr v => bool_decide (v = url)
      | _ => false
      end
  | _ => false
  end.

Definition is_publish_call_for_symbol (symbol : string) (ev : event) : bool :=
  match ev with
  | EvJsonDumps d _ =>
      match dict_get "symbol" PyNone d with
      | PyStr v => bool_decide (v = symbol)
      | _ => false
      end
  | _ => false
  end.

(** The GNews client returned a list with an article of this URL. *)
Definition fetched (url : string) (ev : event) : bool :=
  match ev with
  | EvGetNews _ (Returns articles) =>
      existsb (λ a, bool_decide (default "" (a_url a) = url)) articles
  | _ => false
  end.

(** [once_per_url u m]: how a piece of the news cycle treats the URL [u]
    as long as it does not prune.  The cache only grows; a URL that is in the
    cache is not published; when the piece ends normally, a URL that was not
    in the cache has been published once if it is in the cache now and not at
    all otherwise; and a URL that was fetched is in the cache now. *)
Definition once_per_url (env : Env) (u : string) (m : M unit) : Prop :=
  ∀ s r s', m s = (r, s') →
  ∃ evs, trace s' = trace s ++ evs ∧
    (existsb is_prune evs = false →
     processed_urls s ⊆ processed_urls s' ∧
     (u ∈ processed_urls s → count (is_publish_call_for u) evs = 0%nat) ∧
     (r = Ok tt → u ∉ processed_urls s →
      count (is_publish_call_for u) evs
      = (if bool_decide (u ∈ processed_urls s') then 1 else 0)%nat) ∧
     (r = Ok tt → u ≠ "" → existsb (fetched u) evs = true →
      u ∈ processed_urls s')).

(** The service object holds a connection and a channel. *)
Definition holds_handles (s : State) : Prop :=
  is_Some (connection s) ∧ is_Some (channel s).

(** The topics the GNews client was asked for, in order. *)
Definition queried_topics (evs : list event) : list string :=
  omap (λ ev, match ev with EvGetNews topic _ => Some topic | _ => None end) evs.

(** The URLs requested over HTTP, in order. *)
Definition requested_urls (evs : list event) : list string :=
  omap (λ ev, match ev with EvHttpGet url _ _ => Some url | _ => None end) evs.

(** The dictionaries handed to [json.dumps], in order. *)
Definition dumped (evs : list event) : list pydict :=
  omap (λ ev, match ev with EvJsonDumps d _ => Some d | _ => None end) evs.

Definition stock_url (symbol : string) : string :=
  StatusInvestScraper.BASE_URL +:+ "/" +:+ py_lower symbol.

(** The record [scrape_stock] builds for a symbol: the symbol, the five
    values [_extract_indicator] answers with, and the time of the scrape. *)
Definition placeholder_record (symbol now : string) : pydict :=
  [ ("symbol", PyStr symbol);
    ("dividend_yield", PyNum "5.5");
    ("p_vp", PyNum "2.3");
    ("p_l", PyNum "15.2");
    ("roe", PyNum "18.5");
    ("liquidity", PyNum "1000000");
    ("scraped_at", PyStr now) ].

Definition is_fundamentals_record (d : pydict) : Prop :=
  ∃ symbol now,
    symbol ∈ StatusInvestScraper.BRAZILIAN_STOCKS ∧ d = placeholder_record symbol now.

(** A news record: seven string fields, a URL that is not empty and one of
    the monitored topics. *)
Definition is_news_record (d : pydict) : Prop :=
  ∃ title description url source published_at topic fetched_at,
    url ≠ "" ∧ topic ∈ GNewsService.MARKET_TOPICS ∧
    d = [ ("title", PyStr title); ("description", PyStr description);
          ("url", PyStr url); ("source", PyStr source);
          ("published_at", PyStr published_at); ("topic", PyStr topic);
          ("fetched_at", PyStr fetched_at) ].

(** Every URL in the cache is a real one and the publish method was entered
    for it since position [n] of the log. *)
Definition cache_accounted (n : nat) (s : State) : Prop :=
  (n ≤ length (trace s))%nat ∧
  ∀ u, u ∈ processed_urls s →
       u ≠ "" ∧ (1 ≤ count (is_publish_call_for u) (drop n (trace s)))%nat.

(** A connection or the HTTP session is closed. *)
Definition is_release (ev : event) : bool :=
  is_connection_close ev || is_session_close ev.

Definition is_http_get (ev : event) : bool :=
  match ev with EvHttpGet _ _ _ => true | _ => false end.

(** Reading a log for the pauses between requests.  [ready] says that a
    sleep of at least [gap] seconds has returned since the last request (or
    that there has been no request yet).  A request that comes when [ready]
    is false breaks the pace: the reading ends in [None]. *)
Fixpoint pace (is_req : event → bool) (gap : Z) (ready : bool) (evs : list event)
    : option bool :=
  match evs with
  | [] => Some ready
  | ev :: rest =>
      if is_req ev then
        if ready then pace is_req gap false rest else None
      else
        match ev with
        | EvSleep secs (Returns _) => pace is_req gap (ready || (gap <=? secs)) rest
        | _ => pace is_req gap ready rest
        end
  end.

(** [walks is_req gap b g m]: from readiness [b], what [m] adds to the log
    keeps the pace; with [g] set, [m] is ready again when it ends normally. *)
Definition walks {A} (is_req : event → bool) (gap : Z) (b g : bool) (m : M A) : Prop :=
  ∀ s, ∃ evs b',
    trace (m s).2 = trace s ++ evs ∧ pace is_req gap b evs = Some b' ∧
    (g = true → ∀ a, (m s).1 = Ok a → b' = true).

(** [json.dumps] returned a message. *)
Definition is_dump_ok (ev : event) : bool :=
  match ev with EvJsonDumps _ (Returns _) => true | _ => false end.

(** [hands_over m]: run from a state where the service object has its
    handles, [m] leaves them set, and every message [json.dumps] returned in
    it was handed to [basic_publish]. *)
Definition hands_over {A} (m : M A) : Prop :=
  ∀ s, holds_handles s →
    holds_handles (m s).2 ∧
    ∃ evs, trace (m s).2 = trace s ++ evs ∧
           count is_dump_ok evs = count is_basic_publish evs.

(** One connection attempt that failed: the calls it made and the
    [Exception] its last call raised. *)
Record failure := { f_calls : list event; f_cls : exn_class; f_msg : string }.

Definition f_exn (f : failure) : exn := PyException (f_cls f) (f_msg f).

(** The calls of a failed attempt are those of a successful one, up to the
    call that raised: any of [BlockingConnection], [channel],
    [exchange_declare], [queue_declare], [queue_bind]. *)
Definition failed_calls (env : Env) (exchange queue : string) (f : failure) : Prop :=
  ∃ conn ch n c,
    topology_events env conn ch exchange queue !! n = Some (EvBroker c (Returns tt)) ∧
    f_calls f = take n (topology_events env conn ch exchange queue)
                ++ [EvBroker c (Raises (f_exn f))].

(** The error line of attempt [k] (counted from 1) and the pause after it. *)
Definition failure_line (k : Z) (f : failure) : event :=
  EvLog ERROR ("Failed to connect to RabbitMQ (attempt " +:+ pretty k
               +:+ "/" +:+ pretty max_retries +:+ "): " +:+ f_msg f).

Definition pause : event := EvSleep retry_delay (Returns tt).

(** The log of a [connect_rabbitmq] that gives up. *)
Definition gives_up_log (f1 f2 f3 f4 f5 : failure) : list event :=
  f_calls f1 ++ [failure_line 1 f1; pause] ++
  f_calls f2 ++ [failure_line 2 f2; pause] ++
  f_calls f3 ++ [failure_line 3 f3; pause] ++
  f_calls f4 ++ [failure_line 4 f4; pause] ++
  f_calls f5 ++ [failure_line 5 f5].

(** What attempt number [k] (counted from 0) adds to the log when it fails,
    and the log of failed attempts numbered by [l]. *)
Definition attempt_log (k : Z) (f : failure) : list event :=
  f_calls f ++ failure_line (k + 1) f
            :: (if k <? max_retries - 1 then [pause] else []).

Definition retry_log (l : list Z) (fs : list failure) : list event :=
  concat (zip_with attempt_log l fs).

(** The failures [fs] are those of the attempts [l], up to and including
    the first attempt that is not followed by a retry. *)
Fixpoint gave_up (l : list Z) (fs : list failure) : Prop :=
  match l, fs with
  | k :: rest, f :: fs' => if k <? max_retries - 1 then gave_up rest fs' else fs' = []
  | _, _ => False
  end.

(** The body of the [for] loop of [connect_rabbitmq], and the loop over the
    attempt numbers [l]; [connect_rabbitmq] is the loop over [range 5]. *)
Definition attempt (env : Env) (exchange queue : string) (k : Z) : M (option unit) :=
  try_except (connect_attempt env exchange queue >> ret (Some tt))
    (except_Exception (connect_failed env k)).

Definition retry_loop (env : Env) (exchange queue : string) (l : list Z) : M unit :=
  for_in l (attempt env exchange queue) >> ret tt.

(** [published_at_most_once env u m]: however [m] ends, as long as it does
    not prune, a URL that was not in the cache has been published once if it
    is in the cache now, and at most once otherwise. *)
Definition published_at_most_once (env : Env) (u : string) (m : M unit) : Prop :=
  ∀ s r s', m s = (r, s') →
  ∃ evs, trace s' = trace s ++ evs ∧
    (existsb is_prune evs = false → u ∉ processed_urls s →
     (u ∈ processed_urls s' → count (is_publish_call_for u) evs = 1%nat) ∧
     (u ∉ processed_urls s' → (count (is_publish_call_for u) evs ≤ 1)%nat)).
(** ** Concrete environments

    Environments to run the services against.  The configuration is the
    source's defaults; [plain_json] writes a flat dictionary the way
    [json.dumps] does when nothing needs escaping. *)

Definition default_config : Config :=
  {| RABBITMQ_HOST := "rabbitmq"; RABBITMQ_USER := "admin";
     RABBITMQ_PASS := "admin"; CHECK_INTERVAL := 300 |}.

Definition dquote : string := String (Ascii.ascii_of_nat 34) EmptyString.

Definition plain_json_value (v : pyval) : string :=
  match v with
  | PyStr s => dquote +:+ s +:+ dquote
  | PyNum r => r
  | PyNone => "null"
  end.

Definition plain_json (d : pydict) : string :=
  "{" +:+ String.concat ", "
            ((λ kv, dquote +:+ kv.1 +:+ dquote +:+ ": " +:+ plain_json_value kv.2) <$> d)
      +:+ "}".

Definition make_env
    (pika : list event → broker_call → reply unit)
    (news : list event → string → reply (list Article))
    (http : list event → string → reply unit)
    (sleeps : list event → Z → bool) : Env :=
  {| env_config := default_config;
     env_pika := pika;
     env_is_closed := λ _ _, false;
     env_get_news := news;
     env_http := http;
     env_sleep := sleeps;
     env_utcnow := λ _, "2024-01-01T00:00:00";
     env_json_dumps := λ d, Returns (plain_json d);
     env_list_of_set := λ _ s, elements s;
     env_list_of_set_perm := λ _ s, reflexivity (elements s) |}.

Definition ConnectionError : exn := PyException OtherException "Connection refused".

(** The broker is down for good. *)
Definition env_broker_down : Env :=
  make_env (λ _ _, Raises ConnectionError) (λ _ _, Returns [])
           (λ _ _, Returns tt) (λ _ _, false).

(** Everything works and there is no news. *)
Definition env_quiet : Env :=
  make_env (λ _ _, Returns tt) (λ _ _, Returns [])
           (λ _ _, Returns tt) (λ _ _, false).


(** The broker refuses the first [basic_publish] and nothing else. *)
Definition env_first_write_fails : Env :=
  make_env (λ h c, match c with
                   | BasicPublish _ _ _ _ _ _ =>
                       if existsb is_basic_publish h then Returns tt
                       else Raises ConnectionError
                   | _ => Returns tt
                   end)
           (λ _ _, Returns []) (λ _ _, Returns tt) (λ _ _, false).

Definition sample_news : pydict :=
  [ ("title", PyStr "A"); ("description", PyStr ""); ("url", PyStr "https://x/1");
    ("source", PyStr "Unknown"); ("published_at", PyStr "2024-01-01T00:00:00");
    ("topic", PyStr "bitcoin"); ("fetched_at", PyStr "2024-01-01T00:00:00") ].

(** The service object once its constructor has connected. *)
Definition connected (env : Env) : State := (GNewsService.__init__ env initial).2.

(** Every sleep is interrupted. *)
Definition env_interrupted : Env :=
  make_env (λ _ _, Returns tt) (λ _ _, Returns [])
           (λ _ _, Returns tt) (λ _ _, true).

(** A check interval that [time.sleep] rejects. *)
Definition env_negative_interval : Env :=
  {| env_config := {| RABBITMQ_HOST := "rabbitmq"; RABBITMQ_USER := "admin";
                      RABBITMQ_PASS := "admin"; CHECK_INTERVAL := -1 |};
     env_pika := λ _ _, Returns tt;
     env_is_closed := λ _ _, false;
     env_get_news := λ _ _, Returns [];
     env_http := λ _ _, Returns tt;
     env_sleep := λ _ _, false;
     env_utcnow := λ _, "2024-01-01T00:00:00";
     env_json_dumps := λ d, Returns (plain_json d);
     env_list_of_set := λ _ s, elements s;
     env_list_of_set_perm := λ _ s, reflexivity (elements s) |}.

Definition article_x1 : Article :=
  {| a_title := Some "A"; a_description := None; a_url := Some "https://x/1";
     a_publisher := None; a_published_date := None |}.

(** An article with no URL at all, and one whose URL is empty. *)
Definition article_no_url : Article :=
  {| a_title := Some "B"; a_description := None; a_url := None;
     a_publisher := None; a_published_date := None |}.
Definition article_empty_url : Article :=
  {| a_title := Some "C"; a_description := None; a_url := Some "";
     a_publisher := None; a_published_date := None |}.

(** Connections open but no channel can be had on them. *)
Definition env_no_channel : Env :=
  make_env (λ _ c, match c with
                   | ConnChannel _ => Raises ConnectionError
                   | _ => Returns tt
                   end)
           (λ _ _, Returns []) (λ _ _, Returns tt) (λ _ _, false).

(** There is one article, under the topic [bitcoin]. *)
Definition bitcoin_news (topic : string) : reply (list Article) :=
  if String.eqb topic "bitcoin" then Returns [article_x1] else Returns [].

Definition env_bitcoin : Env :=
  make_env (λ _ _, Returns tt) (λ _, bitcoin_news)
           (λ _ _, Returns tt) (λ _ _, false).

(** The broker gives one connection, then refuses every write and every
    new connection. *)
Definition env_broker_lost : Env :=
  make_env (λ h c, match c with
                   | BlockingConnection _ _ _ _ _ =>
                       if existsb is_connection_opened h
                       then Raises ConnectionError else Returns tt
                   | BasicPublish _ _ _ _ _ _ => Raises ConnectionError
                   | _ => Returns tt
                   end)
           (λ _, bitcoin_news) (λ _ _, Returns tt) (λ _ _, false).

(** [json.dumps] rejects every dictionary. *)
Definition env_json_fails : Env :=
  {| env_config := default_config;
     env_pika := λ _ _, Returns tt;
     env_is_closed := λ _ _, false;
     env_get_news := λ _ _, Returns [];
     env_http := λ _ _, Returns tt;
     env_sleep := λ _ _, false;
     env_utcnow := λ _, "2024-01-01T00:00:00";
     env_json_dumps := λ _, Raises (PyException OtherException "not JSON serializable");
     env_list_of_set := λ _ s, elements s;
     env_list_of_set_perm := λ _ s, reflexivity (elements s) |}.

(** The GNews client and the HTTP session fail every time. *)
Definition env_sources_down : Env :=
  make_env (λ _ _, Returns tt)
           (λ _ _, Raises (PyException OtherException "timed out"))
           (λ _ _, Raises (PyException RequestException "timed out"))
           (λ _ _, false).

(** Every sleep is interrupted and [connection.close()] fails. *)
Definition env_close_fails : Env :=
  make_env (λ _ c, match c with
                   | ConnClose _ => Raises ConnectionError
                   | _ => Returns tt
                   end)
           (λ _ _, Returns []) (λ _ _, Returns tt) (λ _ _, true).


(** The broker gives one channel, then refuses every write and every new
    channel; connections it goes on giving. *)
Definition env_channel_lost : Env :=
  make_env (λ h c, match c with
                   | ConnChannel _ =>
                       if existsb (λ ev, match ev with
                                         | EvBroker (ConnChannel _) (Returns _) => true
                                         | _ => false
                                         end) h
                       then Raises ConnectionError else Returns tt
                   | BasicPublish _ _ _ _ _ _ => Raises ConnectionError
                   | _ => Returns tt
                   end)
           (λ _, bitcoin_news) (λ _ _, Returns tt) (λ _ _, false).

(** One article under [bitcoin], and a check interval that [time.sleep]
    rejects: every cycle ends in an exception, after its articles. *)
Definition env_bitcoin_negative : Env :=
  {| env_config := {| RABBITMQ_HOST := "rabbitmq"; RABBITMQ_USER := "admin";
                      RABBITMQ_PASS := "admin"; CHECK_INTERVAL := -1 |};
     env_pika := λ _ _, Returns tt;
     env_is_closed := λ _ _, false;
     env_get_news := λ _, bitcoin_news;
     env_http := λ _ _, Returns tt;
     env_sleep := λ _ _, false;
     env_utcnow := λ _, "2024-01-01T00:00:00";
     env_json_dumps := λ d, Returns (plain_json d);
     env_list_of_set := λ _ s, elements s;
     env_list_of_set_perm := λ _ s, reflexivity (elements s) |}.

(** * Proofs *)

(** ** The log only grows *)

Lemma State_eq (a b : State) :
  connection a = connection b → channel a = channel b → session a = session b →
  processed_urls a = processed_urls b → trace a = trace b → a = b.
Proof. destruct a, b; simpl; by intros -> -> -> -> ->. Qed.

Lemma for_each_cons {A} (x : A) l (body : A → M unit) s :
  for_each (x :: l) body s
  = match body x s with
    | (Ok _, s') => for_each l body s'
    | (Raise e, s') => (Raise e, s')
    | (OutOfFuel, s') => (OutOfFuel, s')
    end.
Proof. reflexivity. Qed.

Lemma events_since_app s s' evs :
  trace s' = trace s ++ evs → events_since s s' = evs.
Proof.
  intros H. unfold events_since. rewrite H. apply drop_app_length.
Qed.

Lemma existsb_app_true {A} (f : A → bool) l1 l2 :
  existsb f l1 = true ∨ existsb f l2 = true → existsb f (l1 ++ l2) = true.
Proof.
  rewrite existsb_app. intros [->| ->]; [done|]. apply orb_true_r.
Qed.

Section Traced.
Context (P : event → Prop).

Lemma traced_ret {A} (a : A) : traced P (ret a).
Proof. intros s. exists []. rewrite app_nil_r. by split_and!. Qed.

Lemma traced_get : traced P get.
Proof. intros s. exists []. rewrite app_nil_r. by split_and!. Qed.

Lemma traced_fresh : traced P fresh.
Proof. intros s. exists []. rewrite app_nil_r. by split_and!. Qed.

Lemma traced_raise {A} cls msg : traced P (raise (A:=A) (PyException cls msg)).
Proof. intros s. exists []. rewrite app_nil_r. by split_and!. Qed.

Lemma traced_modify f : (∀ s, trace (f s) = trace s) → traced P (modify f).
Proof.
  intros Hf s. exists []. rewrite app_nil_r. simpl. by split_and!.
Qed.

Lemma traced_emit ev : P ev → traced P (modify (emit ev)).
Proof.
  intros Hev s. exists [ev]. split_and!; [done| by constructor |done].
Qed.

Lemma traced_bind {A B} (m : M A) (k : A → M B) :
  traced P m → (∀ a, traced P (k a)) → traced P (bind m k).
Proof.
  intros Hm Hk s. unfold bind.
  destruct (Hm s) as (evs1 & Ht1 & HP1 & Hi1).
  destruct (m s) as [[a|e|] s1]; simpl in *.
  - destruct (Hk a s1) as (evs2 & Ht2 & HP2 & Hi2).
    exists (evs1 ++ evs2). rewrite Ht2, Ht1, app_assoc.
    split_and!; [done| apply Forall_app_2; done |].
    intros Hr. apply existsb_app_true. right. by apply Hi2.
  - exists evs1. split_and!; [done..|]; intros [= ->]; by apply Hi1.
  - exists evs1. split_and!; [done..|]; intros [= ->]; by apply Hi1.
Qed.

Lemma traced_bind_post {A B} (Q : A → Prop) (m : M A) (k : A → M B) :
  traced P m → (∀ s a, (m s).1 = Ok a → Q a) → (∀ a, Q a → traced P (k a)) →
  traced P (bind m k).
Proof.
  intros Hm HQ Hk s. unfold bind.
  destruct (Hm s) as (evs1 & Ht1 & HP1 & Hi1). specialize (HQ s).
  destruct (m s) as [[a|e|] s1]; simpl in *.
  - destruct (Hk a (HQ a eq_refl) s1) as (evs2 & Ht2 & HP2 & Hi2).
    exists (evs1 ++ evs2). rewrite Ht2, Ht1, app_assoc.
    split_and!; [done| apply Forall_app_2; done |].
    intros Hr. apply existsb_app_true. right. by apply Hi2.
  - exists evs1. split_and!; [done..|]; intros [= ->]; by apply Hi1.
  - exists evs1. split_and!; [done..|]; intros [= ->]; by apply Hi1.
Qed.

Lemma traced_try_except {A} (m : M A) h :
  traced P m → (∀ e k, h e = Some k → traced P k) → traced P (try_except m h).
Proof.
  intros Hm Hh s. unfold try_except.
  destruct (Hm s) as (evs1 & Ht1 & HP1 & Hi1).
  destruct (m s) as [[a|e|] s1]; simpl in *.
  - exists evs1. split_and!; [done..|]; intros [= ->]; by apply Hi1.
  - destruct (h e) as [k|] eqn:Hhe.
    + destruct (Hh e k Hhe s1) as (evs2 & Ht2 & HP2 & Hi2).
      exists (evs1 ++ evs2). rewrite Ht2, Ht1, app_assoc.
      split_and!; [done| apply Forall_app_2; done |].
      intros Hr. apply existsb_app_true. right. by apply Hi2.
    + exists evs1. split_and!; [done..|]; intros [= ->]; by apply Hi1.
  - exists evs1. split_and!; [done..|]; intros [= ->]; by apply Hi1.
Qed.

Lemma traced_except_Exception {A} (f : exn → string → M A) e k :
  (∀ cls msg, traced P (f (PyException cls msg) msg)) →
  except_Exception f e = Some k → traced P k.
Proof.
  intros Hf. destruct e as [cls msg|]; simpl; [|done].
  intros [= <-]. apply Hf.
Qed.

Lemma traced_try_finally {A} (m : M A) f :
  traced P m → traced P f → traced P (try_finally m f).
Proof.
  intros Hm Hf s. unfold try_finally.
  destruct (Hm s) as (evs1 & Ht1 & HP1 & Hi1).
  destruct (m s) as [[a|e|] s1]; simpl in *;
    [ | | exists evs1; split_and!; done ];
    destruct (Hf s1) as (evs2 & Ht2 & HP2 & Hi2);
    exists (evs1 ++ evs2);
    destruct (f s1) as [[[]|e2|] s2]; simpl in *;
    rewrite Ht2, Ht1, app_assoc;
    (split_and!; [done| apply Forall_app_2; done |]);
    try done; intros [= ->]; apply existsb_app_true; auto.
Qed.

Lemma traced_for_in {A R} (l : list A) (body : A → M (option R)) :
  (∀ x, traced P (body x)) → traced P (for_in l body).
Proof.
  intros Hb. induction l as [|x l IH]; simpl.
  - apply traced_ret.
  - apply traced_bind; [done|]. intros [v|]; [apply traced_ret | done].
Qed.

Lemma traced_for_each {A} (l : list A) (body : A → M unit) :
  (∀ x, traced P (body x)) → traced P (for_each l body).
Proof.
  intros Hb. induction l as [|x l IH]; simpl.
  - apply traced_ret.
  - apply traced_bind; [done|]. by intros _.
Qed.

Lemma traced_while_true fuel (body : M loop_ctl) :
  traced P body → traced P (while_true fuel body).
Proof.
  intros Hb. induction fuel as [|n IH]; simpl.
  - intros s. exists []. rewrite app_nil_r. by split_and!.
  - apply traced_bind; [done|]. intros [|]; [done | apply traced_ret].
Qed.
End Traced.

(** ** The library calls and the shared methods *)

Section TracedCalls.
Context (env : Env) (P : event → Prop).

Lemma of_reply_interrupt {A} (r : reply A) :
  of_reply r = Raise KeyboardInterrupt → r = Raises KeyboardInterrupt.
Proof. destruct r; simpl; congruence. Qed.

Lemma traced_log lvl msg : P (EvLog lvl msg) → traced P (log lvl msg).
Proof. apply traced_emit. Qed.

Lemma traced_pika_call c : (∀ r, P (EvBroker c r)) → traced P (pika_call env c).
Proof.
  intros HP s. exists [EvBroker c (env_pika env (trace s) c)]. simpl.
  split_and!; [done | by constructor |].
  intros H%of_reply_interrupt. by rewrite H.
Qed.

Lemma traced_is_closed conn :
  (∀ b, P (EvIsClosed conn b)) → traced P (is_closed env conn).
Proof.
  intros HP s. exists [EvIsClosed conn (env_is_closed env (trace s) conn)].
  simpl. split_and!; [done | by constructor | done].
Qed.

Lemma traced_get_news topic :
  (∀ r, P (EvGetNews topic r)) → traced P (get_news env topic).
Proof.
  intros HP s. exists [EvGetNews topic (env_get_news env (trace s) topic)].
  simpl. split_and!; [done | by constructor |].
  intros H%of_reply_interrupt. by rewrite H.
Qed.

Lemma traced_http_get url timeout :
  (∀ r, P (EvHttpGet url timeout r)) → traced P (http_get env url timeout).
Proof.
  intros HP s. exists [EvHttpGet url timeout (env_http env (trace s) url)].
  simpl. split_and!; [done | by constructor |].
  intros H%of_reply_interrupt. by rewrite H.
Qed.

Lemma traced_sleep secs : (∀ r, P (EvSleep secs r)) → traced P (sleep env secs).
Proof.
  intros HP s. unfold sleep. eexists [EvSleep secs _]. simpl.
  split_and!; [done | by constructor |].
  intros H%of_reply_interrupt. by rewrite H.
Qed.

Lemma traced_utcnow : (∀ t, P (EvUtcNow t)) → traced P (utcnow_isoformat env).
Proof.
  intros HP s. exists [EvUtcNow (env_utcnow env (trace s))].
  simpl. split_and!; [done | by constructor | done].
Qed.

Lemma traced_json_dumps d : (∀ r, P (EvJsonDumps d r)) → traced P (json_dumps env d).
Proof.
  intros HP s. exists [EvJsonDumps d (env_json_dumps env d)]. simpl.
  split_and!; [done | by constructor |].
  intros H%of_reply_interrupt. by rewrite H.
Qed.

Lemma traced_list_of_set u :
  (∀ l, P (EvListOfSet u l)) → traced P (list_of_set env u).
Proof.
  intros HP s. exists [EvListOfSet u (env_list_of_set env (trace s) u)].
  simpl. split_and!; [done | by constructor | done].
Qed.
End TracedCalls.

(** One step of a [traced] proof, chosen by the shape of the program. *)
Ltac traced_step :=
  lazymatch goal with
  | |- traced _ (ret _) => apply traced_ret
  | |- traced _ get => apply traced_get
  | |- traced _ fresh => apply traced_fresh
  | |- traced _ (raise _) => apply traced_raise
  | |- traced _ (log _ _) => apply traced_log
  | |- traced _ (modify (emit _)) => apply traced_emit
  | |- traced _ (modify _) => apply traced_modify; intros ?; reflexivity
  | |- traced _ (pika_call _ _) => apply traced_pika_call; intros ?
  | |- traced _ (is_closed _ _) => apply traced_is_closed; intros ?
  | |- traced _ (get_news _ _) => apply traced_get_news; intros ?
  | |- traced _ (http_get _ _ _) => apply traced_http_get; intros ?
  | |- traced _ (sleep _ _) => apply traced_sleep; intros ?
  | |- traced _ (utcnow_isoformat _) => apply traced_utcnow; intros ?
  | |- traced _ (json_dumps _ _) => apply traced_json_dumps; intros ?
  | |- traced _ (list_of_set _ _) => apply traced_list_of_set; intros ?
  | |- traced _ (for_in _ _) => apply traced_for_in; intros ?
  | |- traced _ (for_each _ _) => apply traced_for_each; intros ?
  | |- traced _ (while_true _ _) => apply traced_while_true
  | |- traced _ (try_finally _ _) => apply traced_try_finally
  | |- traced _ (bind _ _) => apply traced_bind; [|intros ?]
  | |- traced _ (try_except _ (except_Exception _)) =>
      apply traced_try_except;
      [|intros ? ?; apply traced_except_Exception; intros ? ?]
  | |- traced _ (try_except _ _) =>
      apply traced_try_except;
      [|let e := fresh "e" in
        intros e ?; destruct e as [[]?|]; intros [= <-]]
  | |- traced _ (match ?x with _ => _ end) => destruct x
  end.

Section TracedConnect.
Context (env : Env) (P : event → Prop).
Context (HC : ∀ ev, is_connect_event ev = true → P ev).

Lemma traced_attempt ex q k :
  traced P (try_except (connect_attempt env ex q >> ret (Some tt))
              (except_Exception (connect_failed env k))).
Proof.
  unfold connect_attempt, connect_failed.
  repeat traced_step; apply HC; reflexivity.
Qed.

Lemma traced_connect_events ex q : traced P (connect_rabbitmq_on env ex q).
Proof.
  unfold connect_rabbitmq_on.
  traced_step; [|traced_step]. traced_step. apply traced_attempt.
Qed.
End TracedConnect.

Lemma connect_event_not_publish ev :
  is_connect_event ev = true → is_basic_publish ev = false.
Proof. by destruct ev as [[]| | | | | | | | | |]. Qed.

Section TracedShared.
Context (env : Env) (P : event → Prop).
Context (HP : ∀ ev, is_basic_publish ev = false → P ev).

Lemma traced_connect_rabbitmq_on ex q : traced P (connect_rabbitmq_on env ex q).
Proof.
  apply traced_connect_events. intros ev Hev.
  by apply HP, connect_event_not_publish.
Qed.

Lemma traced_publish_on ex q published failed d :
  (∀ ch body r, env_json_dumps env d = Returns body →
                P (EvBroker (BasicPublish ch ex "" body 2 "application/json") r)) →
  traced P (publish_on env ex q published failed d).
Proof.
  intros Hpub. unfold publish_on.
  apply traced_try_except.
  - apply (traced_bind_post _ (λ body, env_json_dumps env d = Returns body)).
    + traced_step. by apply HP.
    + intros s body. unfold json_dumps. simpl.
      destruct (env_json_dumps env d); simpl; congruence.
    + intros body Hbody. repeat traced_step; [by apply Hpub | by apply HP].
  - intros e k. apply traced_except_Exception. intros cls msg.
    traced_step; [traced_step; by apply HP |].
    apply traced_connect_rabbitmq_on.
Qed.
End TracedShared.

(** ** Connecting to the broker *)

Section Connect.
Context (env : Env).

Lemma range_max_retries : range max_retries = [0; 1; 2; 3; 4].
Proof. reflexivity. Qed.

(** An attempt whose [BlockingConnection] is refused goes to the handler
    with nothing else done. *)
Lemma attempt_refused ex q k s cls msg :
  env_pika env (trace s) (parameters env) = Raises (PyException cls msg) →
  try_except (connect_attempt env ex q >> ret (Some tt))
    (except_Exception (connect_failed env k)) s
  = connect_failed env k (PyException cls msg) msg
      (emit (EvBroker (parameters env) (Raises (PyException cls msg))) s).
Proof.
  intros H. unfold try_except, connect_attempt, bind, fresh, pika_call.
  rewrite H. reflexivity.
Qed.

Lemma connect_failed_retry k e msg s :
  k < max_retries - 1 → env_sleep env (trace s ++ [EvLog ERROR
       ("Failed to connect to RabbitMQ (attempt " +:+ pretty (k + 1)
        +:+ "/" +:+ pretty max_retries +:+ "): " +:+ msg)]) retry_delay = false →
  connect_failed env k e msg s
  = (Ok None,
     emit (EvSleep retry_delay (Returns tt))
       (emit (EvLog ERROR ("Failed to connect to RabbitMQ (attempt " +:+ pretty (k + 1)
                           +:+ "/" +:+ pretty max_retries +:+ "): " +:+ msg)) s)).
Proof.
  intros Hk Hs. unfold connect_failed, bind, log, modify, sleep. simpl.
  destruct (Z.ltb_spec k (max_retries - 1)); [|lia].
  simpl. rewrite Hs. reflexivity.
Qed.

Lemma connect_failed_last k e msg s :
  ¬ k < max_retries - 1 →
  connect_failed env k e msg s
  = (Raise e,
     emit (EvLog ERROR ("Failed to connect to RabbitMQ (attempt " +:+ pretty (k + 1)
                        +:+ "/" +:+ pretty max_retries +:+ "): " +:+ msg)) s).
Proof.
  intros Hk. unfold connect_failed, bind, log, modify. simpl.
  destruct (Z.ltb_spec k (max_retries - 1)); [lia|]. reflexivity.
Qed.

(** With the broker unreachable, [connect_rabbitmq] makes five attempts,
    sleeps between them and lets the fifth failure out. *)
Lemma connect_unreachable ex q s :
  broker_unreachable env → sleeps_undisturbed env →
  ∃ cls msg evs,
    connect_rabbitmq_on env ex q s
    = (Raise (PyException cls msg),
       {| connection := connection s; channel := channel s; session := session s;
          processed_urls := processed_urls s; trace := trace s ++ evs |}) ∧
    count is_connection_attempt evs = 5%nat ∧
    sleeps evs = [5; 5; 5; 5] ∧
    forallb is_refused_attempt evs = true.
Proof.
  intros Hdown Hsleep. unfold connect_rabbitmq_on.
  rewrite range_max_retries.
  assert (Hstep : ∀ k s0, k < max_retries - 1 → ∃ cls msg log,
    try_except (connect_attempt env ex q >> ret (Some tt))
      (except_Exception (connect_failed env k)) s0
    = (Ok None,
       emit (EvSleep retry_delay (Returns tt))
         (emit (EvLog ERROR log)
            (emit (EvBroker (parameters env) (Raises (PyException cls msg))) s0)))).
  { intros k s0 Hk.
    destruct (Hdown (trace s0) (RABBITMQ_HOST (env_config env))
                (RABBITMQ_USER (env_config env)) (RABBITMQ_PASS (env_config env))
                600 300) as (cls & msg & H).
    fold (parameters env) in H.
    exists cls, msg. eexists.
    rewrite (attempt_refused _ _ _ _ cls msg H).
    rewrite connect_failed_retry; [reflexivity | done | apply Hsleep]. }
  unfold for_in at 1. unfold bind at 1 2.
  destruct (Hstep 0 s ltac:(done)) as (c0 & m0 & l0 & ->).
  set (s1 := emit _ (emit _ (emit _ s))).
  unfold bind at 1. destruct (Hstep 1 s1 ltac:(done)) as (c1 & m1 & l1 & ->).
  set (s2 := emit _ (emit _ (emit _ s1))).
  unfold bind at 1. destruct (Hstep 2 s2 ltac:(done)) as (c2 & m2 & l2 & ->).
  set (s3 := emit _ (emit _ (emit _ s2))).
  unfold bind at 1. destruct (Hstep 3 s3 ltac:(done)) as (c3 & m3 & l3 & ->).
  set (s4 := emit _ (emit _ (emit _ s3))).
  unfold bind at 1.
  destruct (Hdown (trace s4) (RABBITMQ_HOST (env_config env))
              (RABBITMQ_USER (env_config env)) (RABBITMQ_PASS (env_config env))
              600 300) as (c4 & m4 & H4).
  fold (parameters env) in H4.
  rewrite (attempt_refused _ _ _ _ c4 m4 H4).
  rewrite connect_failed_last by done.
  exists c4, m4. eexists. split; [|split_and!].
  - f_equal. apply State_eq; subst s4 s3 s2 s1;
      cbn [emit trace connection channel session processed_urls]; try reflexivity.
    rewrite <- !app_assoc. cbn [app]. reflexivity.
  - reflexivity.
  - reflexivity.
  - reflexivity.
Qed.

(** One attempt: when it returns out of the loop it has declared the
    topology, and it hands over to the next attempt only before the last. *)
Lemma attempt_cases ex q k s r s' :
  try_except (connect_attempt env ex q >> ret (Some tt))
    (except_Exception (connect_failed env k)) s = (r, s') →
  match r with
  | Ok (Some _) =>
      ∃ conn ch, trace s' = trace s ++ topology_events env conn ch ex q ∧
                 connection s' = Some conn ∧ channel s' = Some ch
  | Ok None => k < max_retries - 1
  | _ => True
  end.
Proof.
  unfold try_except, connect_attempt, connect_failed, bind, fresh, pika_call,
    log, modify, ret, raise, sleep, except_Exception, of_reply.
  cbn zeta. intros H.
  repeat (case_match; simplify_eq/=; try done; try lia).
  eexists _, _. split_and!; [|done..].
  repeat match goal with u : () |- _ => destruct u end.
  rewrite <- !app_assoc. reflexivity.
Qed.

Lemma connect_loop_cases ex q l s r s' :
  for_in l (λ attempt,
    try_except (connect_attempt env ex q >> ret (Some tt))
      (except_Exception (connect_failed env attempt))) s = (r, s') →
  match r with
  | Ok (Some _) =>
      ∃ before conn ch,
        trace s' = trace s ++ before ++ topology_events env conn ch ex q ∧
        connection s' = Some conn ∧ channel s' = Some ch
  | Ok None => Forall (λ k, k < max_retries - 1) l
  | _ => True
  end.
Proof.
  revert s. induction l as [|k l IH]; intros s; simpl.
  { intros [= <- <-]. done. }
  unfold bind at 1.
  pose proof (attempt_cases ex q k s) as Hk.
  destruct (traced_attempt env (λ _, True) (λ _ _, I) ex q k s)
    as (evs & Hevs & _).
  destruct (try_except _ _ s) as [[[[]|]|e|] s1]; simpl in *.
  - intros [= <- <-]. destruct (Hk _ _ eq_refl) as (conn & ch & Ht & Hc & Hch).
    by exists [], conn, ch.
  - intros H. specialize (IH s1 H). specialize (Hk _ _ eq_refl). simpl in Hk.
    destruct r as [[[]|]|e|]; try done.
    + destruct IH as (before & conn & ch & Ht & Hc & Hch).
      exists (evs ++ before), conn, ch. split; [|done].
      rewrite Ht, Hevs, <- !app_assoc. reflexivity.
    + by constructor.
  - by intros [= <- <-].
  - by intros [= <- <-].
Qed.

(** A [connect_rabbitmq] that returns has, as the last thing it did,
    opened a connection and a channel and declared the durable fanout
    exchange and the durable queue bound to it. *)
Lemma connect_success ex q s s' :
  connect_rabbitmq_on env ex q s = (Ok tt, s') →
  ∃ before conn ch,
    events_since s s' = before ++ topology_events env conn ch ex q ∧
    connection s' = Some conn ∧ channel s' = Some ch.
Proof.
  unfold connect_rabbitmq_on, bind. intros H.
  pose proof (connect_loop_cases ex q (range max_retries) s) as Hl.
  destruct (for_in (range max_retries) _ s) as [[[[]|]|e|] s1];
    unfold ret in H; simpl in *; simplify_eq;
    specialize (Hl _ _ eq_refl); simpl in Hl.
  - destruct Hl as (before & conn & ch & Ht & Hc & Hch).
    exists before, conn, ch. split; [|done]. by apply events_since_app.
  - rewrite range_max_retries in Hl.
    apply Forall_cons in Hl as [_ Hl]. apply Forall_cons in Hl as [_ Hl].
    apply Forall_cons in Hl as [_ Hl]. apply Forall_cons in Hl as [_ Hl].
    apply Forall_cons in Hl as [Hl _]. done.
Qed.
End Connect.

(** ** Publishing *)

Lemma traced_events {A} P (m : M A) s :
  traced P m → Forall P (events_since s (m s).2).
Proof.
  intros Hm. destruct (Hm s) as (evs & Ht & HP & _).
  by rewrite (events_since_app _ _ _ Ht).
Qed.

Section Publish.
Context (env : Env).

(** The publish method, path by path, once a channel is there. *)
Lemma publish_on_eq ex q published failed d s ch :
  channel s = Some ch →
  publish_on env ex q published failed d s =
  let s1 := emit (EvJsonDumps d (env_json_dumps env d)) s in
  match env_json_dumps env d with
  | Returns body =>
      let call := BasicPublish ch ex "" body 2 "application/json" in
      let r := env_pika env (trace s1) call in
      let s2 := emit (EvBroker call r) s1 in
      match r with
      | Returns _ => (Ok tt, emit (EvLog INFO (published d)) s2)
      | Raises (PyException _ msg) =>
          connect_rabbitmq_on env ex q (emit (EvLog ERROR (failed +:+ msg)) s2)
      | Raises KeyboardInterrupt => (Raise KeyboardInterrupt, s2)
      end
  | Raises (PyException _ msg) =>
      connect_rabbitmq_on env ex q (emit (EvLog ERROR (failed +:+ msg)) s1)
  | Raises KeyboardInterrupt => (Raise KeyboardInterrupt, s1)
  end.
Proof.
  intros Hch.
  unfold publish_on, try_except, bind, json_dumps, get, pika_call, log, modify,
    except_Exception, of_reply.
  cbn zeta.
  destruct (env_json_dumps env d) as [body|[cls msg|]]; simpl; try done.
  rewrite Hch.
  destruct (env_pika env _ _) as [[]|[cls msg|]]; simpl; done.
Qed.

Lemma count_none f evs :
  Forall (λ ev, f ev = false) evs → count f evs = 0%nat.
Proof.
  induction 1 as [|ev evs Hev _ IH]; [done|].
  unfold count in *. rewrite filter_cons_False by congruence. done.
Qed.

Lemma count_app f evs1 evs2 : count f (evs1 ++ evs2) = (count f evs1 + count f evs2)%nat.
Proof. unfold count. by rewrite filter_app, length_app. Qed.

(** When the dictionary serializes, the publish method makes exactly one
    [basic_publish] call, right after [json.dumps], with the body it
    returned. *)
Lemma publish_on_events ex q published failed d s ch body :
  channel s = Some ch →
  env_json_dumps env d = Returns body →
  ∃ r rest,
    events_since s (publish_on env ex q published failed d s).2
    = EvJsonDumps d (Returns body)
      :: EvBroker (BasicPublish ch ex "" body 2 "application/json") r
      :: rest ∧
    count is_basic_publish rest = 0%nat.
Proof.
  intros Hch Hd. rewrite (publish_on_eq _ _ _ _ _ _ ch Hch), Hd. cbn zeta.
  set (s1 := emit _ s). set (call := BasicPublish _ _ _ _ _ _).
  exists (env_pika env (trace s1) call).
  destruct (env_pika env (trace s1) call) as [[]|[cls msg|]] eqn:Hr.
  - exists [EvLog INFO (published d)]. split; [|done].
    apply events_since_app. subst s1. simpl. by rewrite <- !app_assoc.
  - set (s3 := emit (EvLog ERROR _) _).
    destruct (traced_connect_rabbitmq_on env (λ ev, is_basic_publish ev = false)
                (λ _ H, H) ex q s3) as (evs & Ht & Hall & _).
    exists (EvLog ERROR (failed +:+ msg) :: evs). split.
    + apply events_since_app. rewrite Ht. subst s3 s1. simpl.
      by rewrite <- !app_assoc.
    + apply (count_none _ (_ :: _)). by constructor.
  - exists []. split; [|done].
    apply events_since_app. subst s1. simpl. by rewrite <- !app_assoc.
Qed.
End Publish.

(** *** Every event of a service *)

Section TracedServices.
Context (env : Env) (P : event → Prop).
Context (HP : ∀ ev, is_basic_publish ev = false → P ev).

Section News.
Context (Hpub : ∀ ch body r d, env_json_dumps env d = Returns body →
   P (EvBroker (BasicPublish ch "market_news" "" body 2 "application/json") r)).

Lemma traced_publish_news d : traced P (GNewsService.publish_news env d).
Proof. apply traced_publish_on; [done|]. intros. by eapply Hpub. Qed.

Lemma traced_fetch_news topic : traced P (GNewsService.fetch_news env topic).
Proof.
  unfold GNewsService.fetch_news. repeat traced_step; by apply HP.
Qed.

Lemma traced_mark url : traced P (GNewsService.mark env url).
Proof.
  unfold GNewsService.mark, GNewsService.prune.
  repeat traced_step. by apply HP.
Qed.

Lemma traced_handle_article topic a : traced P (GNewsService.handle_article env topic a).
Proof.
  unfold GNewsService.handle_article, GNewsService.process_article.
  repeat traced_step; try (by apply HP).
  - apply traced_publish_news.
  - apply traced_mark.
Qed.

Lemma traced_news_cycle : traced P (GNewsService.cycle env).
Proof.
  unfold GNewsService.cycle, GNewsService.handle_topic.
  repeat traced_step; try (by apply HP).
  - apply traced_fetch_news.
  - apply traced_handle_article.
Qed.

Lemma traced_news_iteration : traced P (GNewsService.iteration env).
Proof.
  unfold GNewsService.iteration.
  repeat traced_step; try (by apply HP). apply traced_news_cycle.
Qed.

Lemma traced_news_run fuel : traced P (GNewsService.run env fuel).
Proof.
  unfold GNewsService.run. repeat traced_step; try (by apply HP).
  apply traced_news_iteration.
Qed.

Lemma traced_news_close : traced P (GNewsService.close env).
Proof.
  unfold GNewsService.close. repeat traced_step; by apply HP.
Qed.

Lemma traced_news_main fuel : traced P (GNewsService.main env fuel).
Proof.
  unfold GNewsService.main, GNewsService.__init__, GNewsService.connect_rabbitmq.
  repeat traced_step.
  - by apply traced_connect_rabbitmq_on.
  - apply traced_news_run.
  - apply traced_news_close.
Qed.
End News.

Section Fundamentals.
Context (Hpub : ∀ ch body r d, env_json_dumps env d = Returns body →
   P (EvBroker (BasicPublish ch "fundamental_data" "" body 2 "application/json") r)).

Lemma traced_publish_data d : traced P (StatusInvestScraper.publish_data env d).
Proof. apply traced_publish_on; [done|]. intros. by eapply Hpub. Qed.

Lemma traced_scrape_stock symbol : traced P (StatusInvestScraper.scrape_stock env symbol).
Proof.
  unfold StatusInvestScraper.scrape_stock, StatusInvestScraper._extract_indicator.
  repeat traced_step; by apply HP.
Qed.

Lemma traced_handle_symbol symbol : traced P (StatusInvestScraper.handle_symbol env symbol).
Proof.
  unfold StatusInvestScraper.handle_symbol.
  repeat traced_step; try (by apply HP).
  - apply traced_scrape_stock.
  - apply traced_publish_data.
Qed.

Lemma traced_scraper_cycle : traced P (StatusInvestScraper.cycle env).
Proof.
  unfold StatusInvestScraper.cycle.
  repeat traced_step; try (by apply HP). apply traced_handle_symbol.
Qed.

Lemma traced_scraper_iteration : traced P (StatusInvestScraper.iteration env).
Proof.
  unfold StatusInvestScraper.iteration.
  repeat traced_step; try (by apply HP). apply traced_scraper_cycle.
Qed.

Lemma traced_scraper_run fuel : traced P (StatusInvestScraper.run env fuel).
Proof.
  unfold StatusInvestScraper.run. repeat traced_step; try (by apply HP).
  apply traced_scraper_iteration.
Qed.

Lemma traced_scraper_close : traced P (StatusInvestScraper.close env).
Proof.
  unfold StatusInvestScraper.close. repeat traced_step; by apply HP.
Qed.

Lemma traced_scraper_main fuel : traced P (StatusInvestScraper.main env fuel).
Proof.
  unfold StatusInvestScraper.main, StatusInvestScraper.__init__,
    StatusInvestScraper.connect_rabbitmq.
  repeat traced_step; try (by apply HP).
  - by apply traced_connect_rabbitmq_on.
  - apply traced_scraper_run.
  - apply traced_scraper_close.
Qed.
End Fundamentals.
End TracedServices.

Lemma publishes_other env ex Q ev : is_basic_publish ev = false → publishes env ex Q ev.
Proof. by destruct ev as [[]| | | | | | | | | |]. Qed.

(** ** Topology and message properties *)

(** C8.  A [connect_rabbitmq] that returns has declared the service's
    durable fanout exchange ([market_news], [fundamental_data]) and the
    durable queue ([news_queue], [fundamentals_queue]) bound to it, on the
    channel the service keeps.  Every [basic_publish] the publish method
    makes for a dictionary [d] goes to that exchange with the empty routing
    key, content type [application/json], delivery mode 2 and the body
    [json.dumps(d)]; when [d] serializes and the service has its channel the
    call is made, once.  Every
    [basic_publish] in the log of a whole run of [main] has those
    properties. *)
Theorem topology_and_message_properties env :
  (∀ s s', GNewsService.connect_rabbitmq env s = (Ok tt, s') →
     ∃ before conn ch,
       events_since s s'
       = before ++ topology_events env conn ch "market_news" "news_queue" ∧
       connection s' = Some conn ∧ channel s' = Some ch) ∧
  (∀ s s', StatusInvestScraper.connect_rabbitmq env s = (Ok tt, s') →
     ∃ before conn ch,
       events_since s s'
       = before ++ topology_events env conn ch "fundamental_data" "fundamentals_queue" ∧
       connection s' = Some conn ∧ channel s' = Some ch) ∧
  (∀ d s,
     Forall (publishes env "market_news" (eq d))
       (events_since s (GNewsService.publish_news env d s).2) ∧
     ∀ ch body, channel s = Some ch → env_json_dumps env d = Returns body →
       ∃ r rest,
         events_since s (GNewsService.publish_news env d s).2
         = EvJsonDumps d (Returns body)
           :: EvBroker (BasicPublish ch "market_news" "" body 2
                          "application/json") r
           :: rest ∧
         count is_basic_publish rest = 0%nat) ∧
  (∀ d s,
     Forall (publishes env "fundamental_data" (eq d))
       (events_since s (StatusInvestScraper.publish_data env d s).2) ∧
     ∀ ch body, channel s = Some ch → env_json_dumps env d = Returns body →
       ∃ r rest,
         events_since s (StatusInvestScraper.publish_data env d s).2
         = EvJsonDumps d (Returns body)
           :: EvBroker (BasicPublish ch "fundamental_data" "" body 2
                          "application/json") r
           :: rest ∧
         count is_basic_publish rest = 0%nat) ∧
  (∀ fuel s,
     Forall (publishes env "market_news" (λ _, True))
       (events_since s (GNewsService.main env fuel s).2)) ∧
  (∀ fuel s,
     Forall (publishes env "fundamental_data" (λ _, True))
       (events_since s (StatusInvestScraper.main env fuel s).2)).
Proof.
  split_and!.
  - intros s s'. apply connect_success.
  - intros s s'. apply connect_success.
  - intros d s. split.
    + apply traced_events, traced_publish_on; [apply publishes_other|].
      intros ch body r Hd. simpl. split_and!; try done. by exists d.
    + intros ch body. apply publish_on_events.
  - intros d s. split.
    + apply traced_events, traced_publish_on; [apply publishes_other|].
      intros ch body r Hd. simpl. split_and!; try done. by exists d.
    + intros ch body. apply publish_on_events.
  - intros fuel s. apply traced_events, traced_news_main; [apply publishes_other|].
    intros ch body r d Hd. simpl. split_and!; try done. by exists d.
  - intros fuel s. apply traced_events, traced_scraper_main; [apply publishes_other|].
    intros ch body r d Hd. simpl. split_and!; try done. by exists d.
Qed.

Lemma topology_witness :
  ∃ s' before conn ch,
    GNewsService.connect_rabbitmq env_quiet initial = (Ok tt, s') ∧
    events_since initial s'
    = before ++ topology_events env_quiet conn ch "market_news" "news_queue".
Proof.
  eexists.
  destruct (topology_and_message_properties env_quiet) as [H _].
  destruct (H initial _ eq_refl) as (before & conn & ch & Hev & _).
  by exists before, conn, ch.
Defined.

(** ** The main loop *)

Section Loop.
Context (env : Env).

Lemma news_iteration_guarded :
  GNewsService.iteration env
  = guarded env (GNewsService.cycle env) "Shutting down GNews Service...".
Proof. reflexivity. Qed.

Lemma scraper_iteration_guarded :
  StatusInvestScraper.iteration env
  = guarded env (StatusInvestScraper.cycle env) "Shutting down Scraping Worker...".
Proof. reflexivity. Qed.

(** The four ways an iteration can go. *)
Lemma guarded_eq cyc bye s :
  guarded env cyc bye s =
  match cyc s with
  | (Ok _, s1) => (Ok Continue, s1)
  | (Raise (PyException _ msg), s1) =>
      let s2 := emit (EvLog ERROR ("Error in main loop: " +:+ msg)) s1 in
      if env_sleep env (trace s2) 30
      then (Raise KeyboardInterrupt, emit (EvSleep 30 (Raises KeyboardInterrupt)) s2)
      else (Ok Continue, emit (EvSleep 30 (Returns tt)) s2)
  | (Raise KeyboardInterrupt, s1) => (Ok Break, emit (EvLog INFO bye) s1)
  | (OutOfFuel, s1) => (OutOfFuel, s1)
  end.
Proof.
  unfold guarded, try_except, bind, log, modify, sleep, ret. cbn zeta.
  destruct (cyc s) as [[[]|[cls msg|]|] s1]; simpl; try done.
  destruct (env_sleep env _ 30); done.
Qed.

(** An iteration never lets an [Exception] out, and it leaves the loop
    only when a library call was interrupted. *)
Lemma guarded_cases cyc bye s r s' :
  traced (λ _, True) cyc →
  guarded env cyc bye s = (r, s') →
  ∃ evs, trace s' = trace s ++ evs ∧
    match r with
    | Ok Continue | OutOfFuel => True
    | Ok Break => existsb is_interrupt evs = true
    | Raise e => e = KeyboardInterrupt ∧ existsb is_interrupt evs = true
    end.
Proof.
  intros Hc. rewrite guarded_eq.
  destruct (Hc s) as (evs & Ht & _ & Hi).
  destruct (cyc s) as [[[]|[cls msg|]|] s1]; simpl in *.
  - intros [= <- <-]. by exists evs.
  - destruct (env_sleep env _ 30); intros [= <- <-]; simpl.
    + eexists (evs ++ [_; _]). rewrite Ht, <- !app_assoc. split; [done|].
      split; [done|]. apply existsb_app_true. by right.
    + eexists (evs ++ [_; _]). rewrite Ht, <- !app_assoc. done.
  - intros [= <- <-]. simpl. exists (evs ++ [EvLog INFO bye]).
    rewrite Ht, <- !app_assoc. split; [done|].
    apply existsb_app_true. left. by apply Hi.
  - intros [= <- <-]. by exists evs.
Qed.

(** The loop ends only by an interrupt from outside. *)
Lemma while_guarded_cases cyc bye fuel s r s' :
  traced (λ _, True) cyc →
  while_true fuel (guarded env cyc bye) s = (r, s') →
  ∃ evs, trace s' = trace s ++ evs ∧
    (r = OutOfFuel ∨
     (r = Ok tt ∨ r = Raise KeyboardInterrupt) ∧ existsb is_interrupt evs = true).
Proof.
  intros Hc. revert s. induction fuel as [|n IH]; intros s; simpl.
  { intros [= <- <-]. exists []. rewrite app_nil_r. auto. }
  unfold bind at 1.
  destruct (guarded env cyc bye s) as [r1 s1] eqn:Hg.
  destruct (guarded_cases _ _ _ _ _ Hc Hg) as (evs1 & Ht1 & Hr1).
  destruct r1 as [[|]|e|].
  - intros H. destruct (IH _ H) as (evs2 & Ht2 & Hr2).
    exists (evs1 ++ evs2). rewrite Ht2, Ht1, <- app_assoc. split; [done|].
    destruct Hr2 as [?|[? ?]]; [by left|right]. split; [done|].
    apply existsb_app_true. by right.
  - intros [= <- <-]. exists evs1. split; [done|]. right. auto.
  - intros [= <- <-]. destruct Hr1 as [-> Hi]. exists evs1. split; [done|].
    right. auto.
  - intros [= <- <-]. exists evs1. auto.
Qed.
End Loop.

(** ** A broker write that fails *)

Lemma publish_on_write_fails env ex q published failed d s cls msg :
  write_fails env ex d s (PyException cls msg) →
  publish_on env ex q published failed d s
  = connect_rabbitmq_on env ex q
      (emit (EvLog ERROR (failed +:+ msg)) (after_write env ex d s)) ∧
  count is_basic_publish (events_since s (publish_on env ex q published failed d s).2)
  = 1%nat.
Proof.
  intros (ch & body & Hch & Hd & Hw). split.
  - rewrite (publish_on_eq _ _ _ _ _ _ _ ch Hch). unfold after_write.
    rewrite Hch, Hd. cbn zeta. simpl. rewrite Hw. reflexivity.
  - destruct (publish_on_events env ex q published failed d s ch body Hch Hd)
      as (r & rest & -> & Hrest).
    change (?a :: ?b :: rest) with ([a; b] ++ rest).
    rewrite count_app, Hrest. reflexivity.
Qed.

Lemma guarded_no_exception env cyc bye s cls msg :
  (guarded env cyc bye s).1 ≠ Raise (PyException cls msg).
Proof.
  rewrite guarded_eq. destruct (cyc s) as [[[]|[c m|]|] s1]; simpl; try done.
  by destruct (env_sleep env _ 30).
Qed.

(** C4.  In both services, when the broker write inside the publish method
    fails with an [Exception], the method logs the error and calls
    [connect_rabbitmq] exactly once, and that call is all that is left of
    the method: its result is the result of that reconnect (which makes up to
    five connection attempts of its own).  The record is not sent again: the
    failed [basic_publish] is the only one in what the call adds to the log.
    No [Exception] gets past the caller: an iteration of the main loop,
    which is where the publish method is called from, never ends in one,
    also when the reconnect itself gives up and raises into it. *)
Theorem publish_failure_reconnects_once env :
  (∀ d s cls msg,
     write_fails env "market_news" d s (PyException cls msg) →
     GNewsService.publish_news env d s
     = GNewsService.connect_rabbitmq env
         (emit (EvLog ERROR ("Error publishing news: " +:+ msg))
            (after_write env "market_news" d s)) ∧
     count is_basic_publish
       (events_since s (GNewsService.publish_news env d s).2) = 1%nat) ∧
  (∀ d s cls msg,
     write_fails env "fundamental_data" d s (PyException cls msg) →
     StatusInvestScraper.publish_data env d s
     = StatusInvestScraper.connect_rabbitmq env
         (emit (EvLog ERROR ("Error publishing data: " +:+ msg))
            (after_write env "fundamental_data" d s)) ∧
     count is_basic_publish
       (events_since s (StatusInvestScraper.publish_data env d s).2) = 1%nat) ∧
  (∀ s cls msg, (GNewsService.iteration env s).1 ≠ Raise (PyException cls msg)) ∧
  (∀ s cls msg, (StatusInvestScraper.iteration env s).1 ≠ Raise (PyException cls msg)).
Proof.
  split_and!.
  - intros d s cls msg. apply publish_on_write_fails.
  - intros d s cls msg. apply publish_on_write_fails.
  - intros s cls msg. rewrite news_iteration_guarded. apply guarded_no_exception.
  - intros s cls msg. rewrite scraper_iteration_guarded. apply guarded_no_exception.
Qed.

Lemma publish_failure_witness :
  write_fails env_first_write_fails "market_news" sample_news
    (connected env_first_write_fails) ConnectionError ∧
  (GNewsService.publish_news env_first_write_fails sample_news
     (connected env_first_write_fails)).1 = Ok tt ∧
  count is_basic_publish
    (events_since (connected env_first_write_fails)
       (GNewsService.publish_news env_first_write_fails sample_news
          (connected env_first_write_fails)).2) = 1%nat.
Proof.
  assert (Hw : write_fails env_first_write_fails "market_news" sample_news
                 (connected env_first_write_fails) ConnectionError).
  { eexists _, _. split_and!; vm_compute; reflexivity. }
  split; [exact Hw|].
  destruct (publish_failure_reconnects_once env_first_write_fails) as [H _].
  destruct (H sample_news (connected env_first_write_fails) _ _ Hw) as [H1 H2].
  split; [|exact H2]. vm_compute. reflexivity.
Defined.

(** ** The driver never stops on an error *)

Lemma news_run_eq env fuel s :
  GNewsService.run env fuel s
  = while_true fuel (GNewsService.iteration env)
      (set_processed_urls ∅
         (emit (EvLog INFO ("Check interval: "
                            +:+ pretty (CHECK_INTERVAL (env_config env)) +:+ " seconds"))
            (emit (EvLog INFO ("Monitoring topics: "
                               +:+ String.concat ", " GNewsService.MARKET_TOPICS))
               (emit (EvLog INFO "GNews Service started") s)))).
Proof. reflexivity. Qed.

Lemma scraper_run_eq env fuel s :
  StatusInvestScraper.run env fuel s
  = while_true fuel (StatusInvestScraper.iteration env)
      (emit (EvLog INFO ("Check interval: "
                         +:+ pretty (CHECK_INTERVAL (env_config env)) +:+ " seconds"))
         (emit (EvLog INFO ("Monitoring "
                            +:+ pretty (Z.of_nat (length StatusInvestScraper.BRAZILIAN_STOCKS))
                            +:+ " Brazilian stocks"))
            (emit (EvLog INFO "Scraping Worker started") s))).
Proof. reflexivity. Qed.

Lemma always_true_other (ev : event) : is_basic_publish ev = false → (λ _ : event, True) ev.
Proof. done. Qed.

(** C5.  In both services, when a cycle lets an [Exception] out, the
    iteration logs it, sleeps 30 seconds and, unless that sleep is
    interrupted, ends in [Continue]: the loop goes on with the next cycle.
    [run] never ends because of an [Exception]: whatever the fuel, either the
    loop is still going when the fuel is spent, or [run] has returned or let
    a [KeyboardInterrupt] out, and then one of the library calls it made was
    cut by a [KeyboardInterrupt]. *)
Theorem driver_stops_only_on_interrupt env :
  (∀ s cls msg s1,
     GNewsService.cycle env s = (Raise (PyException cls msg), s1) →
     env_sleep env (trace s1 ++ [EvLog ERROR ("Error in main loop: " +:+ msg)]) 30
     = false →
     GNewsService.iteration env s
     = (Ok Continue,
        emit (EvSleep 30 (Returns tt))
          (emit (EvLog ERROR ("Error in main loop: " +:+ msg)) s1))) ∧
  (∀ s cls msg s1,
     StatusInvestScraper.cycle env s = (Raise (PyException cls msg), s1) →
     env_sleep env (trace s1 ++ [EvLog ERROR ("Error in main loop: " +:+ msg)]) 30
     = false →
     StatusInvestScraper.iteration env s
     = (Ok Continue,
        emit (EvSleep 30 (Returns tt))
          (emit (EvLog ERROR ("Error in main loop: " +:+ msg)) s1))) ∧
  (∀ fuel s r s',
     GNewsService.run env fuel s = (r, s') →
     r = OutOfFuel ∨
     (r = Ok tt ∨ r = Raise KeyboardInterrupt) ∧
     existsb is_interrupt (events_since s s') = true) ∧
  (∀ fuel s r s',
     StatusInvestScraper.run env fuel s = (r, s') →
     r = OutOfFuel ∨
     (r = Ok tt ∨ r = Raise KeyboardInterrupt) ∧
     existsb is_interrupt (events_since s s') = true).
Proof.
  split_and!.
  - intros s cls msg s1 Hc Hs. rewrite news_iteration_guarded, guarded_eq, Hc.
    cbn zeta. simpl. by rewrite Hs.
  - intros s cls msg s1 Hc Hs. rewrite scraper_iteration_guarded, guarded_eq, Hc.
    cbn zeta. simpl. by rewrite Hs.
  - intros fuel s r s'. rewrite news_run_eq, news_iteration_guarded. intros H.
    apply while_guarded_cases in H as (evs & Ht & Hr).
    2:{ apply traced_news_cycle; [apply always_true_other | done]. }
    destruct Hr as [?|[? Hi]]; [by left|right]. split; [done|].
    simpl in Ht. rewrite <- !app_assoc in Ht.
    rewrite (events_since_app _ _ _ Ht). apply existsb_app_true. by right.
  - intros fuel s r s'. rewrite scraper_run_eq, scraper_iteration_guarded. intros H.
    apply while_guarded_cases in H as (evs & Ht & Hr).
    2:{ apply traced_scraper_cycle; [apply always_true_other | done]. }
    destruct Hr as [?|[? Hi]]; [by left|right]. split; [done|].
    simpl in Ht. rewrite <- !app_assoc in Ht.
    rewrite (events_since_app _ _ _ Ht). apply existsb_app_true. by right.
Qed.

Lemma driver_witness :
  (∃ s', GNewsService.run env_interrupted 3 initial = (Ok tt, s') ∧
         existsb is_interrupt (events_since initial s') = true) ∧
  (∃ s1 s2, GNewsService.cycle env_negative_interval initial
            = (Raise (PyException OtherException "sleep length must be non-negative"), s1) ∧
            GNewsService.iteration env_negative_interval initial = (Ok Continue, s2) ∧
            sleeps (events_since s1 s2) = [30]).
Proof.
  split.
  - destruct (GNewsService.run env_interrupted 3 initial) as [r s'] eqn:Hrun.
    destruct (driver_stops_only_on_interrupt env_interrupted) as (_ & _ & H & _).
    destruct (H 3%nat initial r s' Hrun) as [Hr|[_ Hi]];
      vm_compute in Hrun; injection Hrun as <- <-; [discriminate Hr|].
    eexists. split; [reflexivity | exact Hi].
  - destruct (GNewsService.cycle env_negative_interval initial) as [r s1] eqn:Hc.
    assert (Hr : r = Raise (PyException OtherException "sleep length must be non-negative")).
    { vm_compute in Hc. by injection Hc as <- _. }
    subst r.
    destruct (driver_stops_only_on_interrupt env_negative_interval) as (H & _).
    specialize (H initial _ _ s1 Hc eq_refl).
    exists s1. eexists. split; [reflexivity|]. split; [exact H|].
    erewrite events_since_app; [|simpl; by rewrite <- app_assoc].
    reflexivity.
Defined.

(** ** Fetching *)

Lemma fetch_news_eq env topic s :
  let s1 := emit (EvLog INFO ("Fetching news for topic: " +:+ topic)) s in
  GNewsService.fetch_news env topic s =
  match env_get_news env (trace s1) topic with
  | Returns articles => (Ok articles, emit (EvGetNews topic (Returns articles)) s1)
  | Raises (PyException cls msg) =>
      (Ok [],
       emit (EvLog ERROR ("Error fetching news for " +:+ topic +:+ ": " +:+ msg))
         (emit (EvGetNews topic (Raises (PyException cls msg))) s1))
  | Raises KeyboardInterrupt =>
      (Raise KeyboardInterrupt, emit (EvGetNews topic (Raises KeyboardInterrupt)) s1)
  end.
Proof.
  cbn zeta.
  unfold GNewsService.fetch_news, try_except, bind, log, modify, get_news,
    except_Exception, of_reply, ret. cbn zeta. simpl.
  by destruct (env_get_news env _ topic) as [l|[cls msg|]].
Qed.

(** C7.  [fetch_news] never lets an [Exception] out: when the GNews client
    raises one, it logs the error and returns the empty list; when the client
    returns, it returns the client's list.  [scrape_stock] likewise: when the
    request, its status check or the parse raises an [Exception], it logs the
    error and returns [None], that is no record; when they succeed it returns
    one record, for the symbol asked.  In both, only a [KeyboardInterrupt]
    passes through. *)
Theorem fetchers_swallow_exceptions env :
  (∀ topic s,
     let s1 := emit (EvLog INFO ("Fetching news for topic: " +:+ topic)) s in
     match env_get_news env (trace s1) topic with
     | Returns articles =>
         GNewsService.fetch_news env topic s
         = (Ok articles, emit (EvGetNews topic (Returns articles)) s1)
     | Raises (PyException cls msg) =>
         GNewsService.fetch_news env topic s
         = (Ok [],
            emit (EvLog ERROR ("Error fetching news for " +:+ topic +:+ ": " +:+ msg))
              (emit (EvGetNews topic (Raises (PyException cls msg))) s1))
     | Raises KeyboardInterrupt =>
         (GNewsService.fetch_news env topic s).1 = Raise KeyboardInterrupt
     end) ∧
  (∀ symbol s,
     let url := StatusInvestScraper.BASE_URL +:+ "/" +:+ py_lower symbol in
     let s1 := emit (EvLog INFO ("Scraping data for " +:+ symbol +:+ " from " +:+ url)) s in
     match env_http env (trace s1) url with
     | Returns _ =>
         ∃ data, (StatusInvestScraper.scrape_stock env symbol s).1 = Ok (Some data) ∧
                 dict_get "symbol" PyNone data = PyStr symbol
     | Raises (PyException cls msg) =>
         ∃ data, (StatusInvestScraper.scrape_stock env symbol s).1 = Ok data ∧
                 records_of data = [] ∧
                 last (trace (StatusInvestScraper.scrape_stock env symbol s).2)
                 = Some (EvLog ERROR
                     ((match cls with
                       | RequestException => "Error scraping "
                       | OtherException => "Unexpected error scraping "
                       end) +:+ symbol +:+ ": " +:+ msg))
     | Raises KeyboardInterrupt =>
         (StatusInvestScraper.scrape_stock env symbol s).1 = Raise KeyboardInterrupt
     end) ∧
  (∀ topic s cls msg,
     (GNewsService.fetch_news env topic s).1 ≠ Raise (PyException cls msg)) ∧
  (∀ symbol s cls msg,
     (StatusInvestScraper.scrape_stock env symbol s).1 ≠ Raise (PyException cls msg)).
Proof.
  split_and!.
  - intros topic s. cbn zeta. rewrite fetch_news_eq. cbn zeta.
    by destruct (env_get_news env _ topic) as [l|[cls msg|]].
  - intros symbol s. cbn zeta.
    unfold StatusInvestScraper.scrape_stock, StatusInvestScraper._extract_indicator,
      try_except, bind, log, modify, http_get, utcnow_isoformat,
      except_Exception, of_reply, ret. cbn zeta. simpl.
    destruct (env_http env _ _) as [[]|[[] msg|]]; simpl.
    + eexists. split; reflexivity.
    + exists None. split_and!; [done..|]. by rewrite last_snoc.
    + exists None. split_and!; [done..|]. by rewrite last_snoc.
    + done.
  - intros topic s cls msg. rewrite fetch_news_eq. cbn zeta.
    by destruct (env_get_news env _ topic) as [l|[c m|]].
  - intros symbol s cls msg.
    unfold StatusInvestScraper.scrape_stock, StatusInvestScraper._extract_indicator,
      try_except, bind, log, modify, http_get, utcnow_isoformat,
      except_Exception, of_reply, ret. cbn zeta. simpl.
    by destruct (env_http env _ _) as [[]|[[] m|]].
Qed.

(** ** Records without an identity *)

Lemma handle_article_skip env topic a s :
  default "" (a_url a) = "" ∨ default "" (a_url a) ∈ processed_urls s →
  GNewsService.handle_article env topic a s = (Ok tt, s).
Proof.
  intros H. unfold GNewsService.handle_article, bind, get. cbn zeta.
  destruct H as [-> | H]; [done|].
  rewrite (bool_decide_eq_false_2 (_ ∉ _)) by auto.
  by rewrite andb_false_r.
Qed.

(** C6.  An article whose URL is the empty string or is missing makes
    [handle_article] return at once with the state untouched: it is not
    normalized, not looked up in the cache, not published and not marked.
    So the loop over a fetched list runs exactly as it would on the list
    without that article, log of calls included. *)
Theorem empty_identity_is_dropped env topic a :
  default "" (a_url a) = "" →
  (∀ s, GNewsService.handle_article env topic a s = (Ok tt, s)) ∧
  (∀ before after s,
     for_each (before ++ a :: after) (GNewsService.handle_article env topic) s
     = for_each (before ++ after) (GNewsService.handle_article env topic) s).
Proof.
  intros Hurl.
  assert (Hskip : ∀ s, GNewsService.handle_article env topic a s = (Ok tt, s)).
  { intros s. apply handle_article_skip. by left. }
  split; [exact Hskip|].
  intros before after. induction before as [|b before IH]; intros s; simpl app.
  - by rewrite for_each_cons, Hskip.
  - rewrite !for_each_cons.
    destruct (GNewsService.handle_article env topic b s) as [[[]|e|] s1]; auto.
Qed.

Lemma empty_identity_witness :
  for_each [article_x1; article_no_url; article_empty_url]
    (GNewsService.handle_article env_quiet "bitcoin") (connected env_quiet)
  = for_each [article_x1; article_empty_url]
      (GNewsService.handle_article env_quiet "bitcoin") (connected env_quiet) ∧
  for_each ([article_x1] ++ article_empty_url :: [])
    (GNewsService.handle_article env_quiet "bitcoin") (connected env_quiet)
  = for_each ([article_x1] ++ [])
      (GNewsService.handle_article env_quiet "bitcoin") (connected env_quiet).
Proof.
  split.
  - apply (proj2 (empty_identity_is_dropped env_quiet "bitcoin" article_no_url eq_refl)
             [article_x1] [article_empty_url]).
  - apply (proj2 (empty_identity_is_dropped env_quiet "bitcoin" article_empty_url eq_refl)
             [article_x1] []).
Defined.

(** ** The dedup cache *)

Section Kept.
Context (I : State → Prop).

Lemma kept_ret {A} (a : A) : kept I (ret a).
Proof. by intros s Hs. Qed.

Lemma kept_bind {A B} (m : M A) (k : A → M B) :
  kept I m → (∀ a, kept I (k a)) → kept I (bind m k).
Proof.
  intros Hm Hk s Hs. unfold bind. specialize (Hm s Hs).
  destruct (m s) as [[a|e|] s1]; simpl in *; [by apply Hk | done..].
Qed.

Lemma kept_try_except {A} (m : M A) h :
  kept I m → (∀ e k, h e = Some k → kept I k) → kept I (try_except m h).
Proof.
  intros Hm Hh s Hs. unfold try_except. specialize (Hm s Hs).
  destruct (m s) as [[a|e|] s1]; simpl in *; [done| |done].
  destruct (h e) as [k|] eqn:He; [by eapply Hh | done].
Qed.

Lemma kept_except_Exception {A} (f : exn → string → M A) e k :
  (∀ cls msg, kept I (f (PyException cls msg) msg)) →
  except_Exception f e = Some k → kept I k.
Proof.
  intros Hf. destruct e as [cls msg|]; simpl; [|done].
  intros [= <-]. apply Hf.
Qed.

Lemma kept_try_finally {A} (m : M A) f :
  kept I m → kept I f → kept I (try_finally m f).
Proof.
  intros Hm Hf s Hs. unfold try_finally. specialize (Hm s Hs).
  destruct (m s) as [[a|e|] s1]; simpl in *; [| |done];
    specialize (Hf s1 Hm); by destruct (f s1) as [[[]|e2|] s2].
Qed.

Lemma kept_for_in {A R} (l : list A) (body : A → M (option R)) :
  (∀ x, kept I (body x)) → kept I (for_in l body).
Proof.
  intros Hb. induction l as [|x l IH]; simpl; [apply kept_ret|].
  apply kept_bind; [done|]. intros [v|]; [apply kept_ret | done].
Qed.

Lemma kept_for_each {A} (l : list A) (body : A → M unit) :
  (∀ x, kept I (body x)) → kept I (for_each l body).
Proof.
  intros Hb. induction l as [|x l IH]; simpl; [apply kept_ret|].
  apply kept_bind; [done|]. by intros _.
Qed.

Lemma kept_while_true fuel (body : M loop_ctl) :
  kept I body → kept I (while_true fuel body).
Proof.
  intros Hb. induction fuel as [|n IH]; simpl; [by intros s Hs|].
  apply kept_bind; [done|]. intros [|]; [done | apply kept_ret].
Qed.
End Kept.

(** One step of a [kept] proof.  At a leaf the property has to follow by
    computation: it does for a property of the cache or of the connection
    at a call that only writes to the log. *)
Ltac kept_step :=
  lazymatch goal with
  | |- kept _ (for_in _ _) => apply kept_for_in; intros ?
  | |- kept _ (for_each _ _) => apply kept_for_each; intros ?
  | |- kept _ (while_true _ _) => apply kept_while_true
  | |- kept _ (try_finally _ _) => apply kept_try_finally
  | |- kept _ (bind _ _) => apply kept_bind; [|intros ?]
  | |- kept _ (try_except _ (except_Exception _)) =>
      apply kept_try_except;
      [|intros ? ?; apply kept_except_Exception; intros ? ?]
  | |- kept _ (try_except _ _) =>
      apply kept_try_except;
      [|let e := fresh "e" in
        intros e ?; destruct e as [[]?|]; intros [= <-]]
  | |- kept _ (match ?x with _ => _ end) => destruct x
  | |- kept _ _ =>
      let s := fresh "s" in let H := fresh "H" in
      intros s H; first [exact H | by (unfold has_connection; simpl; eauto)]
  end.

Section KeptShared.
Context (env : Env) (J : gset string → Prop).

(** Connecting and publishing leave the cache alone. *)
Lemma kept_connect_rabbitmq_on ex q :
  kept (λ s, J (processed_urls s)) (connect_rabbitmq_on env ex q).
Proof.
  unfold connect_rabbitmq_on, connect_attempt, connect_failed.
  repeat kept_step.
Qed.

Lemma kept_publish_on ex q published failed d :
  kept (λ s, J (processed_urls s)) (publish_on env ex q published failed d).
Proof.
  unfold publish_on. repeat kept_step. apply kept_connect_rabbitmq_on.
Qed.
End KeptShared.

Section Prune.
Context (env : Env).

Lemma slice_last_length {A} (l : list A) k :
  (Z.to_nat k ≤ length l)%nat → length (slice_last k l) = Z.to_nat k.
Proof. intros H. unfold slice_last. rewrite length_drop. lia. Qed.

(** What a prune leaves: 5000 entries of the cache it started from. *)
Lemma pruned_cache h (u : gset string) :
  10000 < Z.of_nat (size u) →
  size (list_to_set (C:=gset string) (slice_last 5000 (env_list_of_set env h u)))
  = 5000%nat ∧
  list_to_set (C:=gset string) (slice_last 5000 (env_list_of_set env h u)) ⊆ u.
Proof.
  intros Hbig.
  pose proof (env_list_of_set_perm env h u) as Hperm.
  assert (Hnodup : NoDup (env_list_of_set env h u)).
  { rewrite Hperm. apply NoDup_elements. }
  assert (Hlen : length (env_list_of_set env h u) = size u).
  { by rewrite Hperm. }
  split.
  - rewrite size_list_to_set.
    + rewrite slice_last_length; [reflexivity|]. rewrite Hlen. lia.
    + eapply sublist_NoDup; [exact Hnodup | apply sublist_drop].
  - intros x. rewrite elem_of_list_to_set. intros Hx.
    apply subseteq_drop in Hx. rewrite Hperm in Hx. by apply elem_of_elements.
Qed.

(** [mark], by the size of the cache once the URL is in. *)
Lemma mark_eq url s :
  let u := {[url]} ∪ processed_urls s in
  GNewsService.mark env url s =
  if Z.of_nat (size u) >? 10000
  then (Ok tt,
        set_processed_urls
          (list_to_set (slice_last 5000 (env_list_of_set env (trace s) u)))
          (emit (EvListOfSet u (env_list_of_set env (trace s) u))
             (set_processed_urls u s)))
  else (Ok tt, set_processed_urls u s).
Proof.
  cbn zeta. unfold GNewsService.mark, GNewsService.prune, bind, modify, get,
    list_of_set. simpl.
  by destruct (Z.of_nat (size ({[url]} ∪ processed_urls s)) >? 10000).
Qed.

Lemma mark_within_ceiling url s :
  within_ceiling (GNewsService.mark env url s).2.
Proof.
  rewrite mark_eq. cbn zeta. unfold within_ceiling.
  destruct (Z.gtb_spec (Z.of_nat (size ({[url]} ∪ processed_urls s))) 10000) as [Hbig|Hok];
    simpl; [|lia].
  destruct (pruned_cache (trace s) _ Hbig) as [-> _]. lia.
Qed.

Lemma kept_mark url : kept within_ceiling (GNewsService.mark env url).
Proof. intros s _. apply mark_within_ceiling. Qed.

Lemma kept_news_iteration : kept within_ceiling (GNewsService.iteration env).
Proof.
  unfold GNewsService.iteration, GNewsService.cycle, GNewsService.handle_topic,
    GNewsService.fetch_news, GNewsService.handle_article,
    GNewsService.process_article.
  repeat kept_step.
  - apply (kept_publish_on env (λ u, Z.of_nat (size u) ≤ 10000)).
  - apply kept_mark.
Qed.
End Prune.

Lemma within_ceiling_empty s : within_ceiling (set_processed_urls ∅ s).
Proof.
  unfold within_ceiling.
  change (processed_urls (set_processed_urls ∅ s)) with (∅ : gset string).
  rewrite size_empty. lia.
Qed.

(** C2.  Right after any [mark] (the [add] and the size check behind it),
    from any state at all, the cache holds at most 10000 URLs.  When the
    [add] takes the cache over 10000, [mark] replaces it by exactly 5000 of
    its entries, whichever order the set is listed in; otherwise the cache is
    the old one with the URL added.  The bound holds after every sequence of
    marks, and at whatever point [run] has got to. *)
Theorem dedup_cache_is_bounded env :
  (∀ url s,
     Z.of_nat (size (processed_urls (GNewsService.mark env url s).2)) ≤ 10000) ∧
  (∀ url s,
     let before := {[url]} ∪ processed_urls s in
     let after := processed_urls (GNewsService.mark env url s).2 in
     if Z.of_nat (size before) >? 10000
     then size after = 5000%nat ∧ after ⊆ before
     else after = before) ∧
  (∀ urls s,
     Z.of_nat (size (processed_urls
                       (for_each urls (GNewsService.mark env)
                          (set_processed_urls ∅ s)).2)) ≤ 10000) ∧
  (∀ fuel s,
     Z.of_nat (size (processed_urls (GNewsService.run env fuel s).2)) ≤ 10000).
Proof.
  split_and!.
  - intros url s. apply mark_within_ceiling.
  - intros url s. cbn zeta. rewrite mark_eq. cbn zeta.
    destruct (Z.gtb_spec (Z.of_nat (size ({[url]} ∪ processed_urls s))) 10000)
      as [Hbig|Hok]; simpl; [|done].
    by apply pruned_cache.
  - intros urls s.
    apply (kept_for_each within_ceiling urls (GNewsService.mark env)
             (kept_mark env) (set_processed_urls ∅ s)).
    apply within_ceiling_empty.
  - intros fuel s. rewrite news_run_eq.
    apply (kept_while_true within_ceiling fuel _ (kept_news_iteration env)).
    apply within_ceiling_empty.
Qed.

(** ** Leaving the process *)

Ltac in_list :=
  repeat first [apply list_elem_of_here | apply list_elem_of_further].

Section Exit.
Context (env : Env).

Lemma kept_connection_connect ex q :
  kept has_connection (connect_rabbitmq_on env ex q).
Proof.
  unfold connect_rabbitmq_on, connect_attempt, connect_failed.
  repeat kept_step.
Qed.

Lemma kept_connection_publish ex q published failed d :
  kept has_connection (publish_on env ex q published failed d).
Proof.
  unfold publish_on. repeat kept_step. apply kept_connection_connect.
Qed.

Lemma kept_connection_news_run fuel : kept has_connection (GNewsService.run env fuel).
Proof.
  unfold GNewsService.run, GNewsService.iteration, GNewsService.cycle,
    GNewsService.handle_topic, GNewsService.fetch_news,
    GNewsService.handle_article, GNewsService.process_article,
    GNewsService.mark, GNewsService.prune.
  repeat kept_step. apply kept_connection_publish.
Qed.

Lemma kept_connection_scraper_run fuel :
  kept has_connection (StatusInvestScraper.run env fuel).
Proof.
  unfold StatusInvestScraper.run, StatusInvestScraper.iteration,
    StatusInvestScraper.cycle, StatusInvestScraper.handle_symbol,
    StatusInvestScraper.scrape_stock, StatusInvestScraper._extract_indicator.
  repeat kept_step. apply kept_connection_publish.
Qed.

(** [close], once a connection is held. *)
Lemma news_close_eq s conn :
  connection s = Some conn →
  GNewsService.close env s =
  let b := env_is_closed env (trace s) conn in
  let s1 := emit (EvIsClosed conn b) s in
  if b then (Ok tt, s1)
  else match env_pika env (trace s1) (ConnClose conn) with
       | Returns _ =>
           (Ok tt, emit (EvLog INFO "RabbitMQ connection closed")
                     (emit (EvBroker (ConnClose conn) (Returns tt)) s1))
       | Raises e => (Raise e, emit (EvBroker (ConnClose conn) (Raises e)) s1)
       end.
Proof.
  intros Hc. unfold GNewsService.close, bind, get, is_closed, pika_call, log,
    modify, ret, of_reply. cbn zeta. rewrite Hc. simpl.
  destruct (env_is_closed env (trace s) conn); simpl; [done|].
  by destruct (env_pika env _ _) as [[]|e].
Qed.

Lemma scraper_close_eq s conn :
  connection s = Some conn →
  StatusInvestScraper.close env s =
  let b := env_is_closed env (trace s) conn in
  let s1 := emit (EvIsClosed conn b) s in
  let finish s2 := (Ok tt, emit (EvLog INFO "HTTP session closed")
                             (emit EvSessionClose s2)) in
  if b then finish s1
  else match env_pika env (trace s1) (ConnClose conn) with
       | Returns _ =>
           finish (emit (EvLog INFO "RabbitMQ connection closed")
                     (emit (EvBroker (ConnClose conn) (Returns tt)) s1))
       | Raises e => (Raise e, emit (EvBroker (ConnClose conn) (Raises e)) s1)
       end.
Proof.
  intros Hc. unfold StatusInvestScraper.close, bind, get, is_closed, pika_call,
    log, modify, ret, of_reply. cbn zeta. rewrite Hc. simpl.
  destruct (env_is_closed env (trace s) conn); simpl; [done|].
  by destruct (env_pika env _ _) as [[]|e].
Qed.

Lemma news_close_releases s conn :
  connection s = Some conn →
  ∃ evs, trace (GNewsService.close env s).2 = trace s ++ evs ∧
         releases_connection conn evs ∧
         (close_went_through evs → (GNewsService.close env s).1 = Ok tt).
Proof.
  intros Hc. rewrite (news_close_eq _ _ Hc). cbn zeta.
  destruct (env_is_closed env (trace s) conn).
  - exists [EvIsClosed conn true]. split_and!; [done| |done].
    left. in_list.
  - destruct (env_pika env _ _) as [[]|e]; simpl.
    + eexists [_; _; _]. rewrite <- !app_assoc. split_and!; [done| |done].
      right. eexists. in_list.
    + eexists [_; _]. rewrite <- !app_assoc. split_and!; [done| |].
      * right. eexists. in_list.
      * intros H. discriminate H.
Qed.

Lemma scraper_close_releases s conn :
  connection s = Some conn →
  ∃ evs, trace (StatusInvestScraper.close env s).2 = trace s ++ evs ∧
         releases_connection conn evs ∧
         (close_went_through evs →
          (StatusInvestScraper.close env s).1 = Ok tt ∧ EvSessionClose ∈ evs).
Proof.
  intros Hc. rewrite (scraper_close_eq _ _ Hc). cbn zeta.
  destruct (env_is_closed env (trace s) conn).
  - eexists [_; _; _]. simpl. rewrite <- !app_assoc. split_and!; [done| |].
    + left. in_list.
    + intros _. split; [done|]. in_list.
  - destruct (env_pika env _ _) as [[]|e]; simpl.
    + eexists [_; _; _; _; _]. rewrite <- !app_assoc. split_and!; [done| |].
      * right. eexists. in_list.
      * intros _. split; [done|]. in_list.
    + eexists [_; _]. rewrite <- !app_assoc. split_and!; [done| |].
      * right. eexists. in_list.
      * intros H. discriminate H.
Qed.

Lemma try_finally_cases {A} (m : M A) f s r s' :
  try_finally m f s = (r, s') → r ≠ OutOfFuel →
  ∃ r1 s1, m s = (r1, s1) ∧ r1 ≠ OutOfFuel ∧ (f s1).2 = s' ∧
           ((f s1).1 = Ok tt → r = r1).
Proof.
  unfold try_finally. intros H Hr.
  destruct (m s) as [[a|e|] s1] eqn:Hm; [| |by simplify_eq];
    eexists _, s1; (split; [reflexivity|]);
    destruct (f s1) as [[[]|e2|] s2]; simplify_eq/=; done.
Qed.
End Exit.

(** C9 (as amended).  Once the constructor has returned, [main] does not
    end without [close]: whether [run] returns (the interrupt was caught) or
    lets an exception out, [close] runs on the connection the service then
    holds, and either finds it closed or calls its [close()]; in the scraper
    the HTTP session is closed next, provided closing the connection did not
    raise.  When [run] has returned and closing did not raise, the process
    exits 0.  When the constructor raises, and so when the retry budget is
    exhausted at start-up, [main] ends with that exception and the process
    exits non-zero. *)
Theorem close_runs_on_every_exit_from_run env fuel s :
  (∀ s0 r s',
     GNewsService.__init__ env s = (Ok tt, s0) →
     GNewsService.main env fuel s = (r, s') → r ≠ OutOfFuel →
     ∃ r1 s1 conn,
       GNewsService.run env fuel s0 = (r1, s1) ∧ connection s1 = Some conn ∧
       releases_connection conn (events_since s1 s') ∧
       (close_went_through (events_since s1 s') → r = r1) ∧
       (r1 = Ok tt → close_went_through (events_since s1 s') →
        exit_status r = Some 0)) ∧
  (∀ s0 r s',
     StatusInvestScraper.__init__ env s = (Ok tt, s0) →
     StatusInvestScraper.main env fuel s = (r, s') → r ≠ OutOfFuel →
     ∃ r1 s1 conn,
       StatusInvestScraper.run env fuel s0 = (r1, s1) ∧ connection s1 = Some conn ∧
       releases_connection conn (events_since s1 s') ∧
       (close_went_through (events_since s1 s') →
        r = r1 ∧ EvSessionClose ∈ events_since s1 s') ∧
       (r1 = Ok tt → close_went_through (events_since s1 s') →
        exit_status r = Some 0)) ∧
  (∀ e s0,
     GNewsService.__init__ env s = (Raise e, s0) →
     GNewsService.main env fuel s = (Raise e, s0) ∧
     exits_nonzero (Raise e : outcome unit)) ∧
  (∀ e s0,
     StatusInvestScraper.__init__ env s = (Raise e, s0) →
     StatusInvestScraper.main env fuel s = (Raise e, s0) ∧
     exits_nonzero (Raise e : outcome unit)).
Proof.
  assert (Hnz : ∀ e, exits_nonzero (Raise e : outcome unit)).
  { intros [cls msg|]; eexists; (split; [reflexivity|done]). }
  split_and!.
  - intros s0 r s' Hinit Hmain Hr.
    assert (Hconn : has_connection s0).
    { unfold GNewsService.__init__ in Hinit.
      apply (connect_success env "market_news" "news_queue") in Hinit
        as (_ & conn & ch & _ & Hc & _).
      unfold has_connection. by rewrite Hc. }
    unfold GNewsService.main, bind in Hmain. rewrite Hinit in Hmain.
    apply try_finally_cases in Hmain as (r1 & s1 & Hrun & Hr1 & Hs' & Hres); [|done].
    pose proof (kept_connection_news_run env fuel s0 Hconn) as [conn Hc].
    rewrite Hrun in Hc. simpl in Hc.
    destruct (news_close_releases env s1 conn Hc) as (evs & Ht & Hrel & Hok).
    rewrite Hs' in Ht. exists r1, s1, conn.
    rewrite (events_since_app _ _ _ Ht). split_and!; [done..| |].
    + intros H. by apply Hres, Hok.
    + intros -> H. by rewrite (Hres (Hok H)).
  - intros s0 r s' Hinit Hmain Hr.
    assert (Hconn : has_connection s0).
    { unfold StatusInvestScraper.__init__, bind, fresh, modify in Hinit.
      simpl in Hinit.
      apply (connect_success env "fundamental_data" "fundamentals_queue") in Hinit
        as (_ & conn & ch & _ & Hc & _).
      unfold has_connection. by rewrite Hc. }
    unfold StatusInvestScraper.main, bind in Hmain. rewrite Hinit in Hmain.
    apply try_finally_cases in Hmain as (r1 & s1 & Hrun & Hr1 & Hs' & Hres); [|done].
    pose proof (kept_connection_scraper_run env fuel s0 Hconn) as [conn Hc].
    rewrite Hrun in Hc. simpl in Hc.
    destruct (scraper_close_releases env s1 conn Hc) as (evs & Ht & Hrel & Hok).
    rewrite Hs' in Ht. exists r1, s1, conn.
    rewrite (events_since_app _ _ _ Ht). split_and!; [done..| |].
    + intros H. destruct (Hok H) as [Hok1 Hok2]. split; [by apply Hres | done].
    + intros -> H. destruct (Hok H) as [Hok1 _]. by rewrite (Hres Hok1).
  - intros e s0 Hinit. split; [|apply Hnz].
    unfold GNewsService.main, bind. by rewrite Hinit.
  - intros e s0 Hinit. split; [|apply Hnz].
    unfold StatusInvestScraper.main, bind. by rewrite Hinit.
Qed.

Lemma close_runs_witness :
  let s0 := (StatusInvestScraper.__init__ env_interrupted initial).2 in
  let s1 := (StatusInvestScraper.run env_interrupted 1 s0).2 in
  let r := StatusInvestScraper.main env_interrupted 1 initial in
  exit_status r.1 = Some 0 ∧ EvSessionClose ∈ events_since s1 r.2.
Proof.
  intros s0 s1 r.
  destruct (close_runs_on_every_exit_from_run env_interrupted 1 initial)
    as (_ & H & _).
  destruct (H s0 r.1 r.2) as (r1 & s1' & conn & Hrun & _ & _ & Hsess & Hexit).
  - vm_compute. reflexivity.
  - apply surjective_pairing.
  - vm_compute. discriminate.
  - assert (Hs1 : s1' = s1) by (subst s1; by rewrite Hrun).
    assert (Hr1 : r1 = Ok tt).
    { vm_compute in Hrun. by injection Hrun as <- _. }
    subst s1'.
    assert (Hcwt : close_went_through (events_since s1 r.2)).
    { vm_compute. reflexivity. }
    split; [by apply Hexit | by apply Hsess].
Defined.

(** C9 (as stated) fails on the start-up path: the constructor is outside
    the [try], so when it raises nothing is closed.  With the broker down the
    scraper exits non-zero with its HTTP session made and never closed; with
    a broker that gives connections but no channel the news service exits
    non-zero having opened five connections and closed none. *)
Lemma startup_failure_closes_nothing :
  (let r := StatusInvestScraper.main env_broker_down 1 initial in
   exits_nonzero r.1 ∧
   existsb is_session_new (trace r.2) = true ∧
   existsb is_session_close (trace r.2) = false) ∧
  (let r := GNewsService.main env_no_channel 1 initial in
   exits_nonzero r.1 ∧
   count is_connection_opened (trace r.2) = 5%nat ∧
   count is_connection_close (trace r.2) = 0%nat).
Proof.
  split; cbn zeta.
  - split_and!; [|vm_compute; reflexivity..].
    exists 1. split; [vm_compute; reflexivity | done].
  - split_and!; [|vm_compute; reflexivity..].
    exists 1. split; [vm_compute; reflexivity | done].
Qed.

(** ** Publishing each new item once *)

Lemma forallb_of_Forall {A} (f : A → bool) l :
  Forall (λ x, f x = true) l → forallb f l = true.
Proof. induction 1 as [|x l Hx _ IH]; simpl; [done|]. by rewrite Hx, IH. Qed.

Lemma connect_event_quiet ev : is_connect_event ev = true → quiet ev = true.
Proof. by destruct ev as [[]| | | | | | | | | |]. Qed.

Section Dedup.
Context (env : Env).

Lemma connect_quiet ex q s :
  ∃ evs, trace (connect_rabbitmq_on env ex q s).2 = trace s ++ evs ∧
         forallb quiet evs = true.
Proof.
  destruct (traced_connect_events env (λ ev, quiet ev = true)
              connect_event_quiet ex q s) as (evs & Ht & Hall & _).
  exists evs. split; [done|]. by apply forallb_of_Forall.
Qed.

(** What the publish method adds to the log: the [json.dumps] call, then
    at most one [basic_publish], then nothing that matters to the cache. *)
Lemma publish_on_shape ex q published failed d s :
  ∃ rd rest,
    trace (publish_on env ex q published failed d s).2
    = trace s ++ EvJsonDumps d rd :: rest ∧
    (forallb quiet rest = true ∨
     ∃ c rp rest2, rest = EvBroker c rp :: rest2 ∧
                   is_basic_publish (EvBroker c rp) = true ∧
                   forallb quiet rest2 = true).
Proof.
  unfold publish_on, try_except, bind, json_dumps, get, pika_call, log, modify,
    raise, except_Exception, of_reply. cbn zeta.
  exists (env_json_dumps env d).
  destruct (env_json_dumps env d) as [body|[cls msg|]]; simpl.
  - destruct (channel s) as [ch|]; simpl.
    + destruct (env_pika env _ _) as [[]|[cls msg|]] eqn:Hp; simpl.
      * eexists [_; _]. rewrite <- !app_assoc. split; [done|].
        right. eexists _, _, _. split_and!; [done..|]. reflexivity.
      * destruct (connect_quiet ex q
            (emit (EvLog ERROR (failed +:+ msg))
               (emit (EvBroker (BasicPublish ch ex "" body 2 "application/json")
                        (Raises (PyException cls msg)))
                  (emit (EvJsonDumps d (Returns body)) s)))) as (evs & -> & Hq).
        eexists (_ :: _ :: evs). simpl. rewrite <- !app_assoc. split; [done|].
        right. eexists _, _, _. split_and!; [done..|]. exact Hq.
      * eexists [_]. rewrite <- !app_assoc. split; [done|].
        right. eexists _, _, _. split_and!; done.
    + destruct (connect_quiet ex q
          (emit (EvLog ERROR (failed +:+ "'NoneType' object has no attribute 'basic_publish'"))
             (emit (EvJsonDumps d (Returns body)) s))) as (evs & -> & Hq).
      eexists (_ :: evs). simpl. rewrite <- !app_assoc. split; [done|].
      left. exact Hq.
  - destruct (connect_quiet ex q
        (emit (EvLog ERROR (failed +:+ msg))
           (emit (EvJsonDumps d (Raises (PyException cls msg))) s)))
      as (evs & -> & Hq).
    eexists (_ :: evs). simpl. rewrite <- !app_assoc. split; [done|].
    left. exact Hq.
  - exists []. split; [done|]. by left.
Qed.

Lemma quiet_events u evs :
  forallb quiet evs = true →
  count (is_publish_call_for u) evs = 0%nat ∧
  existsb is_prune evs = false ∧ existsb is_get_news evs = false ∧
  existsb is_failed_publish evs = false ∧ existsb is_delivered evs = false ∧
  existsb (fetched u) evs = false.
Proof.
  induction evs as [|ev evs IH]; simpl; [done|].
  intros [Hev Hevs]%andb_prop. destruct (IH Hevs) as (H1 & H2 & H3 & H4 & H5 & H6).
  rewrite H2, H3, H4, H5, H6.
  unfold count in *. rewrite filter_cons.
  destruct ev as [[]| | | | | | | | | |]; simpl in *; try done;
    by destruct r.
Qed.

(** The publish method as the cache sees it: one call for the record's URL,
    no prune, no fetch, and a failed write is not followed by a delivery. *)
Lemma publish_news_events u d v s :
  dict_get "url" PyNone d = PyStr v →
  ∃ evs,
    trace (GNewsService.publish_news env d s).2 = trace s ++ evs ∧
    processed_urls (GNewsService.publish_news env d s).2 = processed_urls s ∧
    count (is_publish_call_for u) evs = (if bool_decide (v = u) then 1 else 0)%nat ∧
    existsb is_prune evs = false ∧ existsb is_get_news evs = false ∧
    existsb (fetched u) evs = false ∧
    (existsb is_failed_publish evs = true → existsb is_delivered evs = false).
Proof.
  intros Hd. unfold GNewsService.publish_news.
  destruct (publish_on_shape "market_news" "news_queue"
              (λ d, "Published news: " +:+ py_str (dict_get "title" (PyStr "N/A") d))
              "Error publishing news: " d s) as (rd & rest & Ht & Hrest).
  eexists. split; [exact Ht|]. split.
  { symmetry. apply (kept_publish_on env (λ u, processed_urls s = u)). done. }
  assert (Hcall : is_publish_call_for u (EvJsonDumps d rd) = bool_decide (v = u)).
  { simpl. by rewrite Hd. }
  change (EvJsonDumps d rd :: rest) with ([EvJsonDumps d rd] ++ rest).
  rewrite count_app, !existsb_app.
  assert (Hone : count (is_publish_call_for u) [EvJsonDumps d rd]
                 = (if bool_decide (v = u) then 1 else 0)%nat).
  { unfold count. rewrite filter_cons, Hcall. by destruct (bool_decide (v = u)). }
  rewrite Hone. simpl existsb.
  destruct Hrest as [Hq|(c & rp & rest2 & -> & Hc & Hq)].
  - destruct (quiet_events u _ Hq) as (-> & -> & -> & -> & -> & ->).
    split_and!; [lia|done..].
  - destruct (quiet_events u _ Hq) as (H1 & H2 & H3 & H4 & H5 & H6).
    change (EvBroker c rp :: rest2) with ([EvBroker c rp] ++ rest2).
    rewrite count_app, !existsb_app, H1, H2, H3, H4, H5, H6.
    destruct c; try done. destruct rp; simpl; split_and!; try done; lia.
Qed.

Lemma handle_article_go topic a s :
  default "" (a_url a) ≠ "" → default "" (a_url a) ∉ processed_urls s →
  GNewsService.handle_article env topic a s
  = (GNewsService.publish_news env
       (GNewsService.news_data_of a topic (env_utcnow env (trace s))
          (env_utcnow env (trace s ++ [EvUtcNow (env_utcnow env (trace s))]))) >>
     GNewsService.mark env (default "" (a_url a)))
      (emit (EvUtcNow (env_utcnow env (trace s ++ [EvUtcNow (env_utcnow env (trace s))])))
         (emit (EvUtcNow (env_utcnow env (trace s))) s)).
Proof.
  intros H1 H2. unfold GNewsService.handle_article. cbn zeta.
  unfold bind at 1. unfold get at 1. cbv beta iota.
  rewrite (bool_decide_eq_true_2 _ H1), (bool_decide_eq_true_2 _ H2).
  reflexivity.
Qed.

Lemma count_cons_false f ev evs :
  f ev = false → count f (ev :: evs) = count f evs.
Proof. intros H. unfold count. rewrite filter_cons_False; [done|congruence]. Qed.

(** [mark], as the log and the cache see it. *)
Lemma mark_spec u v s :
  ∃ evm,
    GNewsService.mark env v s = (Ok tt, (GNewsService.mark env v s).2) ∧
    trace (GNewsService.mark env v s).2 = trace s ++ evm ∧
    count (is_publish_call_for u) evm = 0%nat ∧
    existsb is_get_news evm = false ∧ existsb (fetched u) evm = false ∧
    existsb is_failed_publish evm = false ∧ existsb is_delivered evm = false ∧
    (existsb is_prune evm = false →
     processed_urls (GNewsService.mark env v s).2 = {[v]} ∪ processed_urls s) ∧
    (existsb is_prune evm = true →
     size (processed_urls (GNewsService.mark env v s).2) = 5000%nat ∧
     processed_urls (GNewsService.mark env v s).2 ⊆ {[v]} ∪ processed_urls s).
Proof.
  rewrite mark_eq. cbn zeta.
  destruct (Z.gtb_spec (Z.of_nat (size ({[v]} ∪ processed_urls s))) 10000) as [Hbig|Hok].
  - eexists [_]. split_and!; try done. intros _. by apply pruned_cache.
  - exists []. rewrite app_nil_r. split_and!; done.
Qed.

(** The log of one article that is handled: two clock readings, the
    publish method, the mark. *)
Lemma article_events u v t1 t2 evp evm :
  count (is_publish_call_for u) evp = (if bool_decide (v = u) then 1 else 0)%nat →
  existsb is_prune evp = false → existsb is_get_news evp = false →
  existsb (fetched u) evp = false →
  (existsb is_failed_publish evp = true → existsb is_delivered evp = false) →
  count (is_publish_call_for u) evm = 0%nat →
  existsb is_get_news evm = false → existsb (fetched u) evm = false →
  existsb is_failed_publish evm = false → existsb is_delivered evm = false →
  let evs := EvUtcNow t1 :: EvUtcNow t2 :: evp ++ evm in
  existsb is_get_news evs = false ∧ existsb (fetched u) evs = false ∧
  count (is_publish_call_for u) evs = (if bool_decide (v = u) then 1 else 0)%nat ∧
  (existsb is_failed_publish evs = true → existsb is_delivered evs = false) ∧
  existsb is_prune evs = existsb is_prune evm.
Proof.
  intros Hc Hp Hn Hf Hfail Hcm Hnm Hfm Hfailm Hdm. cbn zeta.
  rewrite !count_cons_false by done. simpl.
  rewrite !existsb_app, count_app, Hc, Hp, Hn, Hf, Hcm, Hnm, Hfm, Hfailm, Hdm.
  rewrite !orb_false_r. split_and!; [done..|lia|done|done].
Qed.

(** One article, as the cache sees it. *)
Lemma handle_article_spec u topic a s r s' :
  GNewsService.handle_article env topic a s = (r, s') →
  let v := default "" (a_url a) in
  ∃ evs,
    trace s' = trace s ++ evs ∧
    existsb is_get_news evs = false ∧ existsb (fetched u) evs = false ∧
    count (is_publish_call_for u) evs
    = (if bool_decide (v = u ∧ v ≠ "" ∧ v ∉ processed_urls s) then 1 else 0)%nat ∧
    (existsb is_failed_publish evs = true →
     existsb is_delivered evs = false ∧ v ≠ "" ∧ v ∉ processed_urls s) ∧
    (existsb is_prune evs = false →
     (r = Ok tt → v ≠ "" → processed_urls s' = {[v]} ∪ processed_urls s) ∧
     (r ≠ Ok tt ∨ v = "" → processed_urls s' = processed_urls s)) ∧
    (existsb is_prune evs = true →
     size (processed_urls s') = 5000%nat ∧
     processed_urls s' ⊆ {[v]} ∪ processed_urls s).
Proof.
  cbn zeta. set (v := default "" (a_url a)).
  destruct (decide (v = "" ∨ v ∈ processed_urls s)) as [Hskip|Hgo].
  - rewrite handle_article_skip by done. intros [= <- <-].
    exists []. rewrite app_nil_r. split_and!; [done..| |done| |done].
    + rewrite bool_decide_eq_false_2; [done|]. intros (_ & ? & ?). tauto.
    + intros _. split; [|done]. intros _ Hv. destruct Hskip as [?|Hin]; [done|].
      symmetry. by apply subseteq_union_1_L, singleton_subseteq_l.
  - assert (Hv : v ≠ "") by tauto. assert (Hnin : v ∉ processed_urls s) by tauto.
    rewrite handle_article_go by done. fold v.
    set (t1 := env_utcnow env (trace s)).
    set (t2 := env_utcnow env (trace s ++ [EvUtcNow t1])).
    set (s2 := emit (EvUtcNow t2) (emit (EvUtcNow t1) s)).
    set (d := GNewsService.news_data_of a topic t1 t2).
    destruct (publish_news_events u d v s2 eq_refl)
      as (evp & Htp & Hcp & Hcount & Hprune & Hnews & Hfetch & Hfail).
    rewrite (bool_decide_ext (v = u ∧ v ≠ "" ∧ v ∉ processed_urls s) (v = u))
      by tauto.
    assert (Hs2 : trace s2 = trace s ++ [EvUtcNow t1; EvUtcNow t2]).
    { subst s2. simpl. by rewrite <- app_assoc. }
    unfold bind.
    destruct (GNewsService.publish_news env d s2) as [[[]|e|] s3]; simpl in *.
    + destruct (mark_spec u v s3)
        as (evm & Hm & Htm & Hcm & Hnm & Hfm & Hfailm & Hdm & Hcache & Hpruned).
      rewrite Hm. intros [= <- <-].
      destruct (article_events u v t1 t2 evp evm)
        as (H1 & H2 & H3 & H4 & H5); try done.
      exists (EvUtcNow t1 :: EvUtcNow t2 :: evp ++ evm).
      split; [by rewrite Htm, Htp, Hs2, <- !app_assoc|].
      split_and!; [done..| | |].
      * intros H. by rewrite (H4 H).
      * rewrite H5. intros Hnp. split; [|by intros [?|?]].
        intros _ _. by rewrite (Hcache Hnp), Hcp.
      * rewrite H5. intros Hp. rewrite <- Hcp. by apply Hpruned.
    + intros [= <- <-].
      destruct (article_events u v t1 t2 evp [])
        as (H1 & H2 & H3 & H4 & H5); try done.
      rewrite app_nil_r in *.
      exists (EvUtcNow t1 :: EvUtcNow t2 :: evp).
      split; [by rewrite Htp, Hs2, <- !app_assoc|].
      split_and!; [done..| | |].
      * intros H. by rewrite (H4 H).
      * intros _. split; [done|]. intros _. by rewrite Hcp.
      * rewrite H5. done.
    + intros [= <- <-].
      destruct (article_events u v t1 t2 evp [])
        as (H1 & H2 & H3 & H4 & H5); try done.
      rewrite app_nil_r in *.
      exists (EvUtcNow t1 :: EvUtcNow t2 :: evp).
      split; [by rewrite Htp, Hs2, <- !app_assoc|].
      split_and!; [done..| | |].
      * intros H. by rewrite (H4 H).
      * intros _. split; [done|]. intros _. by rewrite Hcp.
      * rewrite H5. done.
Qed.

(** *** From one article to a cycle *)

Lemma once_per_url_quiet u (m : M unit) :
  (∀ s, processed_urls (m s).2 = processed_urls s) →
  traced (λ ev, quiet ev = true) m →
  once_per_url env u m.
Proof.
  intros Hcache Hq s r s' Hm.
  destruct (Hq s) as (evs & Ht & Hall & _). specialize (Hcache s).
  rewrite Hm in *. simpl in *.
  exists evs. split; [done|]. intros _.
  destruct (quiet_events u evs (forallb_of_Forall _ _ Hall))
    as (Hc & _ & _ & _ & _ & Hf).
  rewrite Hcache, Hc, Hf. split_and!; [done..| |done].
  intros _ Hnin. by rewrite bool_decide_eq_false_2.
Qed.

Lemma once_per_url_bind u (m k : M unit) :
  once_per_url env u m → once_per_url env u k → once_per_url env u (m >> k).
Proof.
  intros Hm Hk s r s'. unfold bind.
  destruct (m s) as [r1 s1] eqn:Hms.
  destruct (Hm s r1 s1 Hms) as (evs1 & Ht1 & H1).
  destruct r1 as [[]|e|].
  - intros Hks. destruct (Hk s1 r s' Hks) as (evs2 & Ht2 & H2).
    exists (evs1 ++ evs2). split; [by rewrite Ht2, Ht1, app_assoc|].
    rewrite existsb_app, count_app. intros [Hp1 Hp2]%orb_false_elim.
    destruct (H1 Hp1) as (Hsub1 & Ha1 & Hb1 & Hf1).
    destruct (H2 Hp2) as (Hsub2 & Ha2 & Hb2 & Hf2).
    split_and!.
    + by etrans.
    + intros Hin. rewrite Ha1, Ha2; [done| |done]. by apply Hsub1.
    + intros Hr Hnin. rewrite (Hb1 eq_refl Hnin).
      destruct (decide (u ∈ processed_urls s1)) as [Hin1|Hnin1].
      * rewrite (bool_decide_eq_true_2 _ Hin1), (Ha2 Hin1).
        rewrite bool_decide_eq_true_2; [done|]. by apply Hsub2.
      * rewrite (bool_decide_eq_false_2 _ Hnin1). by rewrite (Hb2 Hr Hnin1).
    + intros Hr Hu. rewrite existsb_app. intros [Hf|Hf]%orb_prop.
      * specialize (Hf1 eq_refl Hu Hf). by apply Hsub2.
      * by apply Hf2.
  - intros [= <- <-]. exists evs1. split; [done|]. intros Hp.
    destruct (H1 Hp) as (Hsub1 & Ha1 & Hb1 & Hf1). by split_and!.
  - intros [= <- <-]. exists evs1. split; [done|]. intros Hp.
    destruct (H1 Hp) as (Hsub1 & Ha1 & Hb1 & Hf1). by split_and!.
Qed.

Lemma once_per_url_ret u : once_per_url env u (ret tt).
Proof.
  intros s r s' [= <- <-]. exists []. rewrite app_nil_r. split; [done|].
  intros _. split_and!; [done..| |done].
  intros _ Hnin. by rewrite bool_decide_eq_false_2.
Qed.

Lemma once_per_url_for_each {A} u (l : list A) (body : A → M unit) :
  (∀ x, once_per_url env u (body x)) → once_per_url env u (for_each l body).
Proof.
  intros Hb. induction l as [|x l IH]; simpl.
  - apply once_per_url_ret.
  - by apply once_per_url_bind.
Qed.

Lemma once_per_url_article u topic a :
  once_per_url env u (GNewsService.handle_article env topic a).
Proof.
  intros s r s' Hrun.
  destruct (handle_article_spec u topic a s r s' Hrun)
    as (evs & Ht & _ & Hfetch & Hcount & _ & Hkeep & _).
  exists evs. split; [done|]. intros Hp. destruct (Hkeep Hp) as [Hok Hnot].
  set (v := default "" (a_url a)) in *.
  rewrite Hcount, Hfetch.
  assert (Hcases : r = Ok tt ∧ v ≠ "" ∨ (r ≠ Ok tt ∨ v = "")).
  { destruct r as [[]|e|]; [|by right; left..].
    destruct (decide (v = "")); [right; by right | left; done]. }
  destruct Hcases as [[Hr Hv]|Hother].
  - rewrite (Hok Hr Hv). split_and!; [apply union_subseteq_r| | |done].
    + intros Hin. rewrite bool_decide_eq_false_2; [done|]. by intros (-> & _ & ?).
    + intros _ Hnin. destruct (decide (v = u)) as [->|Hvu].
      * rewrite !bool_decide_eq_true_2; [done| | done].
        apply elem_of_union. left. by apply elem_of_singleton.
      * rewrite !bool_decide_eq_false_2; [done| | tauto].
        rewrite elem_of_union, elem_of_singleton. by intros [?|?].
  - rewrite (Hnot Hother). split_and!; [done| | |done].
    + intros Hin. rewrite bool_decide_eq_false_2; [done|]. by intros (-> & _ & ?).
    + intros Hr Hnin. destruct Hother as [?|Hv]; [done|].
      rewrite !bool_decide_eq_false_2; [done..|]. by intros (_ & ? & _).
Qed.

Lemma traced_sleep_quiet secs : traced (λ ev, quiet ev = true) (sleep env secs).
Proof. by apply traced_sleep. Qed.

Lemma once_per_url_sleep u secs : once_per_url env u (sleep env secs).
Proof. apply once_per_url_quiet; [done | apply traced_sleep_quiet]. Qed.

Lemma once_per_url_log u lvl msg : once_per_url env u (log lvl msg).
Proof. apply once_per_url_quiet; [done | by apply traced_log]. Qed.

(** A loop over articles that ends normally without a prune has every
    article's URL in the cache. *)
Lemma articles_marked topic arts s s' :
  for_each arts (GNewsService.handle_article env topic) s = (Ok tt, s') →
  existsb is_prune (events_since s s') = false →
  ∀ a, a ∈ arts → default "" (a_url a) ≠ "" →
       default "" (a_url a) ∈ processed_urls s'.
Proof.
  revert s. induction arts as [|a1 arts IH]; intros s Hrun Hp a Ha Hv.
  { by apply elem_of_nil in Ha. }
  rewrite for_each_cons in Hrun.
  destruct (GNewsService.handle_article env topic a1 s) as [r1 s1] eqn:H1.
  destruct r1 as [[]|e|]; [|done..].
  destruct (handle_article_spec "" topic a1 s _ _ H1)
    as (evs1 & Ht1 & _ & _ & _ & _ & Hkeep & _).
  destruct (once_per_url_for_each "" arts _ (once_per_url_article "" topic)
              s1 _ _ Hrun) as (evs2 & Ht2 & H2).
  rewrite (events_since_app s s' (evs1 ++ evs2)) in Hp
    by (by rewrite Ht2, Ht1, app_assoc).
  rewrite existsb_app in Hp. apply orb_false_elim in Hp as [Hp1 Hp2].
  apply elem_of_cons in Ha as [->|Ha].
  - destruct (Hkeep Hp1) as [Hok _]. destruct (H2 Hp2) as (Hsub & _).
    apply Hsub. rewrite (Hok eq_refl Hv).
    apply elem_of_union. left. by apply elem_of_singleton.
  - apply (IH s1); [done| |done..].
    by rewrite (events_since_app _ _ _ Ht2).
Qed.

Lemma fetched_article u topic arts :
  fetched u (EvGetNews topic (Returns arts)) = true →
  ∃ a, a ∈ arts ∧ default "" (a_url a) = u.
Proof.
  simpl. intros (a & Hin & Ha)%existsb_exists.
  exists a. split; [by apply list_elem_of_In|]. by apply bool_decide_eq_true in Ha.
Qed.

(** The articles of one topic and the pause after them. *)
Lemma topic_articles u topic arts s r s' :
  (for_each arts (GNewsService.handle_article env topic) >> sleep env 2) s
  = (r, s') →
  ∃ evs, trace s' = trace s ++ evs ∧
    (existsb is_prune evs = false →
     processed_urls s ⊆ processed_urls s' ∧
     (u ∈ processed_urls s → count (is_publish_call_for u) evs = 0%nat) ∧
     (r = Ok tt → u ∉ processed_urls s →
      count (is_publish_call_for u) evs
      = (if bool_decide (u ∈ processed_urls s') then 1 else 0)%nat) ∧
     (r = Ok tt → u ≠ "" →
      existsb (fetched u) evs = true ∨
      (∃ a, a ∈ arts ∧ default "" (a_url a) = u) →
      u ∈ processed_urls s')).
Proof.
  intros Hrun.
  destruct (once_per_url_bind u _ _
              (once_per_url_for_each u arts _ (once_per_url_article u topic))
              (once_per_url_sleep u 2) s r s' Hrun) as (evs & Ht & H).
  exists evs. split; [done|]. intros Hp.
  destruct (H Hp) as (Hsub & Ha & Hb & Hf). split_and!; [done..|].
  intros Hr Hu [Hfetched|(a & Hin & Hurl)]; [by apply Hf|].
  subst r. unfold bind in Hrun.
  destruct (for_each arts _ s) as [ra sa] eqn:Hloop.
  destruct ra as [[]|e|]; [|done..].
  destruct (once_per_url_for_each u arts _ (once_per_url_article u topic)
              s _ _ Hloop) as (evsa & Hta & _).
  assert (Hs' : s' = emit (EvSleep 2 (Returns tt)) sa).
  { unfold sleep in Hrun. simpl in Hrun.
    destruct (env_sleep env (trace sa) 2); by simplify_eq/=. }
  assert (Hevs : evs = evsa ++ [EvSleep 2 (Returns tt)]).
  { apply (app_inv_head (trace s)). rewrite <- Ht, Hs'. simpl.
    by rewrite Hta, <- app_assoc. }
  rewrite Hevs, existsb_app in Hp. apply orb_false_elim in Hp as [Hpa _].
  rewrite Hs'. simpl. rewrite <- Hurl.
  apply (articles_marked topic arts s sa Hloop); [|done|by rewrite Hurl].
  by rewrite (events_since_app _ _ _ Hta).
Qed.

Lemma once_per_url_topic u topic :
  once_per_url env u (GNewsService.handle_topic env topic).
Proof.
  intros s r s'. unfold GNewsService.handle_topic. unfold bind at 1.
  rewrite fetch_news_eq. cbn zeta.
  set (s0 := emit (EvLog INFO _) s).
  destruct (env_get_news env (trace s0) topic) as [arts|[cls msg|]] eqn:Hnews.
  - intros Hrun. destruct (topic_articles u topic arts _ _ _ Hrun)
      as (evs & Ht & H).
    exists ([EvLog INFO ("Fetching news for topic: " +:+ topic);
             EvGetNews topic (Returns arts)] ++ evs).
    split; [rewrite Ht; subst s0; simpl; by rewrite <- !app_assoc|].
    rewrite existsb_app, count_app.
    change (existsb is_prune [_; _]) with false.
    change (count (is_publish_call_for u) [_; _]) with 0%nat.
    simpl orb. intros Hp. destruct (H Hp) as (Hsub & Ha & Hb & Hf).
    split_and!; [done..|].
    intros Hr Hu. rewrite existsb_app. intros [Hhead|Htail]%orb_prop.
    + apply Hf; [done..|]. right.
      apply (fetched_article u topic). simpl in *. by rewrite orb_false_r in Hhead.
    + apply Hf; [done..|]. by left.
  - intros Hrun. destruct (topic_articles u topic [] _ _ _ Hrun)
      as (evs & Ht & H).
    exists ([EvLog INFO ("Fetching news for topic: " +:+ topic);
             EvGetNews topic (Raises (PyException cls msg));
             EvLog ERROR ("Error fetching news for " +:+ topic +:+ ": " +:+ msg)]
            ++ evs).
    split; [rewrite Ht; subst s0; simpl; by rewrite <- !app_assoc|].
    rewrite existsb_app, count_app.
    change (existsb is_prune [_; _; _]) with false.
    change (count (is_publish_call_for u) [_; _; _]) with 0%nat.
    simpl orb. intros Hp. destruct (H Hp) as (Hsub & Ha & Hb & Hf).
    split_and!; [done..|].
    intros Hr Hu. rewrite existsb_app. intros [Hhead|Htail]%orb_prop; [done|].
    apply Hf; [done..|]. by left.
  - intros [= <- <-].
    exists [EvLog INFO ("Fetching news for topic: " +:+ topic);
            EvGetNews topic (Raises KeyboardInterrupt)].
    split; [subst s0; simpl; by rewrite <- !app_assoc|].
    intros _. split_and!; done.
Qed.

Lemma once_per_url_cycle u : once_per_url env u (GNewsService.cycle env).
Proof.
  unfold GNewsService.cycle.
  apply once_per_url_bind; [|apply once_per_url_bind].
  - apply once_per_url_for_each. intros topic. apply once_per_url_topic.
  - apply once_per_url_log.
  - apply once_per_url_sleep.
Qed.
End Dedup.

(** ** A record whose publish failed *)

(** C10.  Take an article that [handle_article] has handled normally while
    the log shows that its [basic_publish] failed: the error was swallowed
    and the reconnect inside [publish_news] went through.  The article was
    new (its URL is not empty and was not in the cache), [publish_news] was
    entered once for it and the broker took no message; yet its URL has been
    added to the cache: the cache is the old one with the URL in, or, when
    that [add] took it over the ceiling, the 5000 entries the prune kept of
    that.  From then on, in any state whose cache holds the URL, an article
    with that URL is skipped with nothing published. *)
Theorem failed_publish_still_marks_url env topic a s s' :
  let url := default "" (a_url a) in
  GNewsService.handle_article env topic a s = (Ok tt, s') →
  existsb is_failed_publish (events_since s s') = true →
  url ≠ "" ∧ (url ∉ processed_urls s) ∧
  count (is_publish_call_for url) (events_since s s') = 1%nat ∧
  existsb is_delivered (events_since s s') = false ∧
  (if existsb is_prune (events_since s s')
   then size (processed_urls s') = 5000%nat ∧
        processed_urls s' ⊆ {[url]} ∪ processed_urls s
   else processed_urls s' = {[url]} ∪ processed_urls s) ∧
  ∀ topic' a' s'',
    default "" (a_url a') = url → url ∈ processed_urls s'' →
    GNewsService.handle_article env topic' a' s'' = (Ok tt, s'').
Proof.
  cbn zeta. intros Hrun Hfailed.
  destruct (handle_article_spec env (default "" (a_url a)) topic a s _ _ Hrun)
    as (evs & Ht & _ & _ & Hcount & Hfail & Hkeep & Hpruned).
  rewrite (events_since_app _ _ _ Ht) in *.
  destruct (Hfail Hfailed) as (Hdel & Hne & Hnew).
  split_and!; [done..| | | |].
  - rewrite Hcount. by rewrite bool_decide_eq_true_2.
  - done.
  - destruct (existsb is_prune evs) eqn:Hp.
    + by apply Hpruned.
    + by apply Hkeep.
  - intros topic' a' s'' Hurl Hin. apply handle_article_skip.
    right. by rewrite Hurl.
Qed.

Lemma failed_publish_witness :
  let s := connected env_first_write_fails in
  let s' := (GNewsService.handle_article env_first_write_fails "bitcoin" article_x1 s).2 in
  ("https://x/1" ∈ processed_urls s') ∧
  existsb is_delivered (events_since s s') = false ∧
  GNewsService.handle_article env_first_write_fails "bitcoin" article_x1 s'
  = (Ok tt, s').
Proof.
  intros s s'.
  destruct (failed_publish_still_marks_url env_first_write_fails "bitcoin"
              article_x1 s s')
    as (_ & _ & _ & Hdel & Hcache & Hlater).
  - subst s'. vm_compute. reflexivity.
  - vm_compute. reflexivity.
  - assert (Hp : existsb is_prune (events_since s s') = false)
      by (vm_compute; reflexivity).
    rewrite Hp in Hcache.
    assert (Hin : "https://x/1" ∈ processed_urls s').
    { rewrite Hcache. apply elem_of_union. left. by apply elem_of_singleton. }
    split_and!; [done..|]. by apply Hlater.
Defined.

(** ** Each new item once *)

Lemma count_quiet f evs :
  (∀ ev, quiet ev = true → f ev = false) →
  forallb quiet evs = true → count f evs = 0%nat.
Proof.
  intros Hf Hq. apply count_none. apply Forall_forall. intros ev Hin.
  apply Hf. rewrite forallb_forall in Hq. apply Hq. by apply list_elem_of_In.
Qed.

Lemma symbol_call_not_quiet symbol ev :
  quiet ev = true → is_publish_call_for_symbol symbol ev = false.
Proof. by destruct ev as [[]| | | | | | | | | |]. Qed.

Section Fundamentals.
Context (env : Env).

(** A scrape that goes through. *)
Lemma scrape_stock_ok symbol s :
  let url := StatusInvestScraper.BASE_URL +:+ "/" +:+ py_lower symbol in
  env_http env (trace s ++ [EvLog INFO ("Scraping data for " +:+ symbol
                                        +:+ " from " +:+ url)]) url = Returns tt →
  ∃ data evs,
    StatusInvestScraper.scrape_stock env symbol s
    = (Ok (Some (("symbol", PyStr symbol) :: data)),
       (StatusInvestScraper.scrape_stock env symbol s).2) ∧
    trace (StatusInvestScraper.scrape_stock env symbol s).2 = trace s ++ evs ∧
    forallb quiet evs = true.
Proof.
  cbn zeta. intros Hhttp.
  unfold StatusInvestScraper.scrape_stock, StatusInvestScraper._extract_indicator,
    try_except, bind, log, modify, http_get, utcnow_isoformat,
    except_Exception, of_reply, ret. cbn zeta. simpl.
  rewrite Hhttp. simpl.
  eexists _, [_; _; _; _; _; _; _; _; _].
  split; [reflexivity|]. rewrite <- !app_assoc. split; reflexivity.
Qed.

(** The scraper keeps no record of what it has published: whatever the
    state, a symbol whose scrape goes through is published. *)
Lemma handle_symbol_publishes symbol s :
  let url := StatusInvestScraper.BASE_URL +:+ "/" +:+ py_lower symbol in
  env_http env (trace s ++ [EvLog INFO ("Scraping data for " +:+ symbol
                                        +:+ " from " +:+ url)]) url = Returns tt →
  count (is_publish_call_for_symbol symbol)
    (events_since s (StatusInvestScraper.handle_symbol env symbol s).2) = 1%nat.
Proof.
  cbn zeta. intros Hhttp.
  destruct (scrape_stock_ok symbol s Hhttp) as (data & evs1 & Hs & Ht1 & Hq1).
  unfold StatusInvestScraper.handle_symbol. unfold bind at 1. rewrite Hs.
  set (s1 := (StatusInvestScraper.scrape_stock env symbol s).2) in *.
  set (d := ("symbol", PyStr symbol) :: data).
  unfold StatusInvestScraper.publish_data.
  destruct (publish_on_shape env "fundamental_data" "fundamentals_queue"
              (λ d, "Published fundamental data for "
                    +:+ py_str (dict_get "symbol" (PyStr "N/A") d))
              "Error publishing data: " d s1) as (rd & rest & Ht2 & Hrest).
  assert (Hrest0 : count (is_publish_call_for_symbol symbol) rest = 0%nat).
  { destruct Hrest as [Hq|(c & rp & rest2 & -> & Hc & Hq)].
    - by apply count_quiet; [apply symbol_call_not_quiet|].
    - rewrite count_cons_false by done.
      by apply count_quiet; [apply symbol_call_not_quiet|]. }
  assert (Hpub : count (is_publish_call_for_symbol symbol)
                   (evs1 ++ EvJsonDumps d rd :: rest) = 1%nat).
  { rewrite count_app, (count_quiet _ evs1 (symbol_call_not_quiet symbol) Hq1).
    change (EvJsonDumps d rd :: rest) with ([EvJsonDumps d rd] ++ rest).
    rewrite count_app, Hrest0. unfold count. rewrite filter_cons_True; [done|].
    simpl. by rewrite bool_decide_eq_true_2. }
  unfold bind.
  destruct (publish_on env _ _ _ _ d s1) as [[[]|e|] s2]; simpl in *.
  - unfold sleep. simpl.
    erewrite events_since_app; [|simpl; rewrite Ht2, Ht1, <- !app_assoc; reflexivity].
    rewrite app_assoc, count_app, Hpub. by destruct (env_sleep env _ 3).
  - erewrite events_since_app; [|rewrite Ht2, Ht1, <- !app_assoc; reflexivity].
    exact Hpub.
  - erewrite events_since_app; [|rewrite Ht2, Ht1, <- !app_assoc; reflexivity].
    exact Hpub.
Qed.
End Fundamentals.

(** * Further properties of the code *)

(** ** How much a connect can do *)

Lemma sleeps_app evs1 evs2 : sleeps (evs1 ++ evs2) = sleeps evs1 ++ sleeps evs2.
Proof. apply omap_app. Qed.

Section ConnectBounds.
Context (env : Env).

(** One attempt is one [BlockingConnection] call and at most one pause,
    which it takes only when it hands over to a next attempt. *)
Lemma attempt_bounds ex q k s r s' :
  try_except (connect_attempt env ex q >> ret (Some tt))
    (except_Exception (connect_failed env k)) s = (r, s') →
  ∃ evs, trace s' = trace s ++ evs ∧
    count is_connection_attempt evs = 1%nat ∧
    forallb is_connect_event evs = true ∧
    match r with
    | Ok (Some _) => sleeps evs = []
    | Ok None => sleeps evs = [5] ∧ k < max_retries - 1
    | Raise _ => sleeps evs = [] ∨ sleeps evs = [5] ∧ k < max_retries - 1
    | OutOfFuel => False
    end.
Proof.
  unfold try_except, connect_attempt, connect_failed, bind, fresh, pika_call,
    log, modify, ret, raise, sleep, except_Exception, of_reply.
  cbn zeta. intros H.
  repeat (case_match; simplify_eq/=);
    (eexists; split; [by rewrite <- ?app_assoc|]);
    (split; [reflexivity|]); (split; [reflexivity|]);
    first [ reflexivity | by left | right; split; [reflexivity|lia]
          | split; [reflexivity|lia] ].
Qed.

Lemma connect_loop_bounds ex q l s r s' :
  for_in l (λ attempt,
    try_except (connect_attempt env ex q >> ret (Some tt))
      (except_Exception (connect_failed env attempt))) s = (r, s') →
  ∃ evs, trace s' = trace s ++ evs ∧
    forallb is_connect_event evs = true ∧
    (count is_connection_attempt evs ≤ length l)%nat ∧
    (l ≠ [] → 1 ≤ count is_connection_attempt evs)%nat ∧
    Forall (eq 5) (sleeps evs) ∧
    (length (sleeps evs) ≤ length (filter (λ k : Z, (k < max_retries - 1)%Z) l))%nat ∧
    match r with
    | Ok (Some _) =>
        (length (sleeps evs) + 1 = count is_connection_attempt evs)%nat
    | Ok None => length (sleeps evs) = count is_connection_attempt evs
    | Raise _ => (length (sleeps evs) ≤ count is_connection_attempt evs)%nat
    | OutOfFuel => False
    end.
Proof.
  revert s. induction l as [|k l IH]; intros s; simpl.
  { intros [= <- <-]. exists []. rewrite app_nil_r. by split_and!. }
  unfold bind at 1.
  destruct (try_except _ _ s) as [r1 s1] eqn:H1.
  destruct (attempt_bounds ex q k s r1 s1 H1) as (evs1 & Ht1 & Hc1 & Hq1 & Hr1).
  assert (Hfilter : ∀ n, (n ≤ length (filter (λ k : Z, (k < max_retries - 1)%Z) l))%nat →
                    (n ≤ length (filter (λ k : Z, (k < max_retries - 1)%Z) (k :: l)))%nat).
  { intros n Hn. rewrite filter_cons. case_decide; simpl; lia. }
  destruct r1 as [[[]|]|e|]; [| | |done].
  - intros [= <- <-]. exists evs1. rewrite Hc1, Hr1. simpl.
    split_and!; try done; try lia; try (apply Hfilter; lia).
  - intros Hrest. destruct (IH s1 Hrest) as (evs2 & Ht2 & Hq2 & Hc2 & _ & Hs2 & Hf2 & Hr2).
    destruct Hr1 as [Hs1 Hk].
    exists (evs1 ++ evs2). rewrite Ht2, Ht1, <- app_assoc.
    rewrite forallb_app, count_app, sleeps_app, Hq1, Hq2, Hc1, Hs1.
    split_and!; try done; simpl; try lia;
      try (by constructor);
      try (rewrite filter_cons_True by done; simpl; lia).
    destruct r as [[[]|]|e|]; simpl; lia.
  - intros [= <- <-]. exists evs1. rewrite Hc1.
    destruct Hr1 as [Hs1|[Hs1 Hk]]; rewrite Hs1; simpl;
      split_and!; try done; try lia; try (apply Hfilter; lia);
      try (by repeat constructor);
      try (rewrite filter_cons_True by done; simpl; lia).
Qed.

Lemma connect_bounds ex q s :
  let r := connect_rabbitmq_on env ex q s in
  let evs := events_since s r.2 in
  (1 ≤ count is_connection_attempt evs ≤ 5)%nat ∧
  (length (sleeps evs) ≤ 4)%nat ∧ Forall (eq 5) (sleeps evs) ∧
  forallb is_connect_event evs = true ∧
  match r.1 with
  | Ok _ => (length (sleeps evs) + 1 = count is_connection_attempt evs)%nat
  | Raise _ => (length (sleeps evs) ≤ count is_connection_attempt evs)%nat
  | OutOfFuel => False
  end.
Proof.
  cbn zeta. unfold connect_rabbitmq_on, bind.
  destruct (for_in (range max_retries) _ s) as [r1 s1] eqn:Hloop.
  destruct (connect_loop_bounds ex q _ s r1 s1 Hloop)
    as (evs & Ht & Hq & Hc & Hc1 & Hs & Hf & Hr).
  rewrite range_max_retries in *. specialize (Hc1 ltac:(done)).
  change (length (filter _ [0; 1; 2; 3; 4])) with 4%nat in Hf.
  simpl in Hc.
  assert (Hno : r1 = Ok None → False).
  { intros ->. apply connect_loop_cases in Hloop. simpl in Hloop.
    apply Forall_cons in Hloop as [_ Hl]. apply Forall_cons in Hl as [_ Hl].
    apply Forall_cons in Hl as [_ Hl]. apply Forall_cons in Hl as [_ Hl].
    apply Forall_cons in Hl as [Hl _]. done. }
  destruct r1 as [[[]|]|e|]; simpl; try done;
    rewrite (events_since_app _ _ _ Ht); split_and!; try done; lia.
Qed.
End ConnectBounds.

(** X1.  Whatever the broker does, one call of [connect_rabbitmq] makes
    between one and five connection attempts and at most four pauses, each
    of five seconds; all it adds to the log are connection calls, log lines
    and those pauses: it never publishes and never closes a connection, not
    even one it opened in an attempt that failed later.  When it returns,
    every attempt before the last was followed by one pause. *)
Theorem connect_does_bounded_work env s :
  (let r := GNewsService.connect_rabbitmq env s in
   let evs := events_since s r.2 in
   (1 ≤ count is_connection_attempt evs ≤ 5)%nat ∧
   (length (sleeps evs) ≤ 4)%nat ∧ Forall (eq 5) (sleeps evs) ∧
   forallb is_connect_event evs = true ∧
   match r.1 with
   | Ok _ => (length (sleeps evs) + 1 = count is_connection_attempt evs)%nat
   | Raise _ => (length (sleeps evs) ≤ count is_connection_attempt evs)%nat
   | OutOfFuel => False
   end) ∧
  (let r := StatusInvestScraper.connect_rabbitmq env s in
   let evs := events_since s r.2 in
   (1 ≤ count is_connection_attempt evs ≤ 5)%nat ∧
   (length (sleeps evs) ≤ 4)%nat ∧ Forall (eq 5) (sleeps evs) ∧
   forallb is_connect_event evs = true ∧
   match r.1 with
   | Ok _ => (length (sleeps evs) + 1 = count is_connection_attempt evs)%nat
   | Raise _ => (length (sleeps evs) ≤ count is_connection_attempt evs)%nat
   | OutOfFuel => False
   end).
Proof. split; apply connect_bounds. Qed.

(** ** A record that does not serialize *)

Lemma connect_events env ex q s :
  ∃ evs, trace (connect_rabbitmq_on env ex q s).2 = trace s ++ evs ∧
         forallb is_connect_event evs = true ∧
         (1 ≤ count is_connection_attempt evs)%nat.
Proof.
  destruct (traced_connect_events env (λ _, True) (λ _ _, I) ex q s)
    as (evs & Ht & _).
  pose proof (connect_bounds env ex q s) as H. cbn zeta in H.
  rewrite (events_since_app _ _ _ Ht) in H.
  exists evs. split; [done|]. destruct H as ([? _] & _ & _ & ? & _). done.
Qed.

Lemma connect_events_no_publish evs :
  forallb is_connect_event evs = true → count is_basic_publish evs = 0%nat.
Proof.
  intros H. apply count_none. apply Forall_forall. intros ev Hin.
  apply connect_event_not_publish. rewrite forallb_forall in H.
  apply H. by apply list_elem_of_In.
Qed.

Lemma publish_on_unserializable env ex q published failed d s cls msg :
  env_json_dumps env d = Raises (PyException cls msg) →
  publish_on env ex q published failed d s
  = connect_rabbitmq_on env ex q
      (emit (EvLog ERROR (failed +:+ msg))
         (emit (EvJsonDumps d (Raises (PyException cls msg))) s)) ∧
  count is_basic_publish
    (events_since s (publish_on env ex q published failed d s).2) = 0%nat ∧
  (1 ≤ count is_connection_attempt
         (events_since s (publish_on env ex q published failed d s).2))%nat.
Proof.
  intros Hd.
  assert (Heq : publish_on env ex q published failed d s
                = connect_rabbitmq_on env ex q
                    (emit (EvLog ERROR (failed +:+ msg))
                       (emit (EvJsonDumps d (Raises (PyException cls msg))) s))).
  { unfold publish_on, try_except, bind, json_dumps, log, modify,
      except_Exception, of_reply. cbn zeta. rewrite Hd. reflexivity. }
  split; [exact Heq|]. rewrite Heq.
  destruct (connect_events env ex q
              (emit (EvLog ERROR (failed +:+ msg))
                 (emit (EvJsonDumps d (Raises (PyException cls msg))) s)))
    as (evs & Ht & Hq & Hc).
  erewrite events_since_app;
    [|rewrite Ht; simpl; rewrite <- !app_assoc; reflexivity].
  simpl app. rewrite !count_cons_false by done.
  split; [by apply connect_events_no_publish | done].
Qed.

(** X2.  When [json.dumps] raises an [Exception] on the record, the
    publish method treats it like a broker failure: it makes no
    [basic_publish] at all, logs the error and calls [connect_rabbitmq], so
    at least one new connection is attempted although no broker call
    failed. *)
Theorem unserializable_record_reconnects env d s cls msg :
  env_json_dumps env d = Raises (PyException cls msg) →
  (GNewsService.publish_news env d s
   = GNewsService.connect_rabbitmq env
       (emit (EvLog ERROR ("Error publishing news: " +:+ msg))
          (emit (EvJsonDumps d (Raises (PyException cls msg))) s)) ∧
   count is_basic_publish
     (events_since s (GNewsService.publish_news env d s).2) = 0%nat ∧
   (1 ≤ count is_connection_attempt
          (events_since s (GNewsService.publish_news env d s).2))%nat) ∧
  (StatusInvestScraper.publish_data env d s
   = StatusInvestScraper.connect_rabbitmq env
       (emit (EvLog ERROR ("Error publishing data: " +:+ msg))
          (emit (EvJsonDumps d (Raises (PyException cls msg))) s)) ∧
   count is_basic_publish
     (events_since s (StatusInvestScraper.publish_data env d s).2) = 0%nat ∧
   (1 ≤ count is_connection_attempt
          (events_since s (StatusInvestScraper.publish_data env d s).2))%nat).
Proof. intros Hd. split; by apply publish_on_unserializable. Qed.

Lemma unserializable_record_witness :
  count is_basic_publish
    (events_since (connected env_json_fails)
       (GNewsService.publish_news env_json_fails sample_news
          (connected env_json_fails)).2) = 0%nat ∧
  (1 ≤ count is_connection_attempt
         (events_since (connected env_json_fails)
            (GNewsService.publish_news env_json_fails sample_news
               (connected env_json_fails)).2))%nat.
Proof.
  destruct (unserializable_record_reconnects env_json_fails sample_news
              (connected env_json_fails) OtherException "not JSON serializable"
              eq_refl) as [(_ & H1 & H2) _].
  by split.
Defined.

(** ** The handles of the service object *)

Ltac handles_step :=
  lazymatch goal with
  | |- kept _ (for_in _ _) => apply kept_for_in; intros ?
  | |- kept _ (for_each _ _) => apply kept_for_each; intros ?
  | |- kept _ (while_true _ _) => apply kept_while_true
  | |- kept _ (bind _ _) => apply kept_bind; [|intros ?]
  | |- kept _ (try_except _ (except_Exception _)) =>
      apply kept_try_except;
      [|intros ? ?; apply kept_except_Exception; intros ? ?]
  | |- kept _ (try_except _ _) =>
      apply kept_try_except;
      [|let e := fresh "e" in
        intros e ?; destruct e as [[]?|]; intros [= <-]]
  | |- kept _ (match ?x with _ => _ end) => destruct x
  | |- kept _ _ =>
      let s := fresh "s" in let H := fresh "H" in
      intros s H;
      first [exact H
            | by (destruct H; split; unfold is_Some in *; simpl; eauto)]
  end.

Section Handles.
Context (env : Env).

Lemma kept_handles_connect ex q : kept holds_handles (connect_rabbitmq_on env ex q).
Proof.
  unfold connect_rabbitmq_on, connect_attempt, connect_failed.
  repeat handles_step.
Qed.

Lemma kept_handles_publish ex q published failed d :
  kept holds_handles (publish_on env ex q published failed d).
Proof.
  unfold publish_on. repeat handles_step. apply kept_handles_connect.
Qed.

Lemma kept_handles_news_run fuel : kept holds_handles (GNewsService.run env fuel).
Proof.
  unfold GNewsService.run, GNewsService.iteration, GNewsService.cycle,
    GNewsService.handle_topic, GNewsService.fetch_news,
    GNewsService.handle_article, GNewsService.process_article,
    GNewsService.mark, GNewsService.prune.
  repeat handles_step. apply kept_handles_publish.
Qed.

Lemma kept_handles_scraper_run fuel :
  kept holds_handles (StatusInvestScraper.run env fuel).
Proof.
  unfold StatusInvestScraper.run, StatusInvestScraper.iteration,
    StatusInvestScraper.cycle, StatusInvestScraper.handle_symbol,
    StatusInvestScraper.scrape_stock, StatusInvestScraper._extract_indicator.
  repeat handles_step. apply kept_handles_publish.
Qed.
End Handles.

(** ** A key whose fetch fails *)

(** X4.  When the GNews client raises an [Exception] for a topic, the
    topic is done with: nothing is serialized or published, the cache is
    untouched, the service sleeps its two seconds and [handle_topic] returns
    normally, so the loop goes on to the next topic.  The scraper does the
    same for a symbol whose request fails, with its three seconds. *)
Theorem failed_fetch_skips_the_key env :
  (∀ topic s cls msg,
     let s1 := emit (EvLog INFO ("Fetching news for topic: " +:+ topic)) s in
     env_get_news env (trace s1) topic = Raises (PyException cls msg) →
     sleeps_undisturbed env →
     GNewsService.handle_topic env topic s
     = (Ok tt,
        emit (EvSleep 2 (Returns tt))
          (emit (EvLog ERROR ("Error fetching news for " +:+ topic +:+ ": " +:+ msg))
             (emit (EvGetNews topic (Raises (PyException cls msg))) s1)))) ∧
  (∀ symbol s cls msg,
     let s1 := emit (EvLog INFO ("Scraping data for " +:+ symbol +:+ " from "
                                 +:+ stock_url symbol)) s in
     env_http env (trace s1) (stock_url symbol) = Raises (PyException cls msg) →
     sleeps_undisturbed env →
     ∃ line,
       StatusInvestScraper.handle_symbol env symbol s
       = (Ok tt,
          emit (EvSleep 3 (Returns tt))
            (emit (EvLog ERROR line)
               (emit (EvHttpGet (stock_url symbol) 10 (Raises (PyException cls msg)))
                  s1)))).
Proof.
  split.
  - intros topic s cls msg s1 Hnews Hsleep.
    unfold GNewsService.handle_topic. unfold bind at 1.
    rewrite fetch_news_eq. cbn zeta. fold s1. rewrite Hnews.
    simpl. unfold bind, ret, sleep. simpl. by rewrite Hsleep.
  - intros symbol s cls msg s1 Hhttp Hsleep.
    unfold StatusInvestScraper.handle_symbol, StatusInvestScraper.scrape_stock,
      try_except, bind, log, modify, http_get, of_reply, ret, sleep.
    cbn zeta. simpl. fold (stock_url symbol). fold s1.
    unfold s1 in Hhttp. simpl in Hhttp. rewrite Hhttp.
    destruct cls; simpl; rewrite Hsleep; eexists; reflexivity.
Qed.

Lemma failed_fetch_witness :
  sleeps (events_since initial
            (GNewsService.handle_topic env_sources_down "bitcoin" initial).2) = [2] ∧
  dumped (events_since initial
            (GNewsService.handle_topic env_sources_down "bitcoin" initial).2) = [] ∧
  (StatusInvestScraper.handle_symbol env_sources_down "PETR4" initial).1 = Ok tt.
Proof.
  destruct (failed_fetch_skips_the_key env_sources_down) as [Hnews Hstock].
  split_and!.
  - rewrite (Hnews "bitcoin" initial OtherException "timed out" eq_refl);
      [reflexivity | done].
  - rewrite (Hnews "bitcoin" initial OtherException "timed out" eq_refl);
      [reflexivity | done].
  - destruct (Hstock "PETR4" initial RequestException "timed out" eq_refl)
      as [line ->]; done.
Defined.

(** ** The order of the keys *)

Lemma traced_publish_events env P ex q published failed d :
  (∀ ev, is_connect_event ev = true → P ev) →
  (∀ r, P (EvJsonDumps d r)) →
  (∀ ch body r, P (EvBroker (BasicPublish ch ex "" body 2 "application/json") r)) →
  traced P (publish_on env ex q published failed d).
Proof.
  intros HC Hd Hb. unfold publish_on.
  repeat traced_step; try done; try (by apply HC); try apply Hb.
  by apply traced_connect_events.
Qed.

Lemma loop_queries {A} (asked : list event → list string) (key : A → string)
    (body : A → M unit) l :
  (∀ evs1 evs2, asked (evs1 ++ evs2) = asked evs1 ++ asked evs2) →
  (∀ x s, ∃ evs, trace (body x s).2 = trace s ++ evs ∧ asked evs = [key x]) →
  ∀ s, ∃ evs,
    trace (for_each l body s).2 = trace s ++ evs ∧
    asked evs `prefix_of` (key <$> l) ∧
    ((for_each l body s).1 = Ok tt → asked evs = key <$> l).
Proof.
  intros Happ Hbody. induction l as [|x l IH]; intros s.
  - exists []. rewrite app_nil_r. specialize (Happ [] []). simpl in *.
    assert (asked [] = []) as ->.
    { apply (f_equal length) in Happ. rewrite length_app in Happ.
      destruct (asked []); simpl in *; [done | lia]. }
    done.
  - rewrite for_each_cons. destruct (Hbody x s) as (evs1 & Ht1 & Hq1).
    destruct (body x s) as [[[]|e|] s1]; simpl in *.
    + destruct (IH s1) as (evs2 & Ht2 & Hp2 & Hok2).
      exists (evs1 ++ evs2). rewrite Ht2, Ht1, <- app_assoc, Happ, Hq1.
      split_and!; [done| |].
      * by apply (prefix_cons (key x)).
      * intros Hr. by rewrite (Hok2 Hr).
    + exists evs1. rewrite Hq1. split_and!; [done| |done].
      by apply (prefix_cons (key x)), prefix_nil.
    + exists evs1. rewrite Hq1. split_and!; [done| |done].
      by apply (prefix_cons (key x)), prefix_nil.
Qed.

Lemma queried_topics_app evs1 evs2 :
  queried_topics (evs1 ++ evs2) = queried_topics evs1 ++ queried_topics evs2.
Proof. apply omap_app. Qed.

Lemma requested_urls_app evs1 evs2 :
  requested_urls (evs1 ++ evs2) = requested_urls evs1 ++ requested_urls evs2.
Proof. apply omap_app. Qed.

Lemma no_fetch_no_topic evs :
  existsb is_get_news evs = false → queried_topics evs = [].
Proof.
  induction evs as [|ev evs IH]; simpl; [done|].
  intros [Hev Hevs]%orb_false_elim. rewrite (IH Hevs).
  by destruct ev.
Qed.

Lemma Forall_no_queries (asked : event → option string) evs :
  Forall (λ ev, asked ev = None) evs → omap asked evs = [].
Proof. induction 1 as [|ev evs Hev _ IH]; simpl; [done|]. by rewrite Hev. Qed.

Section KeyOrder.
Context (env : Env).

Lemma articles_ask_nothing topic arts s :
  ∃ evs,
    trace (for_each arts (GNewsService.handle_article env topic) s).2
    = trace s ++ evs ∧ queried_topics evs = [].
Proof.
  revert s. induction arts as [|a arts IH]; intros s.
  - exists []. by rewrite app_nil_r.
  - rewrite for_each_cons.
    destruct (GNewsService.handle_article env topic a s) as [r1 s1] eqn:H1.
    destruct (handle_article_spec env "" topic a s r1 s1 H1)
      as (evs1 & Ht1 & Hn1 & _).
    apply no_fetch_no_topic in Hn1.
    destruct r1 as [[]|e|]; simpl; [|by exists evs1..].
    destruct (IH s1) as (evs2 & Ht2 & Hn2).
    exists (evs1 ++ evs2). rewrite Ht2, Ht1, <- app_assoc.
    by rewrite queried_topics_app, Hn1, Hn2.
Qed.

(** A topic is asked for once, whatever comes of it. *)
Lemma topic_asked_once topic s :
  ∃ evs, trace (GNewsService.handle_topic env topic s).2 = trace s ++ evs ∧
         queried_topics evs = [topic].
Proof.
  unfold GNewsService.handle_topic. unfold bind at 1.
  rewrite fetch_news_eq. cbn zeta.
  set (s0 := emit (EvLog INFO _) s).
  assert (Hrest : ∀ arts s1, ∃ evs,
    trace ((for_each arts (GNewsService.handle_article env topic) >> sleep env 2) s1).2
    = trace s1 ++ evs ∧ queried_topics evs = []).
  { intros arts s1. unfold bind.
    destruct (articles_ask_nothing topic arts s1) as (evs & Ht & Hq).
    destruct (for_each arts _ s1) as [[[]|e|] s2]; simpl in *; [|by exists evs..].
    eexists (evs ++ [_]). unfold sleep. simpl. rewrite Ht, <- app_assoc.
    split; [done|]. by rewrite queried_topics_app, Hq. }
  destruct (env_get_news env (trace s0) topic) as [arts|[cls msg|]].
  - destruct (Hrest arts (emit (EvGetNews topic (Returns arts)) s0))
      as (evs & -> & Hq).
    eexists ([_; _] ++ evs). subst s0. simpl. rewrite <- !app_assoc.
    split; [done|]. simpl. by rewrite Hq.
  - destruct (Hrest [] (emit (EvLog ERROR
        ("Error fetching news for " +:+ topic +:+ ": " +:+ msg))
        (emit (EvGetNews topic (Raises (PyException cls msg))) s0)))
      as (evs & -> & Hq).
    eexists ([_; _; _] ++ evs). subst s0. simpl. rewrite <- !app_assoc.
    split; [done|]. simpl. by rewrite Hq.
  - eexists [_; _]. subst s0. simpl. rewrite <- !app_assoc. done.
Qed.

Lemma publish_requests_nothing ex q published failed d s :
  ∃ evs, trace (publish_on env ex q published failed d s).2 = trace s ++ evs ∧
         requested_urls evs = [].
Proof.
  destruct (traced_publish_events env
              (λ ev, match ev with EvHttpGet url _ _ => Some url | _ => None end = None)
              ex q published failed d) with (s := s) as (evs & Ht & Hall & _);
    try done.
  - by intros [[]| | | | | | | | | |].
  - exists evs. split; [done|]. by apply Forall_no_queries.
Qed.

(** A symbol's page is requested once, whatever comes of it. *)
Lemma symbol_requested_once symbol s :
  ∃ evs, trace (StatusInvestScraper.handle_symbol env symbol s).2 = trace s ++ evs ∧
         requested_urls evs = [stock_url symbol].
Proof.
  unfold StatusInvestScraper.handle_symbol. unfold bind at 1.
  assert (Hscrape : ∃ evs,
    trace (StatusInvestScraper.scrape_stock env symbol s).2 = trace s ++ evs ∧
    requested_urls evs = [stock_url symbol]).
  { unfold StatusInvestScraper.scrape_stock, StatusInvestScraper._extract_indicator,
      try_except, bind, log, modify, http_get, utcnow_isoformat,
      except_Exception, of_reply, ret. cbn zeta. simpl.
    destruct (env_http env _ _) as [[]|[[] msg|]]; simpl;
      (eexists; split; [by rewrite <- ?app_assoc|]); reflexivity. }
  destruct Hscrape as (evs1 & Ht1 & Hq1).
  destruct (StatusInvestScraper.scrape_stock env symbol s) as [[data|e|] s1];
    simpl in *; [|by exists evs1..].
  assert (Hsleep : ∀ s2 evs2, trace s2 = trace s1 ++ evs2 → requested_urls evs2 = [] →
    ∃ evs, trace (sleep env 3 s2).2 = trace s ++ evs ∧
           requested_urls evs = [stock_url symbol]).
  { intros s2 evs2 Ht2 Hq2. eexists (evs1 ++ evs2 ++ [_]). unfold sleep. simpl.
    rewrite Ht2, Ht1, <- !app_assoc. split; [done|].
    by rewrite !requested_urls_app, Hq1, Hq2. }
  unfold bind.
  destruct data as [[|item items]|].
  - apply (Hsleep s1 []); [by rewrite app_nil_r | done].
  - unfold StatusInvestScraper.publish_data.
    destruct (publish_requests_nothing "fundamental_data" "fundamentals_queue"
                (λ d, "Published fundamental data for "
                      +:+ py_str (dict_get "symbol" (PyStr "N/A") d))
                "Error publishing data: " (item :: items) s1) as (evs2 & Ht2 & Hq2).
    destruct (publish_on env _ _ _ _ (item :: items) s1) as [[[]|e|] s2];
      simpl in *.
    + by apply (Hsleep s2 evs2).
    + exists (evs1 ++ evs2). rewrite Ht2, Ht1, <- app_assoc.
      split; [done|]. by rewrite requested_urls_app, Hq1, Hq2.
    + exists (evs1 ++ evs2). rewrite Ht2, Ht1, <- app_assoc.
      split; [done|]. by rewrite requested_urls_app, Hq1, Hq2.
  - apply (Hsleep s1 []); [by rewrite app_nil_r | done].
Qed.

Lemma cycle_tail_asks_nothing (asked : list event → list string) (m : M unit) msg secs s :
  (∀ evs1 evs2, asked (evs1 ++ evs2) = asked evs1 ++ asked evs2) →
  (∀ lvl line, asked [EvLog lvl line] = []) → (∀ n r, asked [EvSleep n r] = []) →
  ∀ evs, trace (m s).2 = trace s ++ evs →
  ∃ evs', trace ((m >> log INFO msg >> sleep env secs) s).2 = trace s ++ evs' ∧
          asked evs' = asked evs ∧
          (((m >> log INFO msg >> sleep env secs) s).1 = Ok tt → (m s).1 = Ok tt).
Proof.
  intros Happ Hlog Hsleep evs Ht. unfold bind.
  destruct (m s) as [[[]|e|] s1]; simpl in *.
  - eexists (evs ++ [_] ++ [_]). unfold sleep. simpl.
    rewrite Ht, <- !app_assoc. split; [done|]. split; [|done].
    rewrite Happ.
    match goal with
    | |- _ ++ asked [?a; ?b] = _ => change [a; b] with ([a] ++ [b])
    end.
    rewrite Happ, Hlog, Hsleep, !app_nil_r. done.
  - exists evs. done.
  - exists evs. done.
Qed.

(** X5. Within one cycle the news service asks for its topics in the
    configured order, starting from the first and each one once, and the
    scraper requests the pages of its symbols in the configured order,
    starting from the first and each one once: what a cycle asked for is a
    prefix of the configured list, and it is the whole list when the cycle
    ends normally.  A cycle that an exception cuts short (a failed publish
    whose reconnect gives up, an interrupt) has asked for a prefix only: the
    keys after it are not asked for in that cycle. *)
Theorem keys_are_visited_in_order s :
  (let r := GNewsService.cycle env s in
   let asked := queried_topics (events_since s r.2) in
   asked `prefix_of` GNewsService.MARKET_TOPICS ∧
   match r.1 with
   | Ok _ => asked = GNewsService.MARKET_TOPICS
   | _ => True
   end) ∧
  (let r := StatusInvestScraper.cycle env s in
   let asked := requested_urls (events_since s r.2) in
   asked `prefix_of` (stock_url <$> StatusInvestScraper.BRAZILIAN_STOCKS) ∧
   match r.1 with
   | Ok _ => asked = stock_url <$> StatusInvestScraper.BRAZILIAN_STOCKS
   | _ => True
   end).
Proof.
  split; cbn zeta.
  - destruct (loop_queries queried_topics id (GNewsService.handle_topic env)
                GNewsService.MARKET_TOPICS queried_topics_app
                (topic_asked_once) s) as (evs & Ht & Hp & Hok).
    rewrite list_fmap_id in Hp, Hok.
    unfold GNewsService.cycle.
    destruct (cycle_tail_asks_nothing queried_topics
                (for_each GNewsService.MARKET_TOPICS (GNewsService.handle_topic env))
                ("Completed news check cycle. Sleeping for "
                 +:+ pretty (CHECK_INTERVAL (env_config env)) +:+ " seconds...")
                (CHECK_INTERVAL (env_config env)) s queried_topics_app
                (λ _ _, eq_refl) (λ _ _, eq_refl) evs Ht) as (evs' & Ht' & Hq' & Hok').
    unfold events_since. rewrite Ht', drop_app_length, Hq'.
    split; [done|].
    match goal with
    | |- match ?r with _ => _ end => destruct r as [[]|e|] eqn:Hr; [|done..]
    end.
    by apply Hok, Hok'.
  - destruct (loop_queries requested_urls stock_url (StatusInvestScraper.handle_symbol env)
                StatusInvestScraper.BRAZILIAN_STOCKS requested_urls_app
                (symbol_requested_once) s) as (evs & Ht & Hp & Hok).
    unfold StatusInvestScraper.cycle.
    destruct (cycle_tail_asks_nothing requested_urls
                (for_each StatusInvestScraper.BRAZILIAN_STOCKS
                   (StatusInvestScraper.handle_symbol env))
                ("Completed scraping cycle. Sleeping for "
                 +:+ pretty (CHECK_INTERVAL (env_config env)) +:+ " seconds...")
                (CHECK_INTERVAL (env_config env)) s requested_urls_app
                (λ _ _, eq_refl) (λ _ _, eq_refl) evs Ht) as (evs' & Ht' & Hq' & Hok').
    unfold events_since. rewrite Ht', drop_app_length, Hq'.
    split; [done|].
    match goal with
    | |- match ?r with _ => _ end => destruct r as [[]|e|] eqn:Hr; [|done..]
    end.
    by apply Hok, Hok'.
Qed.
End KeyOrder.

Lemma keys_in_order_witness :
  let s := connected env_quiet in
  queried_topics (events_since s (GNewsService.cycle env_quiet s).2)
  = GNewsService.MARKET_TOPICS ∧
  requested_urls (events_since s (StatusInvestScraper.cycle env_quiet s).2)
  = stock_url <$> StatusInvestScraper.BRAZILIAN_STOCKS ∧
  let s' := connected env_broker_lost in
  (GNewsService.cycle env_broker_lost s').1 = Raise ConnectionError ∧
  queried_topics (events_since s' (GNewsService.cycle env_broker_lost s').2)
  = take 6 GNewsService.MARKET_TOPICS.
Proof.
  intros s.
  destruct (keys_are_visited_in_order env_quiet s) as [[_ Hn] [_ Hs]].
  cbn zeta in Hn, Hs.
  assert (Hrn : (GNewsService.cycle env_quiet s).1 = Ok tt)
    by (vm_compute; reflexivity).
  assert (Hrs : (StatusInvestScraper.cycle env_quiet s).1 = Ok tt)
    by (vm_compute; reflexivity).
  rewrite Hrn in Hn. rewrite Hrs in Hs.
  split; [exact Hn|]. split; [exact Hs|].
  split; vm_compute; reflexivity.
Defined.

(** * What is put on the exchanges *)

Lemma traced_for_each_in {A} P (l : list A) (body : A → M unit) :
  (∀ x, x ∈ l → traced P (body x)) → traced P (for_each l body).
Proof.
  induction l as [|x l IH]; intros Hb; simpl.
  - apply traced_ret.
  - apply traced_bind; [apply Hb; constructor|].
    intros _. apply IH. intros y Hy. apply Hb. by constructor.
Qed.

Section Records.
Context (env : Env).

Lemma records_handle_article topic a :
  topic ∈ GNewsService.MARKET_TOPICS →
  traced (publishes env "market_news" is_news_record)
    (GNewsService.handle_article env topic a).
Proof.
  intros Htopic. unfold GNewsService.handle_article. cbn zeta.
  apply traced_bind; [apply traced_get|]. intros s0.
  destruct (bool_decide (default "" (a_url a) ≠ "")) eqn:Hurl; simpl;
    [|apply traced_ret].
  destruct (bool_decide (_ ∉ _)); [|apply traced_ret].
  apply bool_decide_eq_true_1 in Hurl.
  apply (traced_bind_post _
           (λ d, ∃ t1 t2, d = GNewsService.news_data_of a topic t1 t2)).
  - unfold GNewsService.process_article.
    repeat traced_step; by apply publishes_other.
  - intros s d. unfold GNewsService.process_article, bind, utcnow_isoformat, ret.
    simpl. intros [= <-]. eauto.
  - intros d (t1 & t2 & ->). apply traced_bind.
    + unfold GNewsService.publish_news.
      apply traced_publish_on; [apply publishes_other|].
      intros ch body r Hd. simpl. split_and!; try done.
      eexists. split; [|exact Hd].
      unfold is_news_record, GNewsService.news_data_of.
      eexists _, _, _, _, _, _, _. split_and!; [exact Hurl | exact Htopic | reflexivity].
    + intros _. apply traced_mark. apply publishes_other.
Qed.

Lemma records_news_main fuel :
  traced (publishes env "market_news" is_news_record) (GNewsService.main env fuel).
Proof.
  unfold GNewsService.main, GNewsService.__init__, GNewsService.connect_rabbitmq.
  repeat traced_step.
  - apply traced_connect_rabbitmq_on, publishes_other.
  - unfold GNewsService.run. repeat traced_step; try (by apply publishes_other).
    unfold GNewsService.iteration. repeat traced_step; try (by apply publishes_other).
    unfold GNewsService.cycle.
    traced_step; [|repeat traced_step; by apply publishes_other].
    apply traced_for_each_in. intros topic Htopic.
    unfold GNewsService.handle_topic.
    traced_step; [apply traced_fetch_news, publishes_other|].
    traced_step; [|traced_step; by apply publishes_other].
    traced_step. by apply records_handle_article.
  - unfold GNewsService.close. repeat traced_step; by apply publishes_other.
Qed.

Lemma scrape_stock_record symbol s d :
  (StatusInvestScraper.scrape_stock env symbol s).1 = Ok (Some d) →
  ∃ now, d = placeholder_record symbol now.
Proof.
  unfold StatusInvestScraper.scrape_stock, StatusInvestScraper._extract_indicator,
    try_except, bind, log, modify, http_get, utcnow_isoformat,
    except_Exception, of_reply, ret. cbn zeta. simpl.
  destruct (env_http env _ _) as [[]|[[] msg|]]; simpl; intros [= <-].
  by eexists.
Qed.

Lemma records_handle_symbol symbol :
  symbol ∈ StatusInvestScraper.BRAZILIAN_STOCKS →
  traced (publishes env "fundamental_data" is_fundamentals_record)
    (StatusInvestScraper.handle_symbol env symbol).
Proof.
  intros Hsymbol. unfold StatusInvestScraper.handle_symbol.
  apply (traced_bind_post _
           (λ data, ∀ d, data = Some d → ∃ now, d = placeholder_record symbol now)).
  - apply traced_scrape_stock, publishes_other.
  - intros s data Hdata d ->. by eapply scrape_stock_record.
  - intros data Hdata. traced_step; [|traced_step; by apply publishes_other].
    destruct data as [[|item items]|]; try apply traced_ret.
    destruct (Hdata _ eq_refl) as (now & Hd).
    unfold StatusInvestScraper.publish_data.
    apply traced_publish_on; [apply publishes_other|].
    intros ch body r Hbody. simpl. split_and!; try done.
    eexists. split; [|exact Hbody]. by exists symbol, now.
Qed.

Lemma records_scraper_main fuel :
  traced (publishes env "fundamental_data" is_fundamentals_record)
    (StatusInvestScraper.main env fuel).
Proof.
  unfold StatusInvestScraper.main, StatusInvestScraper.__init__,
    StatusInvestScraper.connect_rabbitmq.
  repeat traced_step; try (by apply publishes_other).
  - apply traced_connect_rabbitmq_on, publishes_other.
  - unfold StatusInvestScraper.run. repeat traced_step; try (by apply publishes_other).
    unfold StatusInvestScraper.iteration.
    repeat traced_step; try (by apply publishes_other).
    unfold StatusInvestScraper.cycle.
    traced_step; [|repeat traced_step; by apply publishes_other].
    apply traced_for_each_in. intros symbol Hsymbol.
    by apply records_handle_symbol.
  - unfold StatusInvestScraper.close. repeat traced_step; by apply publishes_other.
Qed.
End Records.

(** X6. Over a whole run of either program, every message handed to the
    broker is the serialisation of a record of the service's one shape.  A
    news message carries the seven string fields [title], [description],
    [url], [source], [published_at], [topic], [fetched_at], with a URL that is
    not empty and one of the monitored topics.  A fundamentals message
    carries one of the monitored symbols, the time of the scrape and the five
    fixed values 5.5, 2.3, 15.2, 18.5 and 1000000: whatever the site
    answered, no other figures are ever published. *)
Theorem published_records_have_one_shape env fuel s :
  Forall (publishes env "market_news" is_news_record)
    (events_since s (GNewsService.main env fuel s).2) ∧
  Forall (publishes env "fundamental_data" is_fundamentals_record)
    (events_since s (StatusInvestScraper.main env fuel s).2).
Proof.
  split; apply traced_events.
  - apply records_news_main.
  - apply records_scraper_main.
Qed.

(** * How the main loop ends *)

Section LoopEnd.
Context (env : Env).


End LoopEnd.


(** * A [close] that fails *)

Lemma try_finally_raises {A} (m : M A) f s r s' e :
  try_finally m f s = (r, s') → r ≠ OutOfFuel →
  (f (m s).2).1 = Raise e → r = Raise e.
Proof.
  unfold try_finally. intros H Hr.
  destruct (m s) as [[a|e1|] s1]; simpl; [| |by simplify_eq];
    destruct (f s1) as [[[]|e2|] s2]; simplify_eq/=; congruence.
Qed.

Section FailedClose.
Context (env : Env).

Lemma news_close_fails s conn :
  connection s = Some conn →
  existsb is_failed_close (events_since s (GNewsService.close env s).2) = true →
  ∃ e, (GNewsService.close env s).1 = Raise e ∧
       events_since s (GNewsService.close env s).2
       = [EvIsClosed conn false; EvBroker (ConnClose conn) (Raises e)].
Proof.
  intros Hc. rewrite (news_close_eq _ _ _ Hc). cbn zeta.
  destruct (env_is_closed env (trace s) conn).
  - erewrite events_since_app; [|reflexivity]. done.
  - destruct (env_pika env _ _) as [[]|e]; simpl.
    + erewrite events_since_app; [|simpl; rewrite <- !app_assoc; reflexivity].
      done.
    + erewrite events_since_app; [|simpl; rewrite <- !app_assoc; reflexivity].
      intros _. by exists e.
Qed.

Lemma scraper_close_fails s conn :
  connection s = Some conn →
  existsb is_failed_close (events_since s (StatusInvestScraper.close env s).2) = true →
  ∃ e, (StatusInvestScraper.close env s).1 = Raise e ∧
       events_since s (StatusInvestScraper.close env s).2
       = [EvIsClosed conn false; EvBroker (ConnClose conn) (Raises e)].
Proof.
  intros Hc. rewrite (scraper_close_eq _ _ _ Hc). cbn zeta.
  destruct (env_is_closed env (trace s) conn).
  - erewrite events_since_app; [|simpl; rewrite <- !app_assoc; reflexivity].
    done.
  - destruct (env_pika env _ _) as [[]|e]; simpl.
    + erewrite events_since_app; [|simpl; rewrite <- !app_assoc; reflexivity].
      done.
    + erewrite events_since_app; [|simpl; rewrite <- !app_assoc; reflexivity].
      intros _. by exists e.
Qed.
End FailedClose.

(** X8. When [connection.close()] raises inside [close], that exception is
    what [main] ends with, whatever [run] had done: a clean shutdown becomes
    a failure and the process exits non-zero.  Nothing follows the failed
    call: in particular the scraper never closes its HTTP session and never
    logs that it did. *)
Theorem failed_close_replaces_the_outcome env fuel s :
  (∀ s0 r s',
     GNewsService.__init__ env s = (Ok tt, s0) →
     GNewsService.main env fuel s = (r, s') → r ≠ OutOfFuel →
     existsb is_failed_close (events_since (GNewsService.run env fuel s0).2 s') = true →
     ∃ conn e,
       events_since (GNewsService.run env fuel s0).2 s'
       = [EvIsClosed conn false; EvBroker (ConnClose conn) (Raises e)] ∧
       r = Raise e ∧ exits_nonzero r) ∧
  (∀ s0 r s',
     StatusInvestScraper.__init__ env s = (Ok tt, s0) →
     StatusInvestScraper.main env fuel s = (r, s') → r ≠ OutOfFuel →
     existsb is_failed_close
       (events_since (StatusInvestScraper.run env fuel s0).2 s') = true →
     ∃ conn e,
       events_since (StatusInvestScraper.run env fuel s0).2 s'
       = [EvIsClosed conn false; EvBroker (ConnClose conn) (Raises e)] ∧
       existsb is_session_close
         (events_since (StatusInvestScraper.run env fuel s0).2 s') = false ∧
       r = Raise e ∧ exits_nonzero r).
Proof.
  assert (Hnz : ∀ e, exits_nonzero (Raise e : outcome unit)).
  { intros [cls msg|]; eexists; (split; [reflexivity|done]). }
  split.
  - intros s0 r s' Hinit Hmain Hr Hfail.
    assert (Hconn : has_connection s0).
    { unfold GNewsService.__init__ in Hinit.
      apply (connect_success env "market_news" "news_queue") in Hinit
        as (_ & conn & ch & _ & Hc & _).
      unfold has_connection. by rewrite Hc. }
    unfold GNewsService.main, bind in Hmain. rewrite Hinit in Hmain.
    pose proof (λ e, try_finally_raises _ _ _ _ _ e Hmain Hr) as Hraise.
    apply try_finally_cases in Hmain as (r1 & s1 & Hrun & Hr1 & Hs' & Hres); [|done].
    pose proof (kept_connection_news_run env fuel s0 Hconn) as [conn Hc].
    rewrite Hrun in *. simpl in *. subst s'.
    destruct (news_close_fails env s1 conn Hc Hfail) as (e & He & Hevs).
    exists conn, e. split; [done|]. rewrite (Hraise e He). by split.
  - intros s0 r s' Hinit Hmain Hr Hfail.
    assert (Hconn : has_connection s0).
    { unfold StatusInvestScraper.__init__, bind, fresh, modify in Hinit.
      simpl in Hinit.
      apply (connect_success env "fundamental_data" "fundamentals_queue") in Hinit
        as (_ & conn & ch & _ & Hc & _).
      unfold has_connection. by rewrite Hc. }
    unfold StatusInvestScraper.main, bind in Hmain. rewrite Hinit in Hmain.
    pose proof (λ e, try_finally_raises _ _ _ _ _ e Hmain Hr) as Hraise.
    apply try_finally_cases in Hmain as (r1 & s1 & Hrun & Hr1 & Hs' & Hres); [|done].
    pose proof (kept_connection_scraper_run env fuel s0 Hconn) as [conn Hc].
    rewrite Hrun in *. simpl in *. subst s'.
    destruct (scraper_close_fails env s1 conn Hc Hfail) as (e & He & Hevs).
    exists conn, e. split; [done|]. rewrite Hevs, (Hraise e He). by split_and!.
Qed.

Lemma failed_close_witness :
  let s0 := (StatusInvestScraper.__init__ env_close_fails initial).2 in
  let r := StatusInvestScraper.main env_close_fails 1 initial in
  (StatusInvestScraper.run env_close_fails 1 s0).1 = Ok tt ∧
  r.1 = Raise ConnectionError ∧
  existsb is_session_close
    (events_since (StatusInvestScraper.run env_close_fails 1 s0).2 r.2) = false.
Proof.
  intros s0 r.
  destruct (failed_close_replaces_the_outcome env_close_fails 1 initial) as [_ H].
  destruct (H s0 r.1 r.2) as (conn & e & Hevs & Hsess & Hr & _).
  - vm_compute. reflexivity.
  - apply surjective_pairing.
  - vm_compute. discriminate.
  - vm_compute. reflexivity.
  - split; [vm_compute; reflexivity|]. split; [|exact Hsess].
    vm_compute. reflexivity.
Defined.

(** * A check interval below zero *)

Section Interval.
Context (env : Env).

Lemma ends_in_rejected_sleep (m : M unit) msg secs s :
  secs < 0 → ((m >> log INFO msg >> sleep env secs) s).1 ≠ Ok tt.
Proof.
  intros Hneg. unfold bind.
  destruct (m s) as [[[]|e|] s1]; [|done..].
  unfold log, modify, sleep. cbn [fst snd].
  destruct (Z.ltb_spec secs 0); [done | lia].
Qed.

(** An iteration whose cycle did not end normally goes on only by the
    error path: the error line and the 30-second pause. *)
Lemma guarded_error_path cyc bye s :
  traced (λ _, True) cyc → (cyc s).1 ≠ Ok tt →
  (guarded env cyc bye s).1 = Ok Continue →
  ∃ evs msg,
    events_since s (guarded env cyc bye s).2
    = evs ++ [EvLog ERROR ("Error in main loop: " +:+ msg); EvSleep 30 (Returns tt)].
Proof.
  intros Hc Hnot. rewrite guarded_eq.
  destruct (Hc s) as (evs & Ht & _).
  destruct (cyc s) as [[[]|[cls msg|]|] s1]; cbn [fst snd] in *; try done.
  cbn zeta. destruct (env_sleep env _ 30); cbn [fst snd]; [done|].
  intros _. exists evs, msg. apply events_since_app.
  cbn [emit trace]. by rewrite Ht, <- !app_assoc.
Qed.
End Interval.

(** X9. With a check interval below zero no cycle of either service ever
    ends normally: the sleep that closes the cycle is rejected, so every
    cycle that gets that far ends in an exception.  An iteration that goes on
    to the next cycle has then logged an error and paused 30 seconds: the
    services keep polling, every 30 seconds instead of every
    [CHECK_INTERVAL]. *)
Theorem negative_interval_never_completes_a_cycle env s :
  CHECK_INTERVAL (env_config env) < 0 →
  ((GNewsService.cycle env s).1 ≠ Ok tt ∧
   ((GNewsService.iteration env s).1 = Ok Continue →
    ∃ evs msg,
      events_since s (GNewsService.iteration env s).2
      = evs ++ [EvLog ERROR ("Error in main loop: " +:+ msg);
                EvSleep 30 (Returns tt)])) ∧
  ((StatusInvestScraper.cycle env s).1 ≠ Ok tt ∧
   ((StatusInvestScraper.iteration env s).1 = Ok Continue →
    ∃ evs msg,
      events_since s (StatusInvestScraper.iteration env s).2
      = evs ++ [EvLog ERROR ("Error in main loop: " +:+ msg);
                EvSleep 30 (Returns tt)])).
Proof.
  intros Hneg.
  assert (Hn : (GNewsService.cycle env s).1 ≠ Ok tt)
    by (by apply ends_in_rejected_sleep).
  assert (Hs : (StatusInvestScraper.cycle env s).1 ≠ Ok tt)
    by (by apply ends_in_rejected_sleep).
  split; (split; [done|]).
  - rewrite news_iteration_guarded. apply guarded_error_path; [|done].
    apply traced_news_cycle; [apply always_true_other | done].
  - rewrite scraper_iteration_guarded. apply guarded_error_path; [|done].
    apply traced_scraper_cycle; [apply always_true_other | done].
Qed.

Lemma negative_interval_witness :
  (GNewsService.cycle env_negative_interval initial).1 ≠ Ok tt ∧
  (StatusInvestScraper.cycle env_negative_interval initial).1 ≠ Ok tt.
Proof.
  destruct (negative_interval_never_completes_a_cycle env_negative_interval initial)
    as [[Hn _] [Hs _]]; [reflexivity|].
  by split.
Defined.

(** * Where the entries of the cache come from *)

Section Accounted.
Context (env : Env) (n : nat).

Lemma accounted_grows s s' evs :
  cache_accounted n s → trace s' = trace s ++ evs →
  processed_urls s' = processed_urls s → cache_accounted n s'.
Proof.
  intros [Hlen Hall] Ht Hcache. split.
  - rewrite Ht, length_app. lia.
  - intros u Hu. rewrite Hcache in Hu. destruct (Hall u Hu) as [Hne Hcount].
    split; [done|]. rewrite Ht, drop_app_le, count_app by done. lia.
Qed.

(** A step that leaves the cache alone keeps the account. *)
Lemma accounted_quiet {A} (m : M A) :
  traced (λ _, True) m → (∀ J, kept (λ s, J (processed_urls s)) m) →
  kept (cache_accounted n) m.
Proof.
  intros Ht Hk s Hs. destruct (Ht s) as (evs & Htr & _).
  apply (accounted_grows s _ evs Hs Htr).
  symmetry. by apply (Hk (eq (processed_urls s)) s).
Qed.

Lemma accounted_article topic a :
  kept (cache_accounted n) (GNewsService.handle_article env topic a).
Proof.
  intros s Hs. set (v := default "" (a_url a)).
  destruct (decide (v = "" ∨ v ∈ processed_urls s)) as [Hskip|Hgo].
  { by rewrite handle_article_skip. }
  assert (Hv : v ≠ "") by tauto. assert (Hnin : v ∉ processed_urls s) by tauto.
  destruct Hs as [Hlen Hall].
  destruct (GNewsService.handle_article env topic a s) as [r s'] eqn:Hrun.
  cbn [snd]. split.
  - destruct (handle_article_spec env "" topic a s r s' Hrun) as (evs & Ht & _).
    rewrite Ht, length_app. lia.
  - intros u Hu.
    destruct (handle_article_spec env u topic a s r s' Hrun)
      as (evs & Ht & _ & _ & Hcount & _ & Hkeep & Hpruned).
    fold v in Hcount, Hkeep, Hpruned.
    assert (Hsub : processed_urls s' ⊆ {[v]} ∪ processed_urls s).
    { destruct (existsb is_prune evs); [by apply Hpruned|].
      destruct (Hkeep eq_refl) as [Hok Hnot].
      destruct r as [[]|e|].
      - by rewrite (Hok eq_refl Hv).
      - rewrite Hnot; [apply union_subseteq_r | by left].
      - rewrite Hnot; [apply union_subseteq_r | by left]. }
    rewrite Ht, drop_app_le, count_app by done.
    apply Hsub, elem_of_union in Hu as [Hu|Hu].
    + apply elem_of_singleton in Hu as ->. split; [done|].
      rewrite Hcount, bool_decide_eq_true_2 by done. lia.
    + destruct (Hall u Hu) as [Hne Hc]. split; [done | lia].
Qed.

Lemma accounted_iteration : kept (cache_accounted n) (GNewsService.iteration env).
Proof.
  unfold GNewsService.iteration, GNewsService.cycle, GNewsService.handle_topic,
    GNewsService.fetch_news.
  repeat kept_step; try apply accounted_article;
    (apply accounted_quiet; [repeat traced_step; done | intros J; repeat kept_step]).
Qed.
End Accounted.

(** X10. Whatever point [run] has got to, every URL in the dedup cache is a
    non-empty string for which the publish method was entered during this
    run: the cache starts empty, and nothing gets into it except by way of
    [publish_news]. *)
Theorem cache_holds_only_attempted_urls env fuel s u :
  u ∈ processed_urls (GNewsService.run env fuel s).2 →
  u ≠ "" ∧
  (1 ≤ count (is_publish_call_for u)
         (events_since s (GNewsService.run env fuel s).2))%nat.
Proof.
  rewrite news_run_eq. intros Hu.
  match goal with
  | H : _ ∈ processed_urls (while_true fuel ?body ?s0).2 |- _ =>
      assert (Hinit : cache_accounted (length (trace s)) s0)
  end.
  { split.
    - cbn [emit trace set_processed_urls]. rewrite !length_app. lia.
    - intros u0 Hu0. by apply elem_of_empty in Hu0. }
  destruct (kept_while_true (cache_accounted (length (trace s))) fuel _
              (accounted_iteration env _) _ Hinit) as [_ Hall].
  exact (Hall u Hu).
Qed.

Lemma cache_holds_only_attempted_witness :
  let s := connected env_bitcoin in
  "https://x/1" ∈ processed_urls (GNewsService.run env_bitcoin 1 s).2 ∧
  (1 ≤ count (is_publish_call_for "https://x/1")
         (events_since s (GNewsService.run env_bitcoin 1 s).2))%nat.
Proof.
  intros s.
  assert (Hin : "https://x/1" ∈ processed_urls (GNewsService.run env_bitcoin 1 s).2).
  { apply (bool_decide_eq_true_1 (_ ∈ _)). vm_compute. reflexivity. }
  split; [exact Hin|].
  apply (cache_holds_only_attempted_urls env_bitcoin 1 s "https://x/1" Hin).
Defined.

(** * What is closed, and when *)

Lemma connect_event_no_release ev : is_connect_event ev = true → is_release ev = false.
Proof. by destruct ev as [[]| | | | | | | | | |]. Qed.

Section Release.
Context (env : Env).

Lemma publish_releases_nothing ex q published failed d :
  traced (λ ev, is_release ev = false) (publish_on env ex q published failed d).
Proof.
  apply traced_publish_events; [apply connect_event_no_release | done..].
Qed.

Lemma news_init_releases_nothing :
  traced (λ ev, is_release ev = false) (GNewsService.__init__ env).
Proof.
  unfold GNewsService.__init__, GNewsService.connect_rabbitmq.
  repeat traced_step. apply traced_connect_events, connect_event_no_release.
Qed.

Lemma news_run_releases_nothing fuel :
  traced (λ ev, is_release ev = false) (GNewsService.run env fuel).
Proof.
  unfold GNewsService.run, GNewsService.iteration, GNewsService.cycle,
    GNewsService.handle_topic, GNewsService.fetch_news,
    GNewsService.handle_article, GNewsService.process_article,
    GNewsService.publish_news, GNewsService.mark, GNewsService.prune.
  repeat traced_step; try done. apply publish_releases_nothing.
Qed.

Lemma scraper_init_releases_nothing :
  traced (λ ev, is_release ev = false) (StatusInvestScraper.__init__ env).
Proof.
  unfold StatusInvestScraper.__init__, StatusInvestScraper.connect_rabbitmq.
  repeat traced_step; try done.
  apply traced_connect_events, connect_event_no_release.
Qed.

Lemma scraper_run_releases_nothing fuel :
  traced (λ ev, is_release ev = false) (StatusInvestScraper.run env fuel).
Proof.
  unfold StatusInvestScraper.run, StatusInvestScraper.iteration,
    StatusInvestScraper.cycle, StatusInvestScraper.handle_symbol,
    StatusInvestScraper.scrape_stock, StatusInvestScraper._extract_indicator,
    StatusInvestScraper.publish_data.
  repeat traced_step; try done. apply publish_releases_nothing.
Qed.

Lemma news_close_once s :
  ∃ evs, trace (GNewsService.close env s).2 = trace s ++ evs ∧
         (count is_connection_close evs ≤ 1)%nat.
Proof.
  destruct (connection s) as [conn|] eqn:Hc.
  - rewrite (news_close_eq _ _ _ Hc). cbn zeta.
    destruct (env_is_closed env (trace s) conn).
    + eexists [_]. split; [reflexivity | cbv; lia].
    + destruct (env_pika env _ _) as [[]|e]; cbn [emit trace fst snd].
      * eexists [_; _; _]. split; [simpl; by rewrite <- ?app_assoc | cbv; lia].
      * eexists [_; _]. split; [simpl; by rewrite <- ?app_assoc | cbv; lia].
  - unfold GNewsService.close, bind, get. cbn zeta. rewrite Hc.
    exists []. split; [by rewrite app_nil_r | cbv; lia].
Qed.

Lemma scraper_close_once s :
  ∃ evs, trace (StatusInvestScraper.close env s).2 = trace s ++ evs ∧
         (count is_connection_close evs ≤ 1)%nat ∧
         (count is_session_close evs ≤ 1)%nat.
Proof.
  destruct (connection s) as [conn|] eqn:Hc.
  - rewrite (scraper_close_eq _ _ _ Hc). cbn zeta.
    destruct (env_is_closed env (trace s) conn).
    + eexists [_; _; _]. cbn [emit trace fst snd].
      split; [simpl; by rewrite <- ?app_assoc | split; cbv; lia].
    + destruct (env_pika env _ _) as [[]|e]; cbn [emit trace fst snd].
      * eexists [_; _; _; _; _]. split; [simpl; by rewrite <- ?app_assoc | split; cbv; lia].
      * eexists [_; _]. split; [simpl; by rewrite <- ?app_assoc | split; cbv; lia].
  - unfold StatusInvestScraper.close, bind, get, modify, log, ret. cbn zeta.
    rewrite Hc. cbn [emit trace fst snd].
    eexists [_; _]. split; [simpl; by rewrite <- ?app_assoc | split; cbv; lia].
Qed.

(** A [main] whose constructor and [run] close nothing closes what its
    [close] closes. *)
Lemma main_releases (f : event → bool) (k : nat) (init run close : M unit) s :
  traced (λ ev, f ev = false) init → traced (λ ev, f ev = false) run →
  (∀ s1, ∃ evs, trace (close s1).2 = trace s1 ++ evs ∧ (count f evs ≤ k)%nat) →
  (count f (events_since s ((init >> try_finally run close) s).2) ≤ k)%nat.
Proof.
  intros Hinit Hrun Hclose. unfold bind, try_finally.
  destruct (Hinit s) as (evs0 & Ht0 & Hall0 & _).
  destruct (init s) as [[[]|e|] s0]; cbn [fst snd] in *;
    [|rewrite (events_since_app _ _ _ Ht0), (count_none _ _ Hall0); lia..].
  destruct (Hrun s0) as (evs1 & Ht1 & Hall1 & _).
  destruct (Hclose (run s0).2) as (evs2 & Ht2 & Hc2).
  destruct (run s0) as [[[]|e|] s1]; cbn [fst snd] in *.
  - assert (Ht : trace (close s1).2 = trace s ++ evs0 ++ evs1 ++ evs2)
      by (by rewrite Ht2, Ht1, Ht0, <- !app_assoc).
    destruct (close s1) as [[[]|e2|] s2]; cbn [fst snd] in *;
      rewrite (events_since_app _ _ _ Ht), !count_app,
        (count_none _ _ Hall0), (count_none _ _ Hall1); lia.
  - assert (Ht : trace (close s1).2 = trace s ++ evs0 ++ evs1 ++ evs2)
      by (by rewrite Ht2, Ht1, Ht0, <- !app_assoc).
    destruct (close s1) as [[[]|e2|] s2]; cbn [fst snd] in *;
      rewrite (events_since_app _ _ _ Ht), !count_app,
        (count_none _ _ Hall0), (count_none _ _ Hall1); lia.
  - assert (Ht : trace s1 = trace s ++ evs0 ++ evs1)
      by (by rewrite Ht1, Ht0, <- !app_assoc).
    rewrite (events_since_app _ _ _ Ht), !count_app,
      (count_none _ _ Hall0), (count_none _ _ Hall1). lia.
Qed.

Lemma no_release_no_close ev : is_release ev = false → is_connection_close ev = false.
Proof. unfold is_release. by intros [? ?]%orb_false_elim. Qed.

Lemma no_release_session_open ev : is_release ev = false → is_session_close ev = false.
Proof. unfold is_release. by intros [? ?]%orb_false_elim. Qed.

Lemma traced_weaken {A} (P Q : event → Prop) (m : M A) :
  (∀ ev, P ev → Q ev) → traced P m → traced Q m.
Proof.
  intros HPQ Hm s. destruct (Hm s) as (evs & Ht & Hall & Hi).
  exists evs. split_and!; [done| |done]. by eapply Forall_impl.
Qed.
End Release.

(** X11. While [run] is going neither service closes anything: the
    reconnect after a failed publish opens a new connection and leaves the
    one it replaces as it is.  Over a whole run of [main], start-up and every
    reconnect included, [connection.close()] is called at most once and the
    scraper closes its HTTP session at most once, both from [close]. *)
Theorem nothing_is_released_before_exit env fuel s :
  (Forall (λ ev, is_release ev = false)
     (events_since s (GNewsService.run env fuel s).2) ∧
   (count is_connection_close
      (events_since s (GNewsService.main env fuel s).2) ≤ 1)%nat) ∧
  (Forall (λ ev, is_release ev = false)
     (events_since s (StatusInvestScraper.run env fuel s).2) ∧
   (count is_connection_close
      (events_since s (StatusInvestScraper.main env fuel s).2) ≤ 1)%nat ∧
   (count is_session_close
      (events_since s (StatusInvestScraper.main env fuel s).2) ≤ 1)%nat).
Proof.
  split; [split | split_and!].
  - apply traced_events, news_run_releases_nothing.
  - apply main_releases.
    + eapply traced_weaken; [apply no_release_no_close|].
      apply news_init_releases_nothing.
    + eapply traced_weaken; [apply no_release_no_close|].
      apply news_run_releases_nothing.
    + apply news_close_once.
  - apply traced_events, scraper_run_releases_nothing.
  - apply main_releases.
    + eapply traced_weaken; [apply no_release_no_close|].
      apply scraper_init_releases_nothing.
    + eapply traced_weaken; [apply no_release_no_close|].
      apply scraper_run_releases_nothing.
    + intros s1. destruct (scraper_close_once env s1) as (evs & Ht & Hc & _).
      by exists evs.
  - apply main_releases.
    + eapply traced_weaken; [apply no_release_session_open|].
      apply scraper_init_releases_nothing.
    + eapply traced_weaken; [apply no_release_session_open|].
      apply scraper_run_releases_nothing.
    + intros s1. destruct (scraper_close_once env s1) as (evs & Ht & _ & Hc).
      by exists evs.
Qed.

(** * The pauses between requests *)

Section Pace.
Context (env : Env) (is_req : event → bool) (gap : Z).
Context (Hlog : ∀ lvl msg, is_req (EvLog lvl msg) = false).
Context (Hsleep : ∀ secs r, is_req (EvSleep secs r) = false).
Context (Hgap : gap ≤ 30).

Lemma pace_app b b1 evs1 evs2 :
  pace is_req gap b evs1 = Some b1 →
  pace is_req gap b (evs1 ++ evs2) = pace is_req gap b1 evs2.
Proof.
  revert b. induction evs1 as [|ev evs1 IH]; intros b; simpl.
  - by intros [= ->].
  - destruct (is_req ev).
    + destruct b; [apply IH | done].
    + destruct ev as [| | | | | |secs [[]|e]| | | |]; apply IH.
Qed.

(** Without a request the pace is kept, and readiness is not lost. *)
Lemma pace_steady evs b :
  Forall (λ ev, is_req ev = false) evs →
  ∃ b', pace is_req gap b evs = Some b' ∧ (b = true → b' = true).
Proof.
  intros Hall. revert b. induction Hall as [|ev evs Hev _ IH]; intros b; simpl.
  - by exists b.
  - rewrite Hev.
    destruct ev as [| | | | | |secs [[]|e]| | | |]; try apply IH.
    destruct (IH (b || (gap <=? secs))) as (b' & Hp & Hb).
    exists b'. split; [done|]. intros ->. by apply Hb.
Qed.

Lemma walks_steady {A} (m : M A) b g :
  traced (λ ev, is_req ev = false) m → (g = true → b = true) →
  walks is_req gap b g m.
Proof.
  intros Hm Hg s. destruct (Hm s) as (evs & Ht & Hall & _).
  destruct (pace_steady evs b Hall) as (b' & Hp & Hb).
  exists evs, b'. split_and!; [done..|]. intros Hgt a _. by apply Hb, Hg.
Qed.

Lemma walks_ret {A} (a : A) b : walks is_req gap b b (ret a).
Proof.
  intros s. exists [], b. rewrite app_nil_r. by split_and!.
Qed.

Lemma walks_bind_true {A B} (m : M A) (k : A → M B) b g :
  walks is_req gap b true m → (∀ a, walks is_req gap true g (k a)) →
  walks is_req gap b g (bind m k).
Proof.
  intros Hm Hk s. unfold bind.
  destruct (Hm s) as (evs1 & b1 & Ht1 & Hp1 & Hok1).
  destruct (m s) as [[a|e|] s1]; cbn [fst snd] in *.
  - rewrite (Hok1 eq_refl a eq_refl) in Hp1.
    destruct (Hk a s1) as (evs2 & b2 & Ht2 & Hp2 & Hok2).
    exists (evs1 ++ evs2), b2. rewrite Ht2, Ht1, app_assoc.
    split_and!; [done| |done]. by rewrite (pace_app _ _ _ _ Hp1).
  - exists evs1, b1. by split_and!.
  - exists evs1, b1. by split_and!.
Qed.

Lemma walks_bind_any {A B} (m : M A) (k : A → M B) b g :
  walks is_req gap b false m → (∀ a b1, walks is_req gap b1 g (k a)) →
  walks is_req gap b g (bind m k).
Proof.
  intros Hm Hk s. unfold bind.
  destruct (Hm s) as (evs1 & b1 & Ht1 & Hp1 & _).
  destruct (m s) as [[a|e|] s1]; cbn [fst snd] in *.
  - destruct (Hk a b1 s1) as (evs2 & b2 & Ht2 & Hp2 & Hok2).
    exists (evs1 ++ evs2), b2. rewrite Ht2, Ht1, app_assoc.
    split_and!; [done| |done]. by rewrite (pace_app _ _ _ _ Hp1).
  - exists evs1, b1. by split_and!.
  - exists evs1, b1. by split_and!.
Qed.

Lemma walks_for_each {A} (l : list A) (body : A → M unit) :
  (∀ x, walks is_req gap true true (body x)) →
  walks is_req gap true true (for_each l body).
Proof.
  intros Hb. induction l as [|x l IH]; simpl.
  - apply walks_ret.
  - apply walks_bind_true; [done|]. by intros _.
Qed.

(** A sleep of [gap] seconds or more that returns makes ready. *)
Lemma walks_sleep secs b :
  gap ≤ secs → walks is_req gap b true (sleep env secs).
Proof.
  intros Hsecs s. unfold sleep. cbn zeta. cbn [fst snd emit trace].
  destruct (secs <? 0).
  { eexists [_], b. split; [done|]. simpl. rewrite Hsleep. by split. }
  destruct (env_sleep env (trace s) secs).
  { eexists [_], b. split; [done|]. simpl. rewrite Hsleep. by split. }
  eexists [_], true. split; [done|]. simpl. rewrite Hsleep.
  destruct (Z.leb_spec gap secs); [|lia]. by rewrite orb_true_r.
Qed.

(** One iteration: ready again whenever the loop goes on. *)
Lemma pace_guarded cyc bye s :
  walks is_req gap true true cyc →
  ∃ evs b', trace (guarded env cyc bye s).2 = trace s ++ evs ∧
            pace is_req gap true evs = Some b' ∧
            ((guarded env cyc bye s).1 = Ok Continue → b' = true).
Proof.
  intros Hc. rewrite guarded_eq.
  destruct (Hc s) as (evs & b1 & Ht & Hp & Hok).
  destruct (cyc s) as [[[]|[cls msg|]|] s1]; cbn [fst snd] in *.
  - exists evs, b1. split_and!; [done..|]. intros _. by apply (Hok eq_refl tt).
  - cbn zeta. destruct (env_sleep env _ 30); cbn [fst snd emit trace].
    + eexists (evs ++ [_; _]), b1. rewrite Ht, <- !app_assoc.
      split_and!; [done| |done].
      rewrite (pace_app _ _ _ _ Hp). simpl. by rewrite Hlog, Hsleep.
    + eexists (evs ++ [_; _]), true. rewrite Ht, <- !app_assoc.
      split_and!; [done| |done].
      rewrite (pace_app _ _ _ _ Hp). simpl. rewrite Hlog, Hsleep.
      destruct (Z.leb_spec gap 30); [|lia]. by rewrite orb_true_r.
  - eexists (evs ++ [_]), b1. cbn [emit trace]. rewrite Ht, <- !app_assoc.
    split_and!; [done| |done].
    rewrite (pace_app _ _ _ _ Hp). simpl. by rewrite Hlog.
  - exists evs, b1. by split_and!.
Qed.

Lemma pace_while cyc bye fuel s :
  walks is_req gap true true cyc →
  ∃ evs b', trace (while_true fuel (guarded env cyc bye) s).2 = trace s ++ evs ∧
            pace is_req gap true evs = Some b'.
Proof.
  intros Hc. revert s. induction fuel as [|n IH]; intros s.
  { exists [], true. by rewrite app_nil_r. }
  cbn [while_true]. unfold bind at 1.
  destruct (pace_guarded cyc bye s Hc) as (evs1 & b1 & Ht1 & Hp1 & Hok1).
  destruct (guarded env cyc bye s) as [[[|]|e|] s1]; cbn [fst snd] in *;
    [|by exists evs1, b1..].
  rewrite (Hok1 eq_refl) in Hp1.
  destruct (IH s1) as (evs2 & b2 & Ht2 & Hp2).
  exists (evs1 ++ evs2), b2. rewrite Ht2, Ht1, app_assoc. split; [done|].
  by rewrite (pace_app _ _ _ _ Hp1).
Qed.

Lemma publish_keeps_pace ex q published failed d b :
  (∀ ev, is_connect_event ev = true → is_req ev = false) →
  (∀ d r, is_req (EvJsonDumps d r) = false) →
  (∀ c r, is_req (EvBroker c r) = false) →
  walks is_req gap b false (publish_on env ex q published failed d).
Proof.
  intros HC Hd Hb. apply walks_steady; [|done].
  by apply traced_publish_events.
Qed.
End Pace.

Section PaceServices.
Context (env : Env).

Lemma connect_event_no_get_news ev : is_connect_event ev = true → is_get_news ev = false.
Proof. by destruct ev as [[]| | | | | | | | | |]. Qed.

Lemma connect_event_no_http_get ev : is_connect_event ev = true → is_http_get ev = false.
Proof. by destruct ev as [[]| | | | | | | | | |]. Qed.

Lemma news_topic_walks topic :
  walks is_get_news 2 true true (GNewsService.handle_topic env topic).
Proof.
  unfold GNewsService.handle_topic.
  apply walks_bind_any.
  - intros s. rewrite fetch_news_eq. cbn zeta.
    destruct (env_get_news env _ topic) as [arts|[cls msg|]];
      cbn [fst snd emit trace].
    + eexists [_; _], _. rewrite <- !app_assoc. by split_and!.
    + eexists [_; _; _], _. rewrite <- !app_assoc. by split_and!.
    + eexists [_; _], _. rewrite <- !app_assoc. by split_and!.
  - intros arts b1. apply walks_bind_any; [|intros _ b2; by apply walks_sleep].
    apply walks_steady; [|done].
    unfold GNewsService.handle_article, GNewsService.process_article,
      GNewsService.publish_news, GNewsService.mark, GNewsService.prune.
    repeat traced_step; try done.
    apply traced_publish_events; [apply connect_event_no_get_news | done..].
Qed.

Lemma news_cycle_walks : walks is_get_news 2 true true (GNewsService.cycle env).
Proof.
  unfold GNewsService.cycle.
  apply walks_bind_true; [apply walks_for_each, news_topic_walks|].
  intros _. apply walks_steady; [|done]. repeat traced_step; done.
Qed.

Lemma scraper_symbol_walks symbol :
  walks is_http_get 3 true true (StatusInvestScraper.handle_symbol env symbol).
Proof.
  unfold StatusInvestScraper.handle_symbol.
  apply walks_bind_any.
  - intros s.
    unfold StatusInvestScraper.scrape_stock, StatusInvestScraper._extract_indicator,
      try_except, bind, log, modify, http_get, utcnow_isoformat,
      except_Exception, of_reply, ret. cbn zeta. simpl.
    destruct (env_http env _ _) as [[]|[[] msg|]]; simpl;
      eexists _, _; (split; [by rewrite <- ?app_assoc|]); by split.
  - intros data b1. apply walks_bind_any; [|intros _ b2; by apply walks_sleep].
    destruct data as [[|item items]|];
      [apply walks_steady; [apply traced_ret | done]
      | | apply walks_steady; [apply traced_ret | done]].
    unfold StatusInvestScraper.publish_data.
    apply publish_keeps_pace; [apply connect_event_no_http_get | done..].
Qed.

Lemma scraper_cycle_walks :
  walks is_http_get 3 true true (StatusInvestScraper.cycle env).
Proof.
  unfold StatusInvestScraper.cycle.
  apply walks_bind_true; [apply walks_for_each, scraper_symbol_walks|].
  intros _. apply walks_steady; [|done]. repeat traced_step; done.
Qed.

(** X12. Requests are never made back to back, on any path through [run]:
    between two calls of the GNews client a sleep of at least 2 seconds has
    returned, and between two HTTP requests of the scraper a sleep of at
    least 3 seconds has returned.  This holds across cycles and across the
    error path too, where the 30-second pause stands in for the per-item
    pause that an exception skipped. *)
Theorem requests_are_paced fuel s :
  is_Some (pace is_get_news 2 true
             (events_since s (GNewsService.run env fuel s).2)) ∧
  is_Some (pace is_http_get 3 true
             (events_since s (StatusInvestScraper.run env fuel s).2)).
Proof.
  split.
  - rewrite news_run_eq, news_iteration_guarded.
    match goal with
    | |- context [while_true fuel ?g ?s0] =>
        destruct (pace_while env is_get_news 2 (λ _ _, eq_refl) (λ _ _, eq_refl)
                    ltac:(lia) (GNewsService.cycle env)
                    "Shutting down GNews Service..." fuel s0 news_cycle_walks)
          as (evs & b' & Ht & Hp)
    end.
    erewrite events_since_app;
      [|rewrite Ht; cbn [emit trace set_processed_urls];
        rewrite <- !app_assoc; reflexivity].
    simpl. by rewrite Hp.
  - rewrite scraper_run_eq, scraper_iteration_guarded.
    match goal with
    | |- context [while_true fuel ?g ?s0] =>
        destruct (pace_while env is_http_get 3 (λ _ _, eq_refl) (λ _ _, eq_refl)
                    ltac:(lia) (StatusInvestScraper.cycle env)
                    "Shutting down Scraping Worker..." fuel s0 scraper_cycle_walks)
          as (evs & b' & Ht & Hp)
    end.
    erewrite events_since_app;
      [|rewrite Ht; cbn [emit trace]; rewrite <- !app_assoc; reflexivity].
    simpl. by rewrite Hp.
Qed.
End PaceServices.

(** Two requests in a row break the pace; a 3-second sleep between them
    keeps it. *)
Lemma pace_examples :
  pace is_http_get 3 true
    [EvHttpGet "a" 10 (Returns tt); EvHttpGet "b" 10 (Returns tt)] = None ∧
  pace is_http_get 3 true
    [EvHttpGet "a" 10 (Returns tt); EvSleep 2 (Returns tt);
     EvHttpGet "b" 10 (Returns tt)] = None ∧
  pace is_http_get 3 true
    [EvHttpGet "a" 10 (Returns tt); EvSleep 3 (Returns tt);
     EvHttpGet "b" 10 (Returns tt)] = Some false.
Proof. by split_and!. Qed.

(** * The handles and the messages that go through them *)

Section HandsOver.
Context (env : Env).

Lemma hands_over_quiet {A} (m : M A) :
  kept holds_handles m →
  traced (λ ev, is_dump_ok ev = false ∧ is_basic_publish ev = false) m →
  hands_over m.
Proof.
  intros Hk Ht s Hs. split; [by apply Hk|].
  destruct (Ht s) as (evs & Htr & Hall & _). exists evs. split; [done|].
  rewrite !count_none; [done|..]; eapply Forall_impl; try exact Hall;
    by intros ev [? ?].
Qed.

Lemma hands_over_ret {A} (a : A) : hands_over (ret a).
Proof.
  intros s Hs. split; [done|]. exists []. by rewrite app_nil_r.
Qed.

Lemma hands_over_bind {A B} (m : M A) (k : A → M B) :
  hands_over m → (∀ a, hands_over (k a)) → hands_over (bind m k).
Proof.
  intros Hm Hk s Hs. unfold bind.
  destruct (Hm s Hs) as (H1 & evs1 & Ht1 & Hc1).
  destruct (m s) as [[a|e|] s1]; cbn [fst snd] in *;
    [|split; [done | by exists evs1]..].
  destruct (Hk a s1 H1) as (H2 & evs2 & Ht2 & Hc2).
  split; [done|]. exists (evs1 ++ evs2).
  rewrite Ht2, Ht1, app_assoc, !count_app, Hc1, Hc2. done.
Qed.

Lemma hands_over_try_except {A} (m : M A) h :
  hands_over m → (∀ e k, h e = Some k → hands_over k) →
  hands_over (try_except m h).
Proof.
  intros Hm Hh s Hs. unfold try_except.
  destruct (Hm s Hs) as (H1 & evs1 & Ht1 & Hc1).
  destruct (m s) as [[a|e|] s1]; cbn [fst snd] in *;
    [split; [done | by exists evs1] | | split; [done | by exists evs1]].
  destruct (h e) as [k|] eqn:He; [|split; [done | by exists evs1]].
  destruct (Hh e k He s1 H1) as (H2 & evs2 & Ht2 & Hc2).
  split; [done|]. exists (evs1 ++ evs2).
  rewrite Ht2, Ht1, app_assoc, !count_app, Hc1, Hc2. done.
Qed.

Lemma hands_over_except_Exception {A} (f : exn → string → M A) e k :
  (∀ cls msg, hands_over (f (PyException cls msg) msg)) →
  except_Exception f e = Some k → hands_over k.
Proof.
  intros Hf. destruct e as [cls msg|]; simpl; [|done].
  intros [= <-]. apply Hf.
Qed.

Lemma hands_over_for_each {A} (l : list A) (body : A → M unit) :
  (∀ x, hands_over (body x)) → hands_over (for_each l body).
Proof.
  intros Hb. induction l as [|x l IH]; simpl; [apply hands_over_ret|].
  apply hands_over_bind; [done|]. by intros _.
Qed.

Lemma hands_over_while_true fuel (body : M loop_ctl) :
  hands_over body → hands_over (while_true fuel body).
Proof.
  intros Hb. induction fuel as [|n IH]; simpl.
  - intros s Hs. split; [done|]. exists []. by rewrite app_nil_r.
  - apply hands_over_bind; [done|]. intros [|]; [done | apply hands_over_ret].
Qed.

Lemma hands_over_connect ex q : hands_over (connect_rabbitmq_on env ex q).
Proof.
  apply hands_over_quiet; [apply kept_handles_connect|].
  apply traced_connect_events. by intros [[]| | | | | | | | | |].
Qed.

(** The publish method, with a channel at hand: the message [json.dumps]
    returns goes to [basic_publish]. *)
Lemma hands_over_publish ex q published failed d :
  hands_over (publish_on env ex q published failed d).
Proof.
  intros s Hs. split; [by apply kept_handles_publish|].
  destruct Hs as [Hc [ch Hch]].
  rewrite (publish_on_eq env ex q published failed d s ch Hch). cbn zeta.
  assert (Hconn : ∀ s1, is_Some (connection s1) → is_Some (channel s1) →
            ∃ evs, trace (connect_rabbitmq_on env ex q s1).2 = trace s1 ++ evs ∧
                   count is_dump_ok evs = 0%nat ∧ count is_basic_publish evs = 0%nat).
  { intros s1 H1 H2.
    destruct (traced_connect_events env
                (λ ev, is_dump_ok ev = false ∧ is_basic_publish ev = false)
                ltac:(by intros [[]| | | | | | | | | |]) ex q s1)
      as (evs & Ht & Hall & _).
    exists evs. split; [done|].
    split; apply count_none; eapply Forall_impl; try exact Hall; by intros ev [? ?]. }
  destruct (env_json_dumps env d) as [body|[cls msg|]].
  - destruct (env_pika env _ _) as [[]|[cls msg|]].
    + eexists [_; _; _]. cbn [fst snd emit trace]. by rewrite <- !app_assoc.
    + match goal with
      | |- context [connect_rabbitmq_on env ex q ?s1] =>
          destruct (Hconn s1) as (evs & -> & Hd & Hp); [done | by exists ch |]
      end.
      eexists ([_; _; _] ++ evs). cbn [emit trace]. rewrite <- !app_assoc.
      split; [done|]. rewrite !count_app, Hd, Hp. done.
    + eexists [_; _]. cbn [fst snd emit trace]. by rewrite <- !app_assoc.
  - match goal with
    | |- context [connect_rabbitmq_on env ex q ?s1] =>
        destruct (Hconn s1) as (evs & -> & Hd & Hp); [done | by exists ch |]
    end.
    eexists ([_; _] ++ evs). cbn [emit trace]. rewrite <- !app_assoc.
    split; [done|]. rewrite !count_app, Hd, Hp. done.
  - eexists [_]. cbn [fst snd emit trace]. done.
Qed.
End HandsOver.

Ltac hands_step :=
  lazymatch goal with
  | |- hands_over (ret _) => apply hands_over_ret
  | |- hands_over (publish_on _ _ _ _ _ _) => apply hands_over_publish
  | |- hands_over (for_each _ _) => apply hands_over_for_each; intros ?
  | |- hands_over (while_true _ _) => apply hands_over_while_true
  | |- hands_over (bind _ _) => apply hands_over_bind; [|intros ?]
  | |- hands_over (try_except _ (except_Exception _)) =>
      apply hands_over_try_except;
      [|intros ? ?; apply hands_over_except_Exception; intros ? ?]
  | |- hands_over (try_except _ _) =>
      apply hands_over_try_except;
      [|let e := fresh "e" in
        intros e ?; destruct e as [[]?|]; intros [= <-]]
  | |- hands_over (match ?x with _ => _ end) => destruct x
  | |- hands_over _ =>
      apply hands_over_quiet; [repeat handles_step | repeat traced_step; done]
  end.

Lemma hands_over_news_run env fuel : hands_over (GNewsService.run env fuel).
Proof.
  unfold GNewsService.run, GNewsService.iteration, GNewsService.cycle,
    GNewsService.handle_topic, GNewsService.fetch_news,
    GNewsService.handle_article, GNewsService.process_article,
    GNewsService.publish_news, GNewsService.mark, GNewsService.prune.
  repeat hands_step.
Qed.

Lemma hands_over_scraper_run env fuel : hands_over (StatusInvestScraper.run env fuel).
Proof.
  unfold StatusInvestScraper.run, StatusInvestScraper.iteration,
    StatusInvestScraper.cycle, StatusInvestScraper.handle_symbol,
    StatusInvestScraper.scrape_stock, StatusInvestScraper._extract_indicator,
    StatusInvestScraper.publish_data.
  repeat hands_step.
Qed.

(** X3.  Once the constructor has returned, the service object holds a
    connection and a channel, and neither is unset again: both are set
    whenever [run] has ended or its fuel is spent.  A reconnect only
    overwrites them, each as soon as its call has returned; one that fails
    after it has opened a connection leaves the new connection beside the
    old channel.  So inside [run] the publish method never finds
    [self.channel] unset: every message [json.dumps] returned during [run]
    was handed to [basic_publish], the two calls are equal in number. *)
Theorem handles_stay_set env fuel s :
  (∀ s0, GNewsService.__init__ env s = (Ok tt, s0) →
         holds_handles s0 ∧ holds_handles (GNewsService.run env fuel s0).2 ∧
         count is_dump_ok (events_since s0 (GNewsService.run env fuel s0).2)
         = count is_basic_publish
             (events_since s0 (GNewsService.run env fuel s0).2)) ∧
  (∀ s0, StatusInvestScraper.__init__ env s = (Ok tt, s0) →
         holds_handles s0 ∧ holds_handles (StatusInvestScraper.run env fuel s0).2 ∧
         count is_dump_ok (events_since s0 (StatusInvestScraper.run env fuel s0).2)
         = count is_basic_publish
             (events_since s0 (StatusInvestScraper.run env fuel s0).2)).
Proof.
  split; intros s0 Hinit.
  - assert (H0 : holds_handles s0).
    { unfold GNewsService.__init__ in Hinit.
      apply (connect_success env "market_news" "news_queue") in Hinit
        as (_ & conn & ch & _ & Hc & Hch).
      unfold holds_handles. by rewrite Hc, Hch. }
    split; [done|].
    destruct (hands_over_news_run env fuel s0 H0) as (H1 & evs & Ht & Hcount).
    split; [done|]. by rewrite (events_since_app _ _ _ Ht).
  - assert (H0 : holds_handles s0).
    { unfold StatusInvestScraper.__init__, bind, fresh, modify in Hinit.
      simpl in Hinit.
      apply (connect_success env "fundamental_data" "fundamentals_queue") in Hinit
        as (_ & conn & ch & _ & Hc & Hch).
      unfold holds_handles. by rewrite Hc, Hch. }
    split; [done|].
    destruct (hands_over_scraper_run env fuel s0 H0) as (H1 & evs & Ht & Hcount).
    split; [done|]. by rewrite (events_since_app _ _ _ Ht).
Qed.

(** With a broker that still gives connections but no channel, the
    reconnect after the failed write fails: the object then holds the last
    connection it opened and the channel of the first. *)
Lemma handles_stay_set_witness :
  let s0 := connected env_channel_lost in
  let s1 := (GNewsService.run env_channel_lost 1 s0).2 in
  holds_handles s1 ∧
  count is_basic_publish (events_since s0 s1) = 1%nat ∧
  (connection s0, channel s0) = (Some 0%nat, Some 1%nat) ∧
  (connection s1, channel s1) = (Some 47%nat, Some 1%nat).
Proof.
  intros s0 s1.
  pose proof (handles_stay_set env_channel_lost 1 initial) as [H _].
  destruct (H s0) as (_ & H1 & Hcount); [vm_compute; reflexivity|].
  split; [exact H1|]. split.
  - fold s1 in Hcount. rewrite <- Hcount. vm_compute. reflexivity.
  - split; vm_compute; reflexivity.
Defined.

(** * The retry budget *)

Section GivesUp.
Context (env : Env) (ex q : string).

(** The [try] block of an attempt raises what one of its five calls
    raised, the calls before it having returned. *)
Lemma connect_attempt_raises s e s1 :
  connect_attempt env ex q s = (Raise e, s1) →
  ∃ conn ch n c,
    topology_events env conn ch ex q !! n = Some (EvBroker c (Returns tt)) ∧
    trace s1 = trace s ++ take n (topology_events env conn ch ex q)
                       ++ [EvBroker c (Raises e)].
Proof.
  unfold connect_attempt, bind, fresh, pika_call, modify, log, of_reply.
  cbn zeta. cbn [fst snd].
  destruct (env_pika env _ _) as [[]|e0] eqn:H1; cbn [fst snd].
  2:{ intros [= <- <-]. exists (length (trace s)), 0%nat, 0%nat. eexists.
      split; [reflexivity|]. reflexivity. }
  destruct (env_pika env _ _) as [[]|e0] eqn:H2 in |- *; cbn [fst snd].
  2:{ intros [= <- <-]. eexists (length (trace s)), 0%nat, 1%nat, _.
      split; [reflexivity|]. cbn [emit trace set_connection set_channel take app].
      by rewrite <- !app_assoc. }
  destruct (env_pika env _ _) as [[]|e0] eqn:H3 in |- *; cbn [fst snd].
  2:{ intros [= <- <-]. eexists (length (trace s)), _, 2%nat, _.
      split; [reflexivity|]. cbn [emit trace set_connection set_channel take app].
      by rewrite <- !app_assoc. }
  destruct (env_pika env _ _) as [[]|e0] eqn:H4 in |- *; cbn [fst snd].
  2:{ intros [= <- <-]. eexists (length (trace s)), _, 3%nat, _.
      split; [reflexivity|]. cbn [emit trace set_connection set_channel take app].
      by rewrite <- !app_assoc. }
  destruct (env_pika env _ _) as [[]|e0] eqn:H5 in |- *; cbn [fst snd].
  2:{ intros [= <- <-]. eexists (length (trace s)), _, 4%nat, _.
      split; [reflexivity|]. cbn [emit trace set_connection set_channel take app].
      by rewrite <- !app_assoc. }
  done.
Qed.

Lemma connect_attempt_ends s : (connect_attempt env ex q s).1 ≠ OutOfFuel.
Proof.
  unfold connect_attempt, bind, fresh, pika_call, modify, log, of_reply.
  cbn zeta. cbn [fst snd].
  repeat (destruct (env_pika env _ _) as [[]|?] in |- *; cbn [fst snd]; try done).
Qed.

Lemma attempt_eq k s :
  attempt env ex q k s
  = match connect_attempt env ex q s with
    | (Ok _, s1) => (Ok (Some tt), s1)
    | (Raise (PyException cls msg), s1) =>
        connect_failed env k (PyException cls msg) msg s1
    | (Raise KeyboardInterrupt, s1) => (Raise KeyboardInterrupt, s1)
    | (OutOfFuel, s1) => (OutOfFuel, s1)
    end.
Proof.
  unfold attempt, try_except, bind, ret.
  by destruct (connect_attempt env ex q s) as [[[]|[cls msg|]|] s1].
Qed.

Lemma connect_failed_eq k e msg s :
  connect_failed env k e msg s
  = let s1 := emit (EvLog ERROR ("Failed to connect to RabbitMQ (attempt "
                                 +:+ pretty (k + 1) +:+ "/" +:+ pretty max_retries
                                 +:+ "): " +:+ msg)) s in
    if k <? max_retries - 1
    then if env_sleep env (trace s1) retry_delay
         then (Raise KeyboardInterrupt,
               emit (EvSleep retry_delay (Raises KeyboardInterrupt)) s1)
         else (Ok None, emit (EvSleep retry_delay (Returns tt)) s1)
    else (Raise e, s1).
Proof.
  unfold connect_failed, bind, log, modify, sleep, raise, ret. cbn zeta.
  cbn [fst snd]. destruct (k <? max_retries - 1); [|done].
  change (retry_delay <? 0) with false. cbn iota.
  by destruct (env_sleep env _ retry_delay).
Qed.

(** One attempt with its handler: it succeeds, or a call was interrupted,
    or it failed and is followed by the error line and then either the pause
    or, at the last attempt, the exception. *)
Lemma attempt_outcomes k s :
  (attempt env ex q k s).1 = Ok (Some tt) ∨
  existsb is_interrupt (events_since s (attempt env ex q k s).2) = true ∨
  ∃ f, failed_calls env ex q f ∧
       trace (attempt env ex q k s).2 = trace s ++ attempt_log k f ∧
       (attempt env ex q k s).1
       = (if k <? max_retries - 1 then Ok None else Raise (f_exn f)).
Proof.
  rewrite attempt_eq.
  pose proof (connect_attempt_raises s) as Hraise.
  pose proof (connect_attempt_ends s) as Hends.
  destruct (connect_attempt env ex q s) as [[[]|[cls msg|]|] s1];
    cbn [fst snd] in *; [by left| | |done].
  - destruct (Hraise _ _ eq_refl) as (conn & ch & n & c & Hn & Ht).
    set (f := {| f_calls := take n (topology_events env conn ch ex q)
                            ++ [EvBroker c (Raises (PyException cls msg))];
                 f_cls := cls; f_msg := msg |}).
    assert (Hf : failed_calls env ex q f) by (by exists conn, ch, n, c).
    rewrite connect_failed_eq. cbn zeta.
    destruct (k <? max_retries - 1) eqn:Hk.
    + destruct (env_sleep env _ retry_delay) eqn:Hs; cbn [fst snd].
      * right; left.
        erewrite events_since_app;
          [|cbn [emit trace]; rewrite Ht; by rewrite <- !app_assoc].
        rewrite !existsb_app. cbn. by rewrite !orb_true_r.
      * right; right. exists f. split; [done|]. split; [|done].
        unfold attempt_log. rewrite Hk. cbn [emit trace]. rewrite Ht.
        cbn [f_calls f]. by rewrite <- !app_assoc.
    + right; right. exists f. split; [done|]. split; [|done].
      unfold attempt_log. rewrite Hk. cbn [fst snd emit trace]. rewrite Ht.
      cbn [f_calls f]. by rewrite <- !app_assoc.
  - right; left.
    destruct (Hraise _ _ eq_refl) as (conn & ch & n & c & Hn & Ht).
    rewrite (events_since_app _ _ _ Ht), existsb_app. cbn. by rewrite orb_true_r.
Qed.

Lemma attempt_grows k s : ∃ evs, trace (attempt env ex q k s).2 = trace s ++ evs.
Proof.
  destruct (traced_attempt env (λ _, True) (λ _ _, I) ex q k s) as (evs & Ht & _).
  by exists evs.
Qed.

Lemma loop_cons k l s :
  retry_loop env ex q (k :: l) s
  = match attempt env ex q k s with
    | (Ok (Some _), s1) => (Ok tt, s1)
    | (Ok None, s1) => retry_loop env ex q l s1
    | (Raise e, s1) => (Raise e, s1)
    | (OutOfFuel, s1) => (OutOfFuel, s1)
    end.
Proof.
  unfold retry_loop. cbn [for_in]. unfold bind at 1 2.
  destruct (attempt env ex q k s) as [[[[]|]|e|] s1]; try done.
Qed.

Lemma loop_grows l s : ∃ evs, trace (retry_loop env ex q l s).2 = trace s ++ evs.
Proof.
  destruct (traced_bind (λ _, True) (for_in l (attempt env ex q)) (λ _, ret tt)) with
    (s := s) as (evs & Ht & _).
  - apply traced_for_in. intros k. by apply traced_attempt.
  - intros _. apply traced_ret.
  - by exists evs.
Qed.

(** A loop over attempts that does not end normally, with no call
    interrupted, has gone from failure to failure up to the attempt that
    raises. *)
Lemma loop_gives_up l s :
  (retry_loop env ex q l s).1 ≠ Ok tt →
  existsb is_interrupt (events_since s (retry_loop env ex q l s).2) = false →
  ∃ fs f, gave_up l fs ∧ Forall (failed_calls env ex q) fs ∧
          last fs = Some f ∧ (retry_loop env ex q l s).1 = Raise (f_exn f) ∧
          trace (retry_loop env ex q l s).2 = trace s ++ retry_log l fs.
Proof.
  revert s. induction l as [|k l IH]; intros s; [done|].
  rewrite loop_cons.
  destruct (attempt_outcomes k s) as [Hok|[Hint|(f & Hf & Ht & Hr)]].
  - destruct (attempt env ex q k s) as [[[[]|]|e|] s1]; by cbn [fst snd] in *.
  - intros _ Hno. exfalso.
    destruct (attempt_grows k s) as (evs1 & Ht1).
    rewrite (events_since_app _ _ _ Ht1) in Hint.
    destruct (attempt env ex q k s) as [[[[]|]|e|] s1]; cbn [fst snd] in *;
      try (rewrite (events_since_app _ _ _ Ht1) in Hno; congruence).
    destruct (loop_grows l s1) as (evs2 & Ht2).
    rewrite (events_since_app s _ (evs1 ++ evs2)) in Hno
      by (by rewrite Ht2, Ht1, app_assoc).
    rewrite existsb_app, Hint in Hno. done.
  - destruct (attempt env ex q k s) as [r1 s1]; cbn [fst snd] in *. subst r1.
    destruct (k <? max_retries - 1) eqn:Hk.
    + intros Hne Hno.
      destruct (loop_grows l s1) as (evs2 & Ht2).
      rewrite (events_since_app s _ (attempt_log k f ++ evs2)) in Hno
        by (by rewrite Ht2, Ht, app_assoc).
      rewrite existsb_app in Hno. apply orb_false_elim in Hno as [_ Hno].
      rewrite <- (events_since_app s1 _ evs2 Ht2) in Hno.
      destruct (IH s1 Hne Hno) as (fs & f' & Hg & Hall & Hlast & Hres & Htr).
      exists (f :: fs), f'. split_and!.
      * cbn [gave_up]. by rewrite Hk.
      * by constructor.
      * destruct fs; [done|]. done.
      * done.
      * rewrite Htr, Ht. unfold retry_log. cbn [zip_with concat].
        by rewrite <- !app_assoc.
    + intros _ _. exists [f], f. split_and!.
      * cbn [gave_up]. by rewrite Hk.
      * by constructor.
      * done.
      * done.
      * cbn [fst snd]. rewrite Ht. unfold retry_log.
        destruct l; cbn [zip_with concat]; by rewrite app_nil_r.
Qed.

Lemma failed_calls_counts f :
  failed_calls env ex q f →
  count is_connection_attempt (f_calls f) = 1%nat ∧ sleeps (f_calls f) = [].
Proof.
  intros (conn & ch & n & c & Hn & ->).
  do 5 (destruct n as [|n]; [by simplify_eq/=|]).
  destruct n; by simplify_eq/=.
Qed.

(** [connect_rabbitmq] that fails, no call having been interrupted. *)
Lemma connect_gives_up s :
  (connect_rabbitmq_on env ex q s).1 ≠ Ok tt →
  existsb is_interrupt (events_since s (connect_rabbitmq_on env ex q s).2) = false →
  ∃ f1 f2 f3 f4 f5,
    Forall (failed_calls env ex q) [f1; f2; f3; f4; f5] ∧
    (connect_rabbitmq_on env ex q s).1 = Raise (f_exn f5) ∧
    events_since s (connect_rabbitmq_on env ex q s).2 = gives_up_log f1 f2 f3 f4 f5 ∧
    count is_connection_attempt (gives_up_log f1 f2 f3 f4 f5) = 5%nat ∧
    sleeps (gives_up_log f1 f2 f3 f4 f5) = [5; 5; 5; 5].
Proof.
  change (connect_rabbitmq_on env ex q) with (retry_loop env ex q (range max_retries)).
  rewrite range_max_retries. intros Hne Hno.
  destruct (loop_gives_up _ s Hne Hno) as (fs & f & Hg & Hall & Hlast & Hres & Htr).
  destruct fs as [|f1 [|f2 [|f3 [|f4 [|f5 fs]]]]]; vm_compute in Hg; try done.
  subst fs. cbn in Hlast. injection Hlast as <-.
  exists f1, f2, f3, f4, f5. split; [done|]. split; [done|].
  split.
  { apply events_since_app. rewrite Htr. f_equal.
    unfold retry_log, gives_up_log, attempt_log. cbn [zip_with concat].
    change (0 <? max_retries - 1) with true. change (1 <? max_retries - 1) with true.
    change (2 <? max_retries - 1) with true. change (3 <? max_retries - 1) with true.
    change (4 <? max_retries - 1) with false.
    rewrite app_nil_r, <- !app_assoc. reflexivity. }
  apply Forall_cons in Hall as [H1 Hall]. apply Forall_cons in Hall as [H2 Hall].
  apply Forall_cons in Hall as [H3 Hall]. apply Forall_cons in Hall as [H4 Hall].
  apply Forall_cons in Hall as [H5 _].
  destruct (failed_calls_counts _ H1) as [Hc1 Hs1].
  destruct (failed_calls_counts _ H2) as [Hc2 Hs2].
  destruct (failed_calls_counts _ H3) as [Hc3 Hs3].
  destruct (failed_calls_counts _ H4) as [Hc4 Hs4].
  destruct (failed_calls_counts _ H5) as [Hc5 Hs5].
  unfold gives_up_log. split.
  - rewrite !count_app, Hc1, Hc2, Hc3, Hc4, Hc5. reflexivity.
  - rewrite !sleeps_app, Hs1, Hs2, Hs3, Hs4, Hs5. reflexivity.
Qed.
End GivesUp.

(** C3 (as amended).  Whenever [connect_rabbitmq] fails and none of its
    calls was interrupted, in either service and from any state, every one of
    its attempts has failed, at whichever of its five broker calls, and its
    log is exactly: the calls of attempt 1, its error line, a 5-second sleep;
    the same for attempts 2, 3 and 4; the calls of attempt 5 and its error
    line.  So there are five attempts, four sleeps of 5 seconds between
    consecutive attempts, no sleep after the fifth and no sixth attempt; and
    the exception that comes out is the one the failing call of the fifth
    attempt raised.  At start-up that exception leaves the constructor and
    [main] ends with it, whatever the fuel: its log is the log of the
    constructor, so [run] is never entered.  And a [connect_rabbitmq] that
    returns has ended on an attempt whose calls all returned: when every
    attempt fails it does not return. *)
Theorem startup_gives_up_after_five_attempts env fuel s :
  (∀ s0,
     (GNewsService.connect_rabbitmq env s0).1 ≠ Ok tt →
     existsb is_interrupt
       (events_since s0 (GNewsService.connect_rabbitmq env s0).2) = false →
     ∃ f1 f2 f3 f4 f5,
       Forall (failed_calls env "market_news" "news_queue") [f1; f2; f3; f4; f5] ∧
       (GNewsService.connect_rabbitmq env s0).1 = Raise (f_exn f5) ∧
       events_since s0 (GNewsService.connect_rabbitmq env s0).2
       = gives_up_log f1 f2 f3 f4 f5 ∧
       count is_connection_attempt (gives_up_log f1 f2 f3 f4 f5) = 5%nat ∧
       sleeps (gives_up_log f1 f2 f3 f4 f5) = [5; 5; 5; 5]) ∧
  (∀ s0,
     (StatusInvestScraper.connect_rabbitmq env s0).1 ≠ Ok tt →
     existsb is_interrupt
       (events_since s0 (StatusInvestScraper.connect_rabbitmq env s0).2) = false →
     ∃ f1 f2 f3 f4 f5,
       Forall (failed_calls env "fundamental_data" "fundamentals_queue")
         [f1; f2; f3; f4; f5] ∧
       (StatusInvestScraper.connect_rabbitmq env s0).1 = Raise (f_exn f5) ∧
       events_since s0 (StatusInvestScraper.connect_rabbitmq env s0).2
       = gives_up_log f1 f2 f3 f4 f5 ∧
       count is_connection_attempt (gives_up_log f1 f2 f3 f4 f5) = 5%nat ∧
       sleeps (gives_up_log f1 f2 f3 f4 f5) = [5; 5; 5; 5]) ∧
  ((GNewsService.__init__ env s).1 ≠ Ok tt →
   existsb is_interrupt (events_since s (GNewsService.__init__ env s).2) = false →
   ∃ f1 f2 f3 f4 f5,
     Forall (failed_calls env "market_news" "news_queue") [f1; f2; f3; f4; f5] ∧
     GNewsService.main env fuel s = GNewsService.__init__ env s ∧
     (GNewsService.main env fuel s).1 = Raise (f_exn f5) ∧
     events_since s (GNewsService.main env fuel s).2 = gives_up_log f1 f2 f3 f4 f5) ∧
  ((StatusInvestScraper.__init__ env s).1 ≠ Ok tt →
   existsb is_interrupt
     (events_since s (StatusInvestScraper.__init__ env s).2) = false →
   ∃ f1 f2 f3 f4 f5,
     Forall (failed_calls env "fundamental_data" "fundamentals_queue")
       [f1; f2; f3; f4; f5] ∧
     StatusInvestScraper.main env fuel s = StatusInvestScraper.__init__ env s ∧
     (StatusInvestScraper.main env fuel s).1 = Raise (f_exn f5) ∧
     events_since s (StatusInvestScraper.main env fuel s).2
     = EvSessionNew :: gives_up_log f1 f2 f3 f4 f5) ∧
  (∀ s0 s',
     GNewsService.connect_rabbitmq env s0 = (Ok tt, s') →
     ∃ before conn ch,
       events_since s0 s'
       = before ++ topology_events env conn ch "market_news" "news_queue") ∧
  (∀ s0 s',
     StatusInvestScraper.connect_rabbitmq env s0 = (Ok tt, s') →
     ∃ before conn ch,
       events_since s0 s'
       = before ++ topology_events env conn ch "fundamental_data" "fundamentals_queue").
Proof.
  split_and!; [| | | |
    intros s0 s' Hok;
    destruct (connect_success env _ _ _ _ Hok) as (before & conn & ch & Hevs & _);
    by exists before, conn, ch ..].
  - intros s0. apply connect_gives_up.
  - intros s0. apply connect_gives_up.
  - intros Hne Hno.
    assert (Hmain : GNewsService.main env fuel s = GNewsService.__init__ env s).
    { unfold GNewsService.main, bind.
      by destruct (GNewsService.__init__ env s) as [[[]|e|] s']. }
    destruct (connect_gives_up env "market_news" "news_queue"
                (set_channel None (set_connection None s)) Hne Hno)
      as (f1 & f2 & f3 & f4 & f5 & Hall & Hr & Hevs & _).
    exists f1, f2, f3, f4, f5. rewrite Hmain. by split_and!.
  - intros Hne Hno.
    assert (Hmain : StatusInvestScraper.main env fuel s
                    = StatusInvestScraper.__init__ env s).
    { unfold StatusInvestScraper.main, bind.
      by destruct (StatusInvestScraper.__init__ env s) as [[[]|e|] s']. }
    set (s0 := set_channel None (set_connection None
                 (set_session (Some (length (trace s))) (emit EvSessionNew s)))).
    assert (Hinit : StatusInvestScraper.__init__ env s
                    = connect_rabbitmq_on env "fundamental_data" "fundamentals_queue" s0)
      by reflexivity.
    assert (Hs0 : trace s0 = trace s ++ [EvSessionNew]) by reflexivity.
    rewrite Hinit in Hne, Hno.
    destruct (loop_grows env "fundamental_data" "fundamentals_queue"
                (range max_retries) s0) as (evs & Ht).
    change (retry_loop env "fundamental_data" "fundamentals_queue" (range max_retries))
      with (connect_rabbitmq_on env "fundamental_data" "fundamentals_queue") in Ht.
    rewrite (events_since_app s _ ([EvSessionNew] ++ evs)) in Hno
      by (by rewrite Ht, Hs0, <- app_assoc).
    cbn [app existsb is_interrupt orb] in Hno.
    rewrite <- (events_since_app s0 _ evs Ht) in Hno.
    destruct (connect_gives_up env "fundamental_data" "fundamentals_queue" s0 Hne Hno)
      as (f1 & f2 & f3 & f4 & f5 & Hall & Hr & Hevs & _).
    exists f1, f2, f3, f4, f5. rewrite Hmain, Hinit. split_and!; [done..|].
    rewrite (events_since_app s _ ([EvSessionNew] ++ evs))
      by (by rewrite Ht, Hs0, <- app_assoc).
    rewrite <- Hevs, (events_since_app s0 _ evs Ht). done.
Qed.

(** Connections open but no channel can be had on them: every attempt
    fails at its second call. *)
Lemma startup_gives_up_witness :
  ∃ f1 f2 f3 f4 f5,
    (GNewsService.main env_no_channel 1 initial).1 = Raise (f_exn f5) ∧
    events_since initial (GNewsService.main env_no_channel 1 initial).2
    = gives_up_log f1 f2 f3 f4 f5 ∧
    f_exn f5 = ConnectionError.
Proof.
  pose proof (startup_gives_up_after_five_attempts env_no_channel 1 initial)
    as (_ & _ & H & _).
  assert (Hne : (GNewsService.__init__ env_no_channel initial).1 ≠ Ok tt).
  { intros Hok. vm_compute in Hok. discriminate Hok. }
  assert (Hno : existsb is_interrupt
                  (events_since initial
                     (GNewsService.__init__ env_no_channel initial).2) = false)
    by (vm_compute; reflexivity).
  destruct (H Hne Hno) as (f1 & f2 & f3 & f4 & f5 & _ & _ & Hr & Hevs).
  exists f1, f2, f3, f4, f5. split; [exact Hr|]. split; [exact Hevs|].
  assert (Hc : (GNewsService.main env_no_channel 1 initial).1 = Raise ConnectionError)
    by (vm_compute; reflexivity).
  rewrite Hc in Hr. congruence.
Defined.

(** C3 (as stated) fails: with the broker down for good there is no sixth
    attempt and there are not five retries.  The exception comes out of the
    fifth attempt, after four sleeps. *)
Lemma broker_down_no_sixth_attempt :
  ∃ s', GNewsService.connect_rabbitmq env_broker_down initial
        = (Raise ConnectionError, s') ∧
        count is_connection_attempt (trace s') = 5%nat ∧
        sleeps (trace s') = [5; 5; 5; 5] ∧
        ¬ (count is_connection_attempt (trace s') = 6%nat ∨
           length (sleeps (trace s')) = 5%nat).
Proof.
  eexists. split; [vm_compute; reflexivity|].
  split_and!; [reflexivity | reflexivity |]. intros [H|H]; discriminate H.
Qed.

(** * Each new item once, however the cycles end *)

Section AtMostOnce.
Context (env : Env) (u : string).

Lemma at_most_once_ret : published_at_most_once env u (ret tt).
Proof.
  intros s r s' [= <- <-]. exists []. rewrite app_nil_r. split; [done|].
  intros _ Hnin. split; [done|]. intros _. unfold count. simpl. lia.
Qed.

Lemma at_most_once_bind (m k : M unit) :
  once_per_url env u m → once_per_url env u k →
  published_at_most_once env u m → published_at_most_once env u k →
  published_at_most_once env u (m >> k).
Proof.
  intros HOm HOk HPm HPk s r s'. unfold bind.
  destruct (m s) as [r1 s1] eqn:Hms.
  destruct (HOm s r1 s1 Hms) as (evs1 & Ht1 & O1).
  destruct (HPm s r1 s1 Hms) as (evs1' & Ht1' & P1).
  assert (evs1' = evs1) as -> by (apply (app_inv_head (trace s)); congruence).
  destruct r1 as [[]|e|].
  - intros Hks.
    destruct (HOk s1 r s' Hks) as (evs2 & Ht2 & O2).
    destruct (HPk s1 r s' Hks) as (evs2' & Ht2' & P2).
    assert (evs2' = evs2) as -> by (apply (app_inv_head (trace s1)); congruence).
    exists (evs1 ++ evs2). split; [by rewrite Ht2, Ht1, app_assoc|].
    rewrite existsb_app, count_app. intros [Hp1 Hp2]%orb_false_elim Hnin.
    destruct (O1 Hp1) as (Hsub1 & Ha1 & Hb1 & _).
    destruct (O2 Hp2) as (Hsub2 & Ha2 & Hb2 & _).
    destruct (P1 Hp1 Hnin) as [Pin1 Pout1].
    destruct (decide (u ∈ processed_urls s1)) as [Hin1|Hnin1].
    + rewrite (Pin1 Hin1), (Ha2 Hin1). split; [done|].
      intros Hout. exfalso. apply Hout. by apply Hsub2.
    + rewrite (Hb1 eq_refl Hnin), (bool_decide_eq_false_2 _ Hnin1).
      by apply P2.
  - intros [= <- <-]. exists evs1. split; [done|]. intros Hp Hnin. by apply P1.
  - intros [= <- <-]. exists evs1. split; [done|]. intros Hp Hnin. by apply P1.
Qed.

Lemma at_most_once_for_each {A} (l : list A) (body : A → M unit) :
  (∀ x, once_per_url env u (body x)) →
  (∀ x, published_at_most_once env u (body x)) →
  published_at_most_once env u (for_each l body).
Proof.
  intros HO HP. induction l as [|x l IH]; simpl.
  - apply at_most_once_ret.
  - apply at_most_once_bind; [done| |done|done].
    by apply once_per_url_for_each.
Qed.

Lemma at_most_once_quiet (m : M unit) :
  (∀ s, processed_urls (m s).2 = processed_urls s) →
  traced (λ ev, quiet ev = true) m →
  published_at_most_once env u m.
Proof.
  intros Hcache Hq s r s' Hm.
  destruct (Hq s) as (evs & Ht & Hall & _). specialize (Hcache s).
  rewrite Hm in *. simpl in *.
  exists evs. split; [done|]. intros _ Hnin.
  destruct (quiet_events u evs (forallb_of_Forall _ _ Hall)) as (Hc & _).
  rewrite Hcache, Hc. split; [done|]. intros _. lia.
Qed.

Lemma at_most_once_article topic a :
  published_at_most_once env u (GNewsService.handle_article env topic a).
Proof.
  intros s r s' Hrun.
  destruct (handle_article_spec env u topic a s r s' Hrun)
    as (evs & Ht & _ & _ & Hcount & _ & Hkeep & _).
  exists evs. split; [done|]. intros Hp Hnin. destruct (Hkeep Hp) as [Hok Hnot].
  set (v := default "" (a_url a)) in *. rewrite Hcount. split.
  - intros Hin.
    assert (Hcases : r = Ok tt ∧ v ≠ "" ∨ (r ≠ Ok tt ∨ v = "")).
    { destruct r as [[]|e|]; [|by right; left..].
      destruct (decide (v = "")); [right; by right | left; done]. }
    destruct Hcases as [[Hr Hv]|Hother].
    + rewrite (Hok Hr Hv) in Hin. apply elem_of_union in Hin as [Hin|Hin]; [|done].
      apply elem_of_singleton in Hin as ->.
      by rewrite bool_decide_eq_true_2.
    + rewrite (Hnot Hother) in Hin. done.
  - intros _. destruct (bool_decide _); lia.
Qed.

Lemma at_most_once_topic topic :
  published_at_most_once env u (GNewsService.handle_topic env topic).
Proof.
  assert (Hrest : ∀ arts,
    published_at_most_once env u
      (for_each arts (GNewsService.handle_article env topic) >> sleep env 2)).
  { intros arts. apply at_most_once_bind.
    - apply once_per_url_for_each. intros a. apply once_per_url_article.
    - apply once_per_url_sleep.
    - apply at_most_once_for_each; intros a;
        [apply once_per_url_article | apply at_most_once_article].
    - apply at_most_once_quiet; [done | apply traced_sleep_quiet]. }
  intros s r s'. unfold GNewsService.handle_topic. unfold bind at 1.
  rewrite fetch_news_eq. cbn zeta.
  set (s0 := emit (EvLog INFO _) s).
  destruct (env_get_news env (trace s0) topic) as [arts|[cls msg|]] eqn:Hnews.
  - intros Hrun. destruct (Hrest arts _ _ _ Hrun) as (evs & Ht & H).
    exists ([EvLog INFO ("Fetching news for topic: " +:+ topic);
             EvGetNews topic (Returns arts)] ++ evs).
    split; [rewrite Ht; subst s0; simpl; by rewrite <- !app_assoc|].
    rewrite existsb_app, count_app.
    change (existsb is_prune [_; _]) with false.
    change (count (is_publish_call_for u) [_; _]) with 0%nat.
    simpl orb. intros Hp Hnin. exact (H Hp Hnin).
  - intros Hrun. destruct (Hrest [] _ _ _ Hrun) as (evs & Ht & H).
    exists ([EvLog INFO ("Fetching news for topic: " +:+ topic);
             EvGetNews topic (Raises (PyException cls msg));
             EvLog ERROR ("Error fetching news for " +:+ topic +:+ ": " +:+ msg)]
            ++ evs).
    split; [rewrite Ht; subst s0; simpl; by rewrite <- !app_assoc|].
    rewrite existsb_app, count_app.
    change (existsb is_prune [_; _; _]) with false.
    change (count (is_publish_call_for u) [_; _; _]) with 0%nat.
    simpl orb. intros Hp Hnin. exact (H Hp Hnin).
  - intros [= <- <-].
    exists [EvLog INFO ("Fetching news for topic: " +:+ topic);
            EvGetNews topic (Raises KeyboardInterrupt)].
    split; [subst s0; simpl; by rewrite <- !app_assoc|].
    intros _ Hnin. split; [done|]. intros _. unfold count. simpl. lia.
Qed.

Lemma at_most_once_cycle : published_at_most_once env u (GNewsService.cycle env).
Proof.
  unfold GNewsService.cycle.
  apply at_most_once_bind; [| |
    |apply at_most_once_bind;
       [apply once_per_url_log | apply once_per_url_sleep
       |apply at_most_once_quiet; [done | by apply traced_log]
       |apply at_most_once_quiet; [done | apply traced_sleep_quiet]]].
  - apply once_per_url_for_each. intros topic. apply once_per_url_topic.
  - apply once_per_url_bind; [apply once_per_url_log | apply once_per_url_sleep].
  - apply at_most_once_for_each; intros topic;
      [apply once_per_url_topic | apply at_most_once_topic].
Qed.

(** One iteration of the main loop: the cycle, and what the [except]
    clauses add, which is neither a publication nor a prune. *)
Lemma iteration_once s r s' :
  GNewsService.iteration env s = (r, s') →
  ∃ evs, trace s' = trace s ++ evs ∧
    (existsb is_prune evs = false →
     processed_urls s ⊆ processed_urls s' ∧
     (u ∈ processed_urls s → count (is_publish_call_for u) evs = 0%nat) ∧
     (u ∉ processed_urls s →
      (u ∈ processed_urls s' → count (is_publish_call_for u) evs = 1%nat) ∧
      (u ∉ processed_urls s' → (count (is_publish_call_for u) evs ≤ 1)%nat) ∧
      ((GNewsService.cycle env s).1 = Ok tt → u ∉ processed_urls s' →
       count (is_publish_call_for u) evs = 0%nat))).
Proof.
  rewrite news_iteration_guarded, guarded_eq.
  destruct (GNewsService.cycle env s) as [rc sc] eqn:Hc.
  destruct (once_per_url_cycle env u s _ _ Hc) as (evs & Ht & O).
  destruct (at_most_once_cycle s _ _ Hc) as (evs' & Ht' & P).
  assert (evs' = evs) as -> by (apply (app_inv_head (trace s)); congruence).
  assert (Htail : ∀ tail sf,
    trace sf = trace sc ++ tail → processed_urls sf = processed_urls sc →
    existsb is_prune tail = false → count (is_publish_call_for u) tail = 0%nat →
    rc ≠ Ok tt →
    ∃ evs0, trace sf = trace s ++ evs0 ∧
      (existsb is_prune evs0 = false →
       processed_urls s ⊆ processed_urls sf ∧
       (u ∈ processed_urls s → count (is_publish_call_for u) evs0 = 0%nat) ∧
       (u ∉ processed_urls s →
        (u ∈ processed_urls sf → count (is_publish_call_for u) evs0 = 1%nat) ∧
        (u ∉ processed_urls sf → (count (is_publish_call_for u) evs0 ≤ 1)%nat) ∧
        (rc = Ok tt → u ∉ processed_urls sf →
         count (is_publish_call_for u) evs0 = 0%nat)))).
  { intros tail sf Htr Hcache Hpt Hct Hrc. exists (evs ++ tail).
    split; [by rewrite Htr, Ht, app_assoc|].
    rewrite existsb_app, count_app, Hpt, Hct, orb_false_r, Hcache, Nat.add_0_r.
    intros Hp. destruct (O Hp) as (Hsub & Ha & _). split; [done|]. split; [done|].
    intros Hnin. destruct (P Hp Hnin) as [Pin Pout]. by split_and!. }
  destruct rc as [[]|[cls msg|]|]; cbn [fst snd].
  - intros [= <- <-]. exists evs. split; [done|]. intros Hp.
    destruct (O Hp) as (Hsub & Ha & Hb & _). split; [done|]. split; [done|].
    intros Hnin. destruct (P Hp Hnin) as [Pin Pout]. split_and!; [done..|].
    intros _ Hout. by rewrite (Hb eq_refl Hnin), bool_decide_eq_false_2.
  - cbn zeta. destruct (env_sleep env _ 30); intros [= <- <-];
      (eapply Htail; [cbn [emit trace]; by rewrite <- app_assoc|done..]).
  - intros [= <- <-].
    eapply Htail; [cbn [emit trace]; reflexivity|done..].
  - intros [= <- <-]. eapply (Htail []); [by rewrite app_nil_r|done..].
Qed.
End AtMostOnce.

Section Fundamentals.
Context (env : Env).

Lemma scrape_stock_quiet symbol :
  traced (λ ev, quiet ev = true) (StatusInvestScraper.scrape_stock env symbol).
Proof.
  unfold StatusInvestScraper.scrape_stock, StatusInvestScraper._extract_indicator.
  repeat traced_step; done.
Qed.

(** A pass over one symbol publishes no other symbol. *)
Lemma handle_symbol_other x symbol s :
  x ≠ symbol →
  ∃ evs, trace (StatusInvestScraper.handle_symbol env x s).2 = trace s ++ evs ∧
         count (is_publish_call_for_symbol symbol) evs = 0%nat.
Proof.
  intros Hx. unfold StatusInvestScraper.handle_symbol. unfold bind at 1.
  destruct (scrape_stock_quiet x s) as (evs1 & Ht1 & Hq1 & _).
  apply forallb_of_Forall in Hq1.
  pose proof (count_quiet _ evs1 (symbol_call_not_quiet symbol) Hq1) as Hc1.
  pose proof (scrape_stock_record env x s) as Hrec.
  destruct (StatusInvestScraper.scrape_stock env x s) as [[data|e|] s1];
    cbn [fst snd] in *; [|by exists evs1..].
  assert (Hsleep : ∀ s2 evs2, trace s2 = trace s1 ++ evs2 →
            count (is_publish_call_for_symbol symbol) evs2 = 0%nat →
            ∃ evs, trace (sleep env 3 s2).2 = trace s ++ evs ∧
                   count (is_publish_call_for_symbol symbol) evs = 0%nat).
  { intros s2 evs2 Ht2 Hc2. eexists (evs1 ++ evs2 ++ [_]). unfold sleep.
    cbn [fst snd emit trace]. rewrite Ht2, Ht1, <- !app_assoc. split; [done|].
    rewrite !count_app, Hc1, Hc2. reflexivity. }
  unfold bind.
  destruct data as [[|item items]|]; cbn [fst snd].
  - apply (Hsleep s1 []); [by rewrite app_nil_r | done].
  - destruct (Hrec _ eq_refl) as (now & Hd). rewrite Hd.
    unfold StatusInvestScraper.publish_data.
    destruct (publish_on_shape env "fundamental_data" "fundamentals_queue"
                (λ d, "Published fundamental data for "
                      +:+ py_str (dict_get "symbol" (PyStr "N/A") d))
                "Error publishing data: " (placeholder_record x now) s1)
      as (rd & rest & Ht2 & Hrest).
    assert (Hc2 : count (is_publish_call_for_symbol symbol)
                    (EvJsonDumps (placeholder_record x now) rd :: rest) = 0%nat).
    { rewrite count_cons_false
        by (simpl; by rewrite bool_decide_eq_false_2).
      destruct Hrest as [Hq|(c & rp & rest2 & -> & Hc & Hq)].
      - by apply count_quiet; [apply symbol_call_not_quiet|].
      - rewrite count_cons_false by done.
        by apply count_quiet; [apply symbol_call_not_quiet|]. }
    destruct (publish_on env _ _ _ _ (placeholder_record x now) s1)
      as [[[]|e|] s2]; cbn [fst snd] in *.
    + by apply (Hsleep s2 _ Ht2).
    + eexists. rewrite Ht2, Ht1, <- app_assoc. split; [done|].
      by rewrite count_app, Hc1, Hc2.
    + eexists. rewrite Ht2, Ht1, <- app_assoc. split; [done|].
      by rewrite count_app, Hc1, Hc2.
  - apply (Hsleep s1 []); [by rewrite app_nil_r | done].
Qed.

(** A loop over symbols that ends normally, the page of [symbol] answering
    every time: [symbol] is published once for each time it is in the list. *)
Lemma symbols_published symbol l s s' :
  (∀ h, env_http env h (stock_url symbol) = Returns tt) →
  NoDup l →
  for_each l (StatusInvestScraper.handle_symbol env) s = (Ok tt, s') →
  count (is_publish_call_for_symbol symbol) (events_since s s')
  = (if bool_decide (symbol ∈ l) then 1 else 0)%nat.
Proof.
  intros Hhttp. revert s. induction l as [|x l IH]; intros s Hnd.
  { intros [= <-]. unfold events_since. by rewrite drop_all. }
  apply NoDup_cons in Hnd as [Hx Hnd].
  rewrite for_each_cons.
  destruct (StatusInvestScraper.handle_symbol env x s) as [r1 s1] eqn:H1.
  destruct r1 as [[]|e|]; [|done..]. intros Hrest.
  assert (Ht1 : ∃ evs1, trace s1 = trace s ++ evs1 ∧
            count (is_publish_call_for_symbol symbol) evs1
            = (if bool_decide (x = symbol) then 1 else 0)%nat).
  { destruct (decide (x = symbol)) as [->|Hne].
    - rewrite bool_decide_eq_true_2 by done.
      pose proof (handle_symbol_publishes env symbol s (Hhttp _)) as Hc.
      destruct (traced_handle_symbol env (λ _, True) (λ _ _, I) (λ _ _ _ _ _, I)
                  symbol s) as (evs1 & Ht & _).
      rewrite H1 in Hc, Ht. cbn [snd] in *. exists evs1. split; [done|].
      by rewrite (events_since_app _ _ _ Ht) in Hc.
    - rewrite bool_decide_eq_false_2 by done.
      destruct (handle_symbol_other x symbol s Hne) as (evs1 & Ht & Hc).
      rewrite H1 in Ht. by exists evs1. }
  destruct Ht1 as (evs1 & Ht1 & Hc1).
  specialize (IH s1 Hnd Hrest).
  destruct (traced_for_each (λ _, True) l (StatusInvestScraper.handle_symbol env)
              (λ x0, traced_handle_symbol env (λ _, True) (λ _ _, I)
                       (λ _ _ _ _ _, I) x0) s1) as (evs2 & Ht2 & _).
  rewrite Hrest in Ht2. cbn [snd] in Ht2.
  rewrite (events_since_app _ _ _ Ht2) in IH.
  rewrite (events_since_app s s' (evs1 ++ evs2)) by (by rewrite Ht2, Ht1, app_assoc).
  rewrite count_app, Hc1, IH.
  destruct (decide (x = symbol)) as [->|Hne].
  - rewrite bool_decide_eq_true_2 by done.
    rewrite (bool_decide_eq_false_2 (symbol ∈ l)) by done.
    rewrite bool_decide_eq_true_2; [done|]. by left.
  - rewrite (bool_decide_eq_false_2 (x = symbol)) by done.
    destruct (decide (symbol ∈ l)) as [Hin|Hnin].
    + rewrite !bool_decide_eq_true_2; [done| by right | done].
    + rewrite !bool_decide_eq_false_2; [done| | done].
      intros [?|?]%elem_of_cons; done.
Qed.

Lemma stocks_NoDup : NoDup StatusInvestScraper.BRAZILIAN_STOCKS.
Proof. apply (bool_decide_eq_true_1 (NoDup _)). vm_compute. reflexivity. Qed.

Lemma scraper_cycle_publishes symbol s s' :
  symbol ∈ StatusInvestScraper.BRAZILIAN_STOCKS →
  (∀ h, env_http env h (stock_url symbol) = Returns tt) →
  StatusInvestScraper.cycle env s = (Ok tt, s') →
  count (is_publish_call_for_symbol symbol) (events_since s s') = 1%nat.
Proof.
  intros Hin Hhttp. unfold StatusInvestScraper.cycle. unfold bind at 1.
  destruct (for_each StatusInvestScraper.BRAZILIAN_STOCKS _ s) as [r1 s1] eqn:Hloop.
  destruct r1 as [[]|e|]; [|done..].
  pose proof (symbols_published symbol _ s s1 Hhttp stocks_NoDup Hloop) as Hc.
  rewrite bool_decide_eq_true_2 in Hc by done.
  destruct (traced_for_each (λ _, True) StatusInvestScraper.BRAZILIAN_STOCKS
              (StatusInvestScraper.handle_symbol env)
              (λ x0, traced_handle_symbol env (λ _, True) (λ _ _, I)
                       (λ _ _ _ _ _, I) x0) s) as (evs1 & Ht1 & _).
  rewrite Hloop in Ht1. cbn [snd] in Ht1.
  rewrite (events_since_app _ _ _ Ht1) in Hc.
  unfold bind, log, modify, sleep. cbn [fst snd].
  intros Hrun.
  assert (Hs' : trace s' = trace s ++ evs1 ++
            [EvLog INFO ("Completed scraping cycle. Sleeping for "
                         +:+ pretty (CHECK_INTERVAL (env_config env)) +:+ " seconds...");
             EvSleep (CHECK_INTERVAL (env_config env)) (Returns tt)]).
  { destruct (CHECK_INTERVAL (env_config env) <? 0); [done|].
    destruct (env_sleep env _ _); [done|].
    injection Hrun as <-. cbn [emit trace]. by rewrite Ht1, <- !app_assoc. }
  rewrite (events_since_app _ _ _ Hs'), count_app, Hc. reflexivity.
Qed.
End Fundamentals.

(** C1 (as amended).  News.  Take a URL that is not empty and not yet in the
    cache.  When an article with that URL is handled, [publish_news] is
    entered once for it and the outcome of the handling is the outcome of that
    call: the URL is marked when the call returns, and the cache is left as
    it was when the call raises.  Over two successive iterations of the main
    loop (each a cycle and what the [except] clauses of the loop add to it)
    without a prune, however the two cycles end: a URL that the first
    iteration has marked was published exactly once, in the first, and is not
    published in the second; a URL that the first iteration has not marked
    was published at most once in each, and not at all in a first cycle that
    ended normally.  A cycle that ends normally marks every URL it fetched.
    Fundamentals: the scraper has no cache; a pass over a symbol whose
    scrape goes through publishes it once, whatever the state, and so does
    every cycle that ends normally, for every monitored symbol whose page
    answers: the symbol is published again in every such cycle. *)
Theorem new_item_published_once env :
  (∀ topic a s r s',
     let u := default "" (a_url a) in
     u ≠ "" → u ∉ processed_urls s →
     GNewsService.handle_article env topic a s = (r, s') →
     count (is_publish_call_for u) (events_since s s') = 1%nat ∧
     (∃ t1 t2 s2,
        r = (GNewsService.publish_news env
               (GNewsService.news_data_of a topic t1 t2) s2).1) ∧
     (r = Ok tt → existsb is_prune (events_since s s') = false →
      u ∈ processed_urls s') ∧
     (r ≠ Ok tt → processed_urls s' = processed_urls s)) ∧
  (∀ u s r1 s1 r2 s2,
     u ∉ processed_urls s →
     GNewsService.iteration env s = (r1, s1) →
     GNewsService.iteration env s1 = (r2, s2) →
     existsb is_prune (events_since s s2) = false →
     let first := count (is_publish_call_for u) (events_since s s1) in
     let second := count (is_publish_call_for u) (events_since s1 s2) in
     count (is_publish_call_for u) (events_since s s2) = (first + second)%nat ∧
     (u ∈ processed_urls s1 → first = 1%nat ∧ second = 0%nat) ∧
     (u ∉ processed_urls s1 →
      (first ≤ 1)%nat ∧ (second ≤ 1)%nat ∧
      ((GNewsService.cycle env s).1 = Ok tt → first = 0%nat))) ∧
  (∀ u s s1,
     u ≠ "" →
     GNewsService.cycle env s = (Ok tt, s1) →
     existsb (fetched u) (events_since s s1) = true →
     existsb is_prune (events_since s s1) = false →
     u ∈ processed_urls s1) ∧
  (∀ symbol s,
     env_http env (trace s ++ [EvLog INFO ("Scraping data for " +:+ symbol
                                           +:+ " from " +:+ stock_url symbol)])
       (stock_url symbol) = Returns tt →
     count (is_publish_call_for_symbol symbol)
       (events_since s (StatusInvestScraper.handle_symbol env symbol s).2) = 1%nat) ∧
  (∀ symbol s s',
     symbol ∈ StatusInvestScraper.BRAZILIAN_STOCKS →
     (∀ h, env_http env h (stock_url symbol) = Returns tt) →
     StatusInvestScraper.cycle env s = (Ok tt, s') →
     count (is_publish_call_for_symbol symbol) (events_since s s') = 1%nat).
Proof.
  split_and!.
  - intros topic a s r s' u Hu Hnew Hrun.
    destruct (handle_article_spec env u topic a s r s' Hrun)
      as (evs & Ht & _ & _ & Hcount & _ & Hkeep & _).
    fold u in Hcount, Hkeep.
    rewrite (events_since_app _ _ _ Ht).
    rewrite bool_decide_eq_true_2 in Hcount by done.
    split; [done|].
    rewrite (handle_article_go env topic a s Hu Hnew) in Hrun. fold u in Hrun.
    unfold bind in Hrun.
    set (t1 := env_utcnow env (trace s)) in *.
    set (t2 := env_utcnow env (trace s ++ [EvUtcNow t1])) in *.
    set (s2 := emit (EvUtcNow t2) (emit (EvUtcNow t1) s)) in *.
    pose proof (kept_publish_on env (λ c, c = processed_urls s) "market_news"
                  "news_queue"
                  (λ d, "Published news: " +:+ py_str (dict_get "title" (PyStr "N/A") d))
                  "Error publishing news: "
                  (GNewsService.news_data_of a topic t1 t2) s2 eq_refl) as Hcache.
    change (publish_on env "market_news" "news_queue" _ _
              (GNewsService.news_data_of a topic t1 t2))
      with (GNewsService.publish_news env (GNewsService.news_data_of a topic t1 t2))
      in Hcache.
    split_and!.
    + exists t1, t2, s2.
      destruct (GNewsService.publish_news env _ s2) as [[[]|e|] s3];
        [|by injection Hrun as <- _..].
      destruct (mark_spec env u u s3) as (evm & Hm & _).
      rewrite Hm in Hrun. by injection Hrun as <- _.
    + intros -> Hp. destruct (Hkeep Hp) as [Hok _]. rewrite (Hok eq_refl Hu).
      apply elem_of_union. left. by apply elem_of_singleton.
    + intros Hr.
      destruct (GNewsService.publish_news env _ s2) as [[[]|e|] s3];
        cbn [snd] in Hcache.
      * destruct (mark_spec env u u s3) as (evm & Hm & _).
        rewrite Hm in Hrun. by injection Hrun as <- _.
      * by injection Hrun as _ <-.
      * by injection Hrun as _ <-.
  - intros u s r1 s1 r2 s2 Hnew Hc1 Hc2 Hprune first second.
    destruct (iteration_once env u s _ _ Hc1) as (evs1 & Ht1 & I1).
    destruct (iteration_once env u s1 _ _ Hc2) as (evs2 & Ht2 & I2).
    subst first second.
    rewrite (events_since_app s s2 (evs1 ++ evs2)) in *
      by (by rewrite Ht2, Ht1, app_assoc).
    rewrite (events_since_app _ _ _ Ht1).
    rewrite (events_since_app _ _ _ Ht2).
    rewrite existsb_app in Hprune. apply orb_false_elim in Hprune as [Hp1 Hp2].
    destruct (I1 Hp1) as (_ & _ & Hn1).
    destruct (Hn1 Hnew) as (Pin1 & Pout1 & Pok1).
    destruct (I2 Hp2) as (_ & Ha2 & Hn2).
    split; [apply count_app|]. split.
    + intros Hin. split; [by apply Pin1 | by apply Ha2].
    + intros Hnin. split; [by apply Pout1|]. split.
      * destruct (Hn2 Hnin) as (Pin2 & Pout2 & _).
        destruct (decide (u ∈ processed_urls s2)) as [Hin2|Hnin2];
          [rewrite (Pin2 Hin2); lia | by apply Pout2].
      * intros Hr. by apply Pok1.
  - intros u s s1 Hu Hc Hfetched Hprune.
    destruct (once_per_url_cycle env u s _ _ Hc) as (evs & Ht & O).
    rewrite (events_since_app _ _ _ Ht) in *.
    destruct (O Hprune) as (_ & _ & _ & Hf). by apply Hf.
  - intros symbol s. apply handle_symbol_publishes.
  - intros symbol s s'. apply scraper_cycle_publishes.
Qed.

(** With a check interval that [time.sleep] rejects every cycle ends in an
    exception, after the article was published and marked: over two such
    iterations it is published once.  And a cycle of the scraper that ends
    normally has published [PETR4] once. *)
Lemma new_item_witness :
  let s := connected env_bitcoin_negative in
  let r1 := GNewsService.iteration env_bitcoin_negative s in
  let r2 := GNewsService.iteration env_bitcoin_negative r1.2 in
  ((GNewsService.cycle env_bitcoin_negative s).1
   = Raise (PyException OtherException "sleep length must be non-negative") ∧
   r1.1 = Ok Continue ∧ r2.1 = Ok Continue ∧
   count (is_publish_call_for "https://x/1") (events_since s r2.2) = 1%nat) ∧
  count (is_publish_call_for_symbol "PETR4")
    (events_since initial (StatusInvestScraper.cycle env_quiet initial).2) = 1%nat.
Proof.
  intros s r1 r2.
  pose proof (new_item_published_once env_bitcoin_negative) as (_ & Hnews & _).
  pose proof (new_item_published_once env_quiet) as (_ & _ & _ & _ & Hfund).
  split; [split_and!|].
  - vm_compute. reflexivity.
  - vm_compute. reflexivity.
  - vm_compute. reflexivity.
  - destruct (Hnews "https://x/1" s r1.1 r1.2 r2.1 r2.2) as (Hsum & Hin & _).
    + apply (bool_decide_eq_false_1 (_ ∈ _)). vm_compute. reflexivity.
    + apply surjective_pairing.
    + apply surjective_pairing.
    + vm_compute. reflexivity.
    + cbn zeta in Hsum, Hin. destruct Hin as [H1 H2].
      { apply (bool_decide_eq_true_1 (_ ∈ _)). vm_compute. reflexivity. }
      rewrite Hsum, H1, H2. reflexivity.
  - destruct (StatusInvestScraper.cycle env_quiet initial) as [r s'] eqn:Hc.
    assert (Hr : r = Ok tt) by (vm_compute in Hc; by injection Hc as <- _).
    subst r. apply (Hfund "PETR4" initial s').
    + apply (bool_decide_eq_true_1 (_ ∈ _)). vm_compute. reflexivity.
    + intros h. reflexivity.
    + exact Hc.
Defined.

(** C1 (as stated) fails.  The scraper publishes a symbol again in every
    cycle: two cycles that both end normally, with no prune anywhere, publish
    [PETR4] twice.  And in the news service an article whose publish raises
    (the broker is lost and the reconnect gives up) is not marked, so the
    next cycle fetches it and enters [publish_news] for it again. *)
Lemma same_record_published_twice :
  (let s0 := (StatusInvestScraper.__init__ env_quiet initial).2 in
   let r1 := StatusInvestScraper.cycle env_quiet s0 in
   let r2 := StatusInvestScraper.cycle env_quiet r1.2 in
   r1.1 = Ok tt ∧ r2.1 = Ok tt ∧
   existsb is_prune (events_since s0 r2.2) = false ∧
   count (is_publish_call_for_symbol "PETR4") (events_since s0 r1.2) = 1%nat ∧
   count (is_publish_call_for_symbol "PETR4") (events_since s0 r2.2) = 2%nat) ∧
  (let s0 := connected env_broker_lost in
   let r1 := GNewsService.iteration env_broker_lost s0 in
   let r2 := GNewsService.iteration env_broker_lost r1.2 in
   r1.1 = Ok Continue ∧ r2.1 = Ok Continue ∧
   existsb (fetched "https://x/1") (events_since s0 r1.2) = true ∧
   existsb (fetched "https://x/1") (events_since r1.2 r2.2) = true ∧
   existsb is_prune (events_since s0 r2.2) = false ∧
   count (is_publish_call_for "https://x/1") (events_since s0 r2.2) = 2%nat).
Proof.
  split; cbn zeta; split_and!; vm_compute; reflexivity.
Qed.
